(** * Canvas Builder: scene editing core, history and PDF export gate

    A shallow embedding of the canvas-builder sources:

    - [frontend/src/app/page.tsx]: the page state (scene, undo/redo history);
    - the raw-canvas [InteractiveCanvas] component (pointer state machine,
      hit testing, resize handles, inline text editing);
    - the Konva [InteractiveCanvas] component (shape drawing with its
      validity check);
    - [backend/server.js]: [drawElements] and the [/export/pdf] handler.

    JavaScript numbers are modelled as exact rationals ([Q]); rounding of
    IEEE doubles, [NaN] and infinities are outside the model.  JavaScript
    strings are sequences of UTF-16 code units.

    What the platform provides is a parameter of the code that calls it:
    [Math.sqrt], the stroke query [ctx.isPointInStroke] of the 2D canvas,
    [img.complete], and on the server [loadImage], [createCanvas] and the
    assembly of the PDF.  Statements hold for every behaviour of these,
    or name what they assume of them. *)

From Stdlib Require Import Ascii String.
From Stdlib Require Import QArith Qabs Qminmax Qround Lqa Lia List Bool NArith.
From stdpp Require Import base option list.
Import ListNotations.

Set Default Proof Using "Type".

(* ================================================================== *)
(** * JavaScript values *)
(* ================================================================== *)

Definition number := Q.
Bind Scope Q_scope with number.

(** A string is its sequence of UTF-16 code units. *)
Abbreviation jsstring := (list N).

Declare Scope js_scope.
Delimit Scope js_scope with js.

(** Comparison operators on numbers, as booleans. *)
Definition num_le (a b : number) : bool := Qle_bool a b.
Definition num_lt (a b : number) : bool := negb (Qle_bool b a).
Definition num_ge (a b : number) : bool := num_le b a.
Definition num_gt (a b : number) : bool := num_lt b a.

Infix "<=?" := num_le (at level 70, no associativity) : js_scope.
Infix "<?" := num_lt (at level 70, no associativity) : js_scope.
Infix ">=?" := num_ge (at level 70, no associativity) : js_scope.
Infix ">?" := num_gt (at level 70, no associativity) : js_scope.

(** [a || b] on numbers: [a] unless it is falsy (zero). *)
Definition num_or (a b : number) : number :=
  if Qeq_bool a 0%Q then b else a.

(** [!n] on a number: true exactly for zero. *)
Definition num_falsy (a : number) : bool := Qeq_bool a 0%Q.

(** [Math.pow(a, 2)]. *)
Definition pow2 (a : number) : number := (a * a)%Q.

(** ECMAScript [WhiteSpace] and [LineTerminator] code units, the ones
    [String.prototype.trim] strips. *)
Definition isWhiteSpace (c : N) : bool :=
  ((c =? 9) || (c =? 10) || (c =? 11) || (c =? 12) || (c =? 13) ||
   (c =? 32) || (c =? 160) || (c =? 5760) ||
   ((8192 <=? c) && (c <=? 8202)) ||
   (c =? 8232) || (c =? 8233) || (c =? 8239) || (c =? 8287) ||
   (c =? 12288) || (c =? 65279))%N.

Fixpoint trimStart (s : jsstring) : jsstring :=
  match s with
  | [] => []
  | c :: s' => if isWhiteSpace c then trimStart s' else s
  end.

Definition trimEnd (s : jsstring) : jsstring := rev (trimStart (rev s)).

(** [s.trim()]. *)
Definition trim (s : jsstring) : jsstring := trimEnd (trimStart s).

(** Truthiness of a string: non-empty. *)
Definition str_truthy (s : jsstring) : bool :=
  match s with [] => false | _ => true end.

(** [s.startsWith(prefix)]. *)
Fixpoint startsWith (prefix s : jsstring) : bool :=
  match prefix, s with
  | [], _ => true
  | _ :: _, [] => false
  | a :: prefix', b :: s' => (a =? b)%N && startsWith prefix' s'
  end.

(** Code units of an ASCII literal. *)
Fixpoint js (s : string) : jsstring :=
  match s with
  | EmptyString => []
  | String a s' => N_of_ascii a :: js s'
  end.

(* ================================================================== *)
(** * Element model *)
(* ================================================================== *)

(** [type Point = { x: number; y: number }] *)
Record Point := mkPoint { px : number; py : number }.

(** [type CanvasElement], one constructor per [type] tag; the arguments
    follow the order of the fields in the source. *)
Inductive CanvasElement :=
| Rect (x y width height : number) (color : jsstring)
| Circle (x y radius : number) (color : jsstring)
| Text (x y : number) (text : jsstring) (fontSize : number) (color : jsstring)
| Image (x y width height : number) (src : jsstring)
| Path (points : list Point) (color : jsstring) (strokeWidth : number).

Definition isPath (el : CanvasElement) : bool :=
  match el with Path _ _ _ => true | _ => false end.

(** [{ ...el, x: nx, y: ny }].  A path has no [x]/[y] fields of its own: the
    spread leaves its [points], [color] and [strokeWidth] as they are (the
    two stray properties the spread adds are not part of the element type). *)
Definition withXY (el : CanvasElement) (nx ny : number) : CanvasElement :=
  match el with
  | Rect _ _ w h c => Rect nx ny w h c
  | Circle _ _ r c => Circle nx ny r c
  | Text _ _ t f c => Text nx ny t f c
  | Image _ _ w h s => Image nx ny w h s
  | Path ps c sw => Path ps c sw
  end.

(** The [x] and [y] fields, where the variant has them. *)
Definition elemX (el : CanvasElement) : option number :=
  match el with
  | Rect x _ _ _ _ | Circle x _ _ _ | Text x _ _ _ _ | Image x _ _ _ _ => Some x
  | Path _ _ _ => None
  end.

Definition elemY (el : CanvasElement) : option number :=
  match el with
  | Rect _ y _ _ _ | Circle _ y _ _ | Text _ y _ _ _ | Image _ y _ _ _ => Some y
  | Path _ _ _ => None
  end.

(** The active tool ([type Tool] of Controls.tsx). *)
Inductive Tool :=
| tool_select | tool_rect | tool_circle | tool_text
| tool_image | tool_pencil | tool_eraser.

(** A scene is the array of its elements, in paint order. *)
Abbreviation Scene := (list CanvasElement).

(* ================================================================== *)
(** * page.tsx: scene and history *)
(* ================================================================== *)

Module Page.

(** The [useState] cells of [Home] that the editing core reads. *)
Record PageState := mkPage {
  elements : Scene;
  history : list Scene;
  historyIndex : nat;
  width : number;
  height : number;
  activeTool : Tool;
  currentColor : jsstring;
  currentStrokeWidth : number
}.

(** Initial values of the state cells. *)
Definition initial : PageState :=
  {| elements := []; history := [[]]; historyIndex := 0;
     width := 800%Q; height := 600%Q; activeTool := tool_select;
     currentColor := js "#000000"; currentStrokeWidth := 2%Q |}.

Definition setElements (v : Scene) (st : PageState) : PageState :=
  mkPage v (history st) (historyIndex st) (width st) (height st)
         (activeTool st) (currentColor st) (currentStrokeWidth st).

Definition setHistory (v : list Scene) (st : PageState) : PageState :=
  mkPage (elements st) v (historyIndex st) (width st) (height st)
         (activeTool st) (currentColor st) (currentStrokeWidth st).

Definition setHistoryIndex (v : nat) (st : PageState) : PageState :=
  mkPage (elements st) (history st) v (width st) (height st)
         (activeTool st) (currentColor st) (currentStrokeWidth st).

Definition setActiveTool (v : Tool) (st : PageState) : PageState :=
  mkPage (elements st) (history st) (historyIndex st) (width st) (height st)
         v (currentColor st) (currentStrokeWidth st).

Definition setWidth (v : number) (st : PageState) : PageState :=
  mkPage (elements st) (history st) (historyIndex st) v (height st)
         (activeTool st) (currentColor st) (currentStrokeWidth st).

Definition setHeight (v : number) (st : PageState) : PageState :=
  mkPage (elements st) (history st) (historyIndex st) (width st) v
         (activeTool st) (currentColor st) (currentStrokeWidth st).

(** [addToHistory]: [history.slice(0, historyIndex + 1)], push, and the
    three setters. *)
Definition addToHistory (newElements : Scene) (st : PageState) : PageState :=
  let newHistory := take (historyIndex st + 1) (history st) ++ [newElements] in
  setElements newElements
    (setHistoryIndex (length newHistory - 1)
      (setHistory newHistory st)).

Definition handleAddElement (newEl : CanvasElement) (st : PageState) : PageState :=
  let newElements := elements st ++ [newEl] in
  addToHistory newElements st.

(** [elements.filter((_, i) => i !== index)] *)
Fixpoint filterIndexNe (index : nat) (i : nat) (l : Scene) : Scene :=
  match l with
  | [] => []
  | e :: l' =>
      if Nat.eqb i index then filterIndexNe index (S i) l'
      else e :: filterIndexNe index (S i) l'
  end.

Definition handleRemoveElement (index : nat) (st : PageState) : PageState :=
  let newElements := filterIndexNe index 0 (elements st) in
  addToHistory newElements st.

(** [handleUndo].  [None] stands for the state in which [elements] has
    been set to [undefined] (the read [history[newIndex]] fell outside the
    array); it cannot arise while [historyIndex < history.length]. *)
Definition handleUndo (st : PageState) : option PageState :=
  if (0 <? historyIndex st)%nat then
    let newIndex := (historyIndex st - 1)%nat in
    match history st !! newIndex with
    | Some snapshot => Some (setElements snapshot (setHistoryIndex newIndex st))
    | None => None
    end
  else Some st.

(** [handleRedo], with the same reading of [None].  For an empty history
    the bound [history.length - 1] is -1 in JavaScript and 0 here; the test
    is false either way. *)
Definition handleRedo (st : PageState) : option PageState :=
  if (historyIndex st <? length (history st) - 1)%nat then
    let newIndex := (historyIndex st + 1)%nat in
    match history st !! newIndex with
    | Some snapshot => Some (setElements snapshot (setHistoryIndex newIndex st))
    | None => None
    end
  else Some st.

Definition clearCanvas (st : PageState) : PageState := addToHistory [] st.

(** The [canUndo] and [canRedo] props handed to [Controls]. *)
Definition canUndo (st : PageState) : bool := (0 <? historyIndex st)%nat.
Definition canRedo (st : PageState) : bool :=
  (historyIndex st <? length (history st) - 1)%nat.

(** [newElements[index] = newEl] on a copy of the array: an index inside
    the array replaces the slot, the index [length] appends.  [None] stands
    for an index further out, which would leave holes in the array. *)
Definition assignSlot (index : nat) (newEl : CanvasElement) (els : Scene)
  : option Scene :=
  if (index <? length els)%nat then Some (<[index := newEl]> els)
  else if (index =? length els)%nat then Some (els ++ [newEl])
  else None.

(** The inline [onElementUpdate] prop: copy the array, assign the slot,
    [setElements].  No history call. *)
Definition onElementUpdate (index : nat) (newEl : CanvasElement)
           (st : PageState) : option PageState :=
  match assignSlot index newEl (elements st) with
  | Some newElements => Some (setElements newElements st)
  | None => None
  end.

(** The buttons of the history panel. *)
Inductive HistoryOp := Undo | Redo.

Definition applyOp (op : HistoryOp) (st : PageState) : option PageState :=
  match op with Undo => handleUndo st | Redo => handleRedo st end.

Fixpoint applyOps (ops : list HistoryOp) (st : PageState) : option PageState :=
  match ops with
  | [] => Some st
  | op :: ops' =>
      match applyOp op st with
      | Some st' => applyOps ops' st'
      | None => None
      end
  end.

(** The history invariant of the data model: the cursor is a valid index. *)
Definition wf (st : PageState) : Prop :=
  (historyIndex st < length (history st))%nat.

(** The scaling of [onImageUpload]:
    [if (w > 400) { h = (400 / w) * h; w = 400; }]. *)
Definition scaleDown (w h : number) : number * number :=
  if (w >? 400)%js then (400, (400 / w) * h)%Q else (w, h).

(** [onImageUpload], from the moment the file has been read and the image
    decoded: [src] is the data URL, [imgWidth] and [imgHeight] the size of
    the decoded image. *)
Definition onImageUpload (src : jsstring) (imgWidth imgHeight : number)
           (st : PageState) : PageState :=
  let (w, h) := scaleDown imgWidth imgHeight in
  handleAddElement (Image 50 50 w h src) st.

(** The callbacks through which the page state changes. *)
Inductive Action :=
| AddElement (newEl : CanvasElement)
| RemoveElement (index : nat)
| ClearCanvas
| UndoAction
| RedoAction
| UpdateElement (index : nat) (newEl : CanvasElement)
| UploadImage (src : jsstring) (imgWidth imgHeight : number).

Definition act (a : Action) (st : PageState) : option PageState :=
  match a with
  | AddElement newEl => Some (handleAddElement newEl st)
  | RemoveElement index => Some (handleRemoveElement index st)
  | ClearCanvas => Some (clearCanvas st)
  | UndoAction => handleUndo st
  | RedoAction => handleRedo st
  | UpdateElement index newEl => onElementUpdate index newEl st
  | UploadImage src w h => Some (onImageUpload src w h st)
  end.

Fixpoint run (actions : list Action) (st : PageState) : option PageState :=
  match actions with
  | [] => Some st
  | a :: actions' =>
      match act a st with
      | Some st' => run actions' st'
      | None => None
      end
  end.

(** The actions that go through [addToHistory] or move the cursor: all but
    [onElementUpdate]. *)
Definition tracked (a : Action) : bool :=
  match a with UpdateElement _ _ => false | _ => true end.

End Page.

(* ================================================================== *)
(** * Controls.tsx: tool and file selection *)
(* ================================================================== *)

Module Controls.
Import Page.

(** The file chosen in the hidden input: its MIME type and, when the reader
    and the image decoder succeed, the data URL with the size of the image. *)
Record File := mkFile {
  fileType : jsstring;
  decoded : option (jsstring * (number * number))
}.

(** [handleToolClick] (opening the file picker changes no state). *)
Definition handleToolClick (toolId : Tool) (st : PageState) : PageState :=
  setActiveTool toolId st.

(** [file.type === 'image/jpeg' || file.type === 'image/jpg'] *)
Definition isJpeg (type : jsstring) : bool :=
  bool_decide (type = js "image/jpeg") || bool_decide (type = js "image/jpg").

(** [handleFileChange]: a JPEG goes to [onImageUpload], anything else is
    refused with an alert; the tool goes back to select either way. *)
Definition handleFileChange (file : option File) (st : PageState) : PageState :=
  let st1 :=
    match file with
    | Some f =>
        if isJpeg (fileType f) then
          match decoded f with
          | Some (src, (w, h)) => onImageUpload src w h st
          | None => st
          end
        else st
    | None => st
    end in
  setActiveTool tool_select st1.

End Controls.

(* ================================================================== *)
(** * Geometry of polylines *)
(* ================================================================== *)

(** Points, segments and distances, in which the statements about the
    stroke query [ctx.isPointInStroke] are written.  Distances are compared
    through their squares, so no square root is needed. *)
Module Stroke.
Local Open Scope Q_scope.

(** Parameter, clamped to the segment, of the point of [a b] nearest to [p]. *)
Definition nearestParam (p a b : Point) : number :=
  let dx := px b - px a in
  let dy := py b - py a in
  let c := (px p - px a) * dx + (py p - py a) * dy in
  let len2 := dx * dx + dy * dy in
  if (c <=? 0)%js then 0
  else if (len2 <=? c)%js then 1
  else c / len2.

(** The point [a + t (b - a)]. *)
Definition pointAt (a b : Point) (t : number) : Point :=
  mkPoint (px a + t * (px b - px a)) (py a + t * (py b - py a)).

Definition distSq (p q : Point) : number :=
  pow2 (px p - px q) + pow2 (py p - py q).

(** Squared distance from [p] to the segment [a b]. *)
Definition distSqToSegment (p a b : Point) : number :=
  distSq p (pointAt a b (nearestParam p a b)).

Definition samePoint (a b : Point) : bool :=
  Qeq_bool (px a) (px b) && Qeq_bool (py a) (py b).

(** The line segments of the subpath [moveTo v0; lineTo v1; ...]. *)
Fixpoint segments (vertices : list Point) : list (Point * Point) :=
  match vertices with
  | a :: ((b :: _) as rest) => (a, b) :: segments rest
  | _ => []
  end.

(** [p] is within [lineWidth / 2] of the segment [s], a segment of
    non-zero length. *)
Definition inSegmentStroke (lineWidth : number) (p : Point)
           (s : Point * Point) : bool :=
  negb (samePoint (fst s) (snd s)) &&
  (distSqToSegment p (fst s) (snd s) <=? pow2 (lineWidth / 2))%js.

End Stroke.

(* ================================================================== *)
(** * The raw-canvas InteractiveCanvas component *)
(* ================================================================== *)

Module Raw.
Import Page.
Local Open Scope Q_scope.

Definition HANDLE_SIZE : number := 8.

(** The handle ids ['nw'], ['ne'], ['sw'], ['se']. *)
Inductive Handle := NW | NE | SW | SE.

(** The [editingText] cell: [{ x, y, value }]. *)
Record EditingText := mkEditing {
  et_x : number; et_y : number; et_value : jsstring
}.

(** The [useState] cells of the component. *)
Record CanvasState := mkCanvas {
  isDrawing : bool;
  isDragging : bool;
  isResizing : option Handle;
  startPos : option Point;
  currentPos : option Point;
  currentPath : list Point;
  editingText : option EditingText;
  selectedIndex : option nat;
  initialElementState : option CanvasElement
}.

Definition idle : CanvasState :=
  mkCanvas false false None None None [] None None None.

Definition setIsDrawing v c :=
  mkCanvas v (isDragging c) (isResizing c) (startPos c) (currentPos c)
           (currentPath c) (editingText c) (selectedIndex c)
           (initialElementState c).
Definition setIsDragging v c :=
  mkCanvas (isDrawing c) v (isResizing c) (startPos c) (currentPos c)
           (currentPath c) (editingText c) (selectedIndex c)
           (initialElementState c).
Definition setIsResizing v c :=
  mkCanvas (isDrawing c) (isDragging c) v (startPos c) (currentPos c)
           (currentPath c) (editingText c) (selectedIndex c)
           (initialElementState c).
Definition setStartPos v c :=
  mkCanvas (isDrawing c) (isDragging c) (isResizing c) v (currentPos c)
           (currentPath c) (editingText c) (selectedIndex c)
           (initialElementState c).
Definition setCurrentPos v c :=
  mkCanvas (isDrawing c) (isDragging c) (isResizing c) (startPos c) v
           (currentPath c) (editingText c) (selectedIndex c)
           (initialElementState c).
Definition setCurrentPath v c :=
  mkCanvas (isDrawing c) (isDragging c) (isResizing c) (startPos c)
           (currentPos c) v (editingText c) (selectedIndex c)
           (initialElementState c).
Definition setEditingText v c :=
  mkCanvas (isDrawing c) (isDragging c) (isResizing c) (startPos c)
           (currentPos c) (currentPath c) v (selectedIndex c)
           (initialElementState c).
Definition setSelectedIndex v c :=
  mkCanvas (isDrawing c) (isDragging c) (isResizing c) (startPos c)
           (currentPos c) (currentPath c) (editingText c) v
           (initialElementState c).
Definition setInitialElementState v c :=
  mkCanvas (isDrawing c) (isDragging c) (isResizing c) (startPos c)
           (currentPos c) (currentPath c) (editingText c) (selectedIndex c)
           v.

(** The component together with the page that owns its props and
    callbacks ([onElementAdd], [onElementRemove], [onElementUpdate]). *)
Record App := mkApp { page : PageState; canvas : CanvasState }.

(** ** Resize handles *)

(** The test of the [for (const h of handles)] loop. *)
Definition onHandle (x y hx hy : number) : bool :=
  ((x >=? hx - HANDLE_SIZE) && (x <=? hx + HANDLE_SIZE) &&
   (y >=? hy - HANDLE_SIZE) && (y <=? hy + HANDLE_SIZE))%js.

(** The [handles] array built from [el.x], [el.y], [right], [bottom]. *)
Definition handlesAt (ex ey right bottom : number)
  : list (Handle * (number * number)) :=
  [ (NW, (ex, ey)); (NE, (right, ey)); (SW, (ex, bottom)); (SE, (right, bottom)) ].

Fixpoint firstHandle (x y : number) (hs : list (Handle * (number * number)))
  : option Handle :=
  match hs with
  | [] => None
  | (id, (hx, hy)) :: hs' =>
      if onHandle x y hx hy then Some id else firstHandle x y hs'
  end.

(** The handle anchor points of an element ([None] for text and paths). *)
Definition handlesOf (el : CanvasElement)
  : option (list (Handle * (number * number))) :=
  match el with
  | Path _ _ _ => None
  | Text _ _ _ _ _ => None
  | Circle ex ey r _ =>
      Some (handlesAt ex ey (ex + r * 2) (ey + r * 2))
  | Rect ex ey w h _ | Image ex ey w h _ =>
      Some (handlesAt ex ey (ex + num_or w 0) (ey + num_or h 0))
  end.

Definition getResizeHandle (x y : number) (el : CanvasElement) : option Handle :=
  match handlesOf el with
  | None => None
  | Some hs => firstHandle x y hs
  end.

(** ** Hit testing *)

(** The rectangle / image branch of both hit loops. *)
Definition hitBox (pos : Point) (ex ey w h : number) : bool :=
  let x := if (w <? 0)%js then ex + w else ex in
  let y := if (h <? 0)%js then ey + h else ey in
  let w' := Qabs w in
  let h' := Qabs h in
  ((px pos >=? x) && (px pos <=? x + w') &&
   (py pos >=? y) && (py pos <=? y + h'))%js.

(** The text branch: a rough box from the font size and the length. *)
Definition hitText (pos : Point) (ex ey : number) (text : jsstring)
           (fontSize : number) : bool :=
  ((px pos >=? ex) &&
   (px pos <=? ex + (fontSize * inject_Z (Z.of_nat (length text)) * (6 # 10))) &&
   (py pos <=? ey) && (py pos >=? ey - fontSize))%js.

Section WithPlatform.

(** [Math.sqrt], a primitive of the platform. *)
Variable Math_sqrt : number -> number.

(** [ctx.isPointInStroke(x, y)], a primitive of the 2D canvas, asked about
    the current path.  [isPointInStroke lineWidth vertices pos] is its answer
    at [pos] when the path is [moveTo] the first of [vertices] and [lineTo]
    each of the others, right after [lineWidth] has been assigned to
    [ctx.lineWidth].  The caps, joins and miter limit are whatever the context
    holds; the canvas ignores the assignment of a width that is not positive
    and strokes with the width it had. *)
Variable isPointInStroke : number -> list Point -> Point -> bool.

(** The path branch: [lineWidth = strokeWidth + pad], then [moveTo] the
    first point and [lineTo] every point (the first one included). *)
Definition hitPath (pad : number) (pos : Point) (points : list Point)
           (strokeWidth : number) : bool :=
  match points with
  | [] => false
  | p0 :: _ => isPointInStroke (strokeWidth + pad) (p0 :: points) pos
  end.

(** The circle branch. *)
Definition hitCircle (pos : Point) (ex ey radius : number) : bool :=
  let dist := Math_sqrt (pow2 (px pos - ex) + pow2 (py pos - ey)) in
  (dist <=? radius)%js.

(** The body of the two hit loops of [handleMouseDown]; they differ only
    in the constant added to the stroke width of a path. *)
Definition hitTest (pad : number) (pos : Point) (el : CanvasElement) : bool :=
  match el with
  | Rect ex ey w h _ | Image ex ey w h _ => hitBox pos ex ey w h
  | Circle ex ey r _ => hitCircle pos ex ey r
  | Text ex ey t f _ => hitText pos ex ey t f
  | Path ps _ sw => hitPath pad pos ps sw
  end.

(** The select loop adds 10, the eraser loop adds 5. *)
Definition selectHit := hitTest 10.
Definition eraserHit := hitTest 5.

(** [for (let i = elements.length - 1; i >= 0; i--)], started with
    [n = elements.length]: the topmost element that is hit. *)
Fixpoint topmostHit (hit : CanvasElement -> bool) (els : Scene) (n : nat)
  : option (nat * CanvasElement) :=
  match n with
  | O => None
  | S i =>
      match els !! i with
      | Some el => if hit el then Some (i, el) else topmostHit hit els i
      | None => topmostHit hit els i
      end
  end.

(** ** Pointer handlers *)

(** The first block of the select branch of [handleMouseDown]: the
    handle of the currently selected element under the pointer, with a
    copy of that element. *)
Definition grabbedHandle (pos : Point) (app : App)
  : option (Handle * CanvasElement) :=
  match selectedIndex (canvas app) with
  | None => None
  | Some si =>
      match elements (page app) !! si with
      | None => None
      | Some el =>
          match getResizeHandle (px pos) (py pos) el with
          | Some handle => Some (handle, el)
          | None => None
          end
      end
  end.

(** [handleMouseDown].  [promptReply] is what [prompt] returns when the
    image tool calls it ([None] for a cancelled dialog). *)
Definition handleMouseDown (pos : Point) (promptReply : option jsstring)
           (app : App) : App :=
  let pg := page app in
  let c := canvas app in
  match activeTool pg with
  | tool_select =>
      match grabbedHandle pos app with
      | Some (handle, el) =>
          mkApp pg (setInitialElementState (Some el)
                     (setStartPos (Some pos)
                       (setIsResizing (Some handle) c)))
      | None =>
          match topmostHit (selectHit pos) (elements pg)
                           (length (elements pg)) with
          | Some (i, el) =>
              mkApp pg (setInitialElementState (Some el)
                         (setStartPos (Some pos)
                           (setIsDragging true
                             (setSelectedIndex (Some i) c))))
          | None => mkApp pg (setSelectedIndex None c)
          end
      end
  | tool_eraser =>
      match topmostHit (eraserHit pos) (elements pg)
                       (length (elements pg)) with
      | Some (i, _) => mkApp (handleRemoveElement i pg) c
      | None => app
      end
  | tool =>
      let c1 := setCurrentPos (Some pos)
                  (setStartPos (Some pos) (setIsDrawing true c)) in
      match tool with
      | tool_pencil => mkApp pg (setCurrentPath [pos] c1)
      | tool_text =>
          mkApp pg (setIsDrawing false
                     (setEditingText
                        (Some (mkEditing (px pos) (py pos) [])) c1))
      | tool_image =>
          match promptReply with
          | Some url =>
              if str_truthy url
              then mkApp (handleAddElement
                            (Image (px pos) (py pos) 150 150 url) pg)
                         (setIsDrawing false c1)
              else mkApp pg c1
          | None => mkApp pg c1
          end
      | _ => mkApp pg c1
      end
  end.

(** [{ ...initialElementState, x: x + dx, y: y + dy }] *)
Definition dragged (init : CanvasElement) (dx dy : number) : CanvasElement :=
  match elemX init, elemY init with
  | Some x, Some y => withXY init (x + dx) (y + dy)
  | _, _ => init
  end.

(** The box of the resize branch, as [(newX, newY, newW, newH)]. *)
Definition resizedBox (handle : Handle) (x y w h dx dy : number)
  : number * number * number * number :=
  match handle with
  | SE => (x, y, w + dx, h + dy)
  | SW => (x + dx, y, w - dx, h + dy)
  | NW => (x + dx, y + dy, w - dx, h - dy)
  | NE => (x, y + dy, w + dx, h - dy)
  end.

(** The element the resize branch hands to [onElementUpdate], if any. *)
Definition resized (handle : Handle) (el : CanvasElement) (dx dy : number)
  : option CanvasElement :=
  match el with
  | Rect x y w h c =>
      let '(newX, newY, newW, newH) := resizedBox handle x y w h dx dy in
      Some (Rect newX newY newW newH c)
  | Image x y w h s =>
      let '(newX, newY, newW, newH) := resizedBox handle x y w h dx dy in
      Some (Image newX newY newW newH s)
  | Circle x y r c =>
      let dr := dx in
      Some (Circle x y (r + dr / 2) c)
  | _ => None
  end.

Definition update (index : nat) (newEl : CanvasElement) (app : App)
  : option App :=
  match onElementUpdate index newEl (page app) with
  | Some pg' => Some (mkApp pg' (canvas app))
  | None => None
  end.

(** [handleMouseMove] (the cursor styling at its top changes no state).
    [None] is inherited from [Page.onElementUpdate]. *)
Definition handleMouseMove (pos : Point) (app : App) : option App :=
  let pg := page app in
  let c := canvas app in
  match isDragging c, selectedIndex c, startPos c, initialElementState c with
  | true, Some si, Some sp, Some init =>
      let dx := px pos - px sp in
      let dy := py pos - py sp in
      match activeTool pg with
      | tool_pencil => Some app
      | _ => update si (dragged init dx dy) app
      end
  | _, _, _, _ =>
      match isResizing c, selectedIndex c, startPos c,
            initialElementState c with
      | Some handle, Some si, Some sp, Some init =>
          let dx := px pos - px sp in
          let dy := py pos - py sp in
          match resized handle init dx dy with
          | Some newEl => update si newEl app
          | None => Some app
          end
      | _, _, _, _ =>
          if negb (isDrawing c) then Some app
          else
            let c1 := setCurrentPos (Some pos) c in
            match activeTool pg with
            | tool_pencil =>
                Some (mkApp pg (setCurrentPath (currentPath c ++ [pos]) c1))
            | _ => Some (mkApp pg c1)
            end
      end
  end.

(** [handleMouseUp] (also bound to [onMouseLeave]). *)
Definition handleMouseUp (app : App) : App :=
  let pg := page app in
  let c := canvas app in
  if isDragging c || bool_decide (isResizing c <> None) then
    mkApp pg (setInitialElementState None
               (setStartPos None
                 (setIsResizing None (setIsDragging false c))))
  else if negb (isDrawing c) then app
  else
    let c1 := setIsDrawing false c in
    let done pg' c' :=
      mkApp pg' (setCurrentPos None (setStartPos None c')) in
    match activeTool pg, startPos c, currentPos c with
    | tool_pencil, _, _ =>
        done (handleAddElement
                (Path (currentPath c) (currentColor pg)
                      (currentStrokeWidth pg)) pg)
             (setCurrentPath [] c1)
    | tool_rect, Some sp, Some cp =>
        done (handleAddElement
                (Rect (px sp) (py sp) (px cp - px sp) (py cp - py sp)
                      (currentColor pg)) pg) c1
    | tool_circle, Some sp, Some cp =>
        let radius :=
          Math_sqrt (pow2 (px cp - px sp) + pow2 (py cp - py sp)) in
        done (handleAddElement
                (Circle (px sp) (py sp) radius (currentColor pg)) pg) c1
    | _, _, _ => done pg c1
    end.

(** ** Inline text editing *)

(** [onChange] of the input: [{ ...editingText, value }]. *)
Definition onChange (value : jsstring) (app : App) : App :=
  match editingText (canvas app) with
  | Some et =>
      mkApp (page app)
            (setEditingText (Some (mkEditing (et_x et) (et_y et) value))
                            (canvas app))
  | None => app
  end.

(** [onBlur] of the input. *)
Definition onBlur (app : App) : App :=
  match editingText (canvas app) with
  | Some et =>
      let pg' :=
        if str_truthy (trim (et_value et))
        then handleAddElement
               (Text (et_x et) (et_y et) (et_value et) 24
                     (currentColor (page app))) (page app)
        else page app in
      mkApp pg' (setEditingText None (canvas app))
  | None => app
  end.

(** [onKeyDown]: Enter blurs the input, which runs [onBlur]. *)
Definition onKeyDown (key : jsstring) (app : App) : App :=
  if bool_decide (key = js "Enter") then onBlur app else app.

(** ** Event sequences *)

Fixpoint moves (ps : list Point) (app : App) : option App :=
  match ps with
  | [] => Some app
  | p :: ps' =>
      match handleMouseMove p app with
      | Some app' => moves ps' app'
      | None => None
      end
  end.

(** A press at [p0], pointer moves through [ps], and the release. *)
Definition gesture (p0 : Point) (ps : list Point) (app : App) : option App :=
  match moves ps (handleMouseDown p0 None app) with
  | Some app' => Some (handleMouseUp app')
  | None => None
  end.

(** What ends an inline editing session. *)
Inductive EditEnd := Blur | Enter.

Definition endEdit (e : EditEnd) (app : App) : App :=
  match e with
  | Blur => onBlur app
  | Enter => onKeyDown (js "Enter") app
  end.

(** A click with the text tool at [pos], the successive contents of the
    input, and the end of the session. *)
Definition textSession (pos : Point) (typed : list jsstring) (e : EditEnd)
           (app : App) : App :=
  endEdit e (fold_left (fun a v => onChange v a) typed
                       (handleMouseDown pos None app)).

End WithPlatform.
End Raw.

(* ================================================================== *)
(** * The Konva InteractiveCanvas component *)
(* ================================================================== *)

Module Konva.
Import Page.
Local Open Scope Q_scope.

(** The [useState] cells [newShape], [isDrawing] and [startPos].  The
    props [selectedIndex] and [onSelect] are optional and page.tsx passes
    neither: [selectedIndex] is [undefined] and every [onSelect?.(...)] is a
    call that does nothing. *)
Record CanvasState := mkCanvas {
  newShape : option CanvasElement;
  isDrawing : bool;
  startPos : option Point
}.

Definition idle : CanvasState := mkCanvas None false None.

Definition setNewShape v c := mkCanvas v (isDrawing c) (startPos c).
Definition setIsDrawing v c := mkCanvas (newShape c) v (startPos c).
Definition setStartPos v c := mkCanvas (newShape c) (isDrawing c) v.

(** The component together with the page that owns its props and
    callbacks ([onElementAdd], [onElementRemove], [onElementUpdate]). *)
Record App := mkApp { page : PageState; canvas : CanvasState }.

(** What the pointer event landed on: the stage itself, the node with id
    [shape-<index>], or some other node (the preview, a transformer anchor). *)
Inductive Target := Stage | Shape (index : nat) | OtherNode.

(** [{ ...newShape, width, height }]: only the variants that have the two
    fields show the change. *)
Definition withSize (el : CanvasElement) (w h : number) : CanvasElement :=
  match el with
  | Rect x y _ _ c => Rect x y w h c
  | Image x y _ _ s => Image x y w h s
  | _ => el
  end.

(** [{ ...newShape, radius }] *)
Definition withRadius (el : CanvasElement) (r : number) : CanvasElement :=
  match el with
  | Circle x y _ c => Circle x y r c
  | _ => el
  end.

(** The [isValid] expression of [handleMouseUp]. *)
Definition isValid (shape : CanvasElement) : bool :=
  match shape with
  | Rect _ _ w _ _ => (Qabs w >? 5)%js
  | Circle _ _ r _ => (r >? 5)%js
  | Path ps _ _ => (2 <? length ps)%nat
  | _ => false
  end.

Section WithSqrt.

Variable Math_sqrt : number -> number.

(** [handleMouseDown].  [pos] is [getPointerPos()], [promptReply] the
    answer to the image tool's [prompt].  On a shape, and with the select
    tool, the handler only calls [onSelect?.(...)] and returns. *)
Definition handleMouseDown (target : Target) (pos : option Point)
           (promptReply : option jsstring) (app : App) : App :=
  let pg := page app in
  let c := canvas app in
  match target with
  | Shape index => app
  | _ =>
      match activeTool pg, pos with
      | tool_select, _ => app
      | _, None => app
      | tool_text, Some p =>
          let color :=
            if str_truthy (currentColor pg) then currentColor pg
            else js "#000000" in
          mkApp (handleAddElement
                   (Text (px p) (py p) (js "Input Text Here") 24 color) pg)
                (setIsDrawing false c)
      | tool_image, Some p =>
          match promptReply with
          | Some url =>
              if str_truthy url
              then mkApp (handleAddElement
                            (Image (px p) (py p) 150 150 url) pg) c
              else app
          | None => app
          end
      | tool, Some p =>
          let c1 := setStartPos (Some p) (setIsDrawing true c) in
          match tool with
          | tool_rect =>
              mkApp pg (setNewShape
                          (Some (Rect (px p) (py p) 0 0 (currentColor pg))) c1)
          | tool_circle =>
              mkApp pg (setNewShape
                          (Some (Circle (px p) (py p) 0 (currentColor pg))) c1)
          | tool_pencil =>
              mkApp pg (setNewShape
                          (Some (Path [p] (currentColor pg)
                                      (currentStrokeWidth pg))) c1)
          | _ => mkApp pg c1
          end
      end
  end.

(** [handleMouseMove] *)
Definition handleMouseMove (pos : option Point) (app : App) : App :=
  let pg := page app in
  let c := canvas app in
  match isDrawing c, startPos c, newShape c, pos with
  | true, Some sp, Some shape, Some p =>
      match activeTool pg with
      | tool_rect =>
          mkApp pg (setNewShape
                      (Some (withSize shape (px p - px sp) (py p - py sp))) c)
      | tool_circle =>
          let radius :=
            Math_sqrt (pow2 (px p - px sp) + pow2 (py p - py sp)) in
          mkApp pg (setNewShape (Some (withRadius shape radius)) c)
      | tool_pencil =>
          match shape with
          | Path ps col w =>
              mkApp pg (setNewShape (Some (Path (ps ++ [p]) col w)) c)
          | _ => app
          end
      | _ => app
      end
  | _, _, _, _ => app
  end.

(** [handleMouseUp] *)
Definition handleMouseUp (app : App) : App :=
  let pg := page app in
  let c := canvas app in
  let pg' :=
    match isDrawing c, newShape c with
    | true, Some shape =>
        if isValid shape then handleAddElement shape pg else pg
    | _, _ => pg
    end in
  mkApp pg' (setNewShape None (setIsDrawing false c)).

Fixpoint moves (ps : list Point) (app : App) : App :=
  match ps with
  | [] => app
  | p :: ps' => moves ps' (handleMouseMove (Some p) app)
  end.

(** A press on the empty stage at [p0], moves through [ps], release. *)
Definition gesture (p0 : Point) (ps : list Point) (app : App) : App :=
  handleMouseUp (moves ps (handleMouseDown Stage (Some p0) None app)).

End WithSqrt.

(** ** ShapeItem *)

(** The [onSelect] handed to the [ShapeItem] of index [i], bound to its
    [onClick] and [onTap]: the eraser removes the element, any other tool
    calls [onSelect?.(i)]. *)
Definition shapeClick (i : nat) (app : App) : App :=
  match activeTool (page app) with
  | tool_eraser => mkApp (handleRemoveElement i (page app)) (canvas app)
  | _ => app
  end.

(** What [onTransformEnd] reads from the Konva node of the shape. *)
Record Node := mkNode {
  node_x : number;
  node_y : number;
  node_width : number;
  node_height : number;
  node_radius : number;
  node_scaleX : number;
  node_scaleY : number
}.

(** [onTransformEnd]: the new attributes passed to [onChange], [None] for a
    path, for which no branch calls [onChange]. *)
Definition onTransformEnd (shape : CanvasElement) (node : Node)
  : option CanvasElement :=
  match shape with
  | Rect _ _ _ _ c =>
      Some (Rect (node_x node) (node_y node)
                 (Qmax 5 (node_width node * node_scaleX node))
                 (Qmax 5 (node_height node * node_scaleY node)) c)
  | Image _ _ _ _ src =>
      Some (Image (node_x node) (node_y node)
                  (Qmax 5 (node_width node * node_scaleX node))
                  (Qmax 5 (node_height node * node_scaleY node)) src)
  | Circle _ _ _ c =>
      Some (Circle (node_x node) (node_y node)
                   (Qmax 5 (node_radius node * node_scaleX node)) c)
  | Text _ _ t fontSize c =>
      Some (Text (node_x node) (node_y node) t
                 (Qmax 10 (fontSize * node_scaleY node)) c)
  | Path _ _ _ => None
  end.

(** The end of a transform of the shape mounted for index [i]:
    [onChange] is [onElementUpdate(i, newAttrs)].  Without an element at [i]
    there is no such shape and nothing happens. *)
Definition transformEnd (i : nat) (node : Node) (app : App) : option App :=
  match elements (page app) !! i with
  | Some shape =>
      match onTransformEnd shape node with
      | Some newAttrs =>
          match onElementUpdate i newAttrs (page app) with
          | Some pg' => Some (mkApp pg' (canvas app))
          | None => None
          end
      | None => Some app
      end
  | None => Some app
  end.

(** The box the transformer proposes while a handle is dragged. *)
Record Box := mkBox {
  box_x : number; box_y : number; box_width : number; box_height : number
}.

(** [boundBoxFunc] of the [Transformer]. *)
Definition boundBoxFunc (oldBox newBox : Box) : Box :=
  if (box_width newBox <? 5)%js || (box_height newBox <? 5)%js
  then oldBox else newBox.

End Konva.

(* ================================================================== *)
(** * backend/server.js *)
(* ================================================================== *)

Module Server.
Local Open Scope Q_scope.

(** What [loadImage] is given: the [src] string, or the [Buffer] decoded
    from the payload of a [data:] URI. *)
Inductive ImageSource :=
| FromString (src : jsstring)
| FromBuffer (base64Data : jsstring).

(** The calls made on the 2D context, in order. *)
Inductive CanvasOp :=
| SetFillStyle (color : jsstring)
| FillRect (x y w h : number)
| BeginPath
| Arc (x y radius : number)
| Fill
| SetFont (fontSize : number)
| FillText (text : jsstring) (x y : number)
| SetLineWidth (w : number)
| SetStrokeStyle (color : jsstring)
| SetLineCapRound
| MoveTo (x y : number)
| LineTo (x y : number)
| Stroke
| DrawImage (source : ImageSource) (x y w h : number).

(** The canvas being painted and the lines written by [console.error]. *)
Record Surface := mkSurface {
  ops : list CanvasOp;
  console : list jsstring
}.

Definition blank : Surface := mkSurface [] [].

Definition emit (new : list CanvasOp) (s : Surface) : Surface :=
  mkSurface (ops s ++ new) (console s).

Definition logError (line : jsstring) (s : Surface) : Surface :=
  mkSurface (ops s) (console s ++ [line]).

(** [el.src.split(',')[1]]: what lies between the first and the second
    comma, [None] when there is no comma. *)
Fixpoint upToComma (s : jsstring) : jsstring :=
  match s with
  | [] => []
  | c :: s' => if (c =? 44)%N then [] else c :: upToComma s'
  end.

Fixpoint afterFirstComma (s : jsstring) : option jsstring :=
  match s with
  | [] => None
  | c :: s' => if (c =? 44)%N then Some (upToComma s') else afterFirstComma s'
  end.

(** The [imageSource] handed to [loadImage]. *)
Definition imageSourceOf (src : jsstring) : ImageSource :=
  if startsWith (js "data:") src then
    match afterFirstComma src with
    | Some base64Data =>
        if str_truthy base64Data then FromBuffer base64Data else FromString src
    | None => FromString src
    end
  else FromString src.

(** A value found in a field of the JSON body of a request; [Undefined]
    is what reading a field that is absent gives.  An array is taken to hold
    elements of the wire format ([CanvasElement]), and [JObject] stands for
    any object that is not an array. *)
Inductive Value :=
| Undefined
| JNull
| JBool (b : bool)
| JNumber (n : number)
| JString (s : jsstring)
| JArray (items : Scene)
| JObject.

(** [const { width, height, elements } = req.body] *)
Record ExportRequest := mkRequest {
  width : Value;
  height : Value;
  elements : Value
}.

(** [!v] *)
Definition falsy (v : Value) : bool :=
  match v with
  | Undefined | JNull => true
  | JBool b => negb b
  | JNumber n => num_falsy n
  | JString s => negb (str_truthy s)
  | JArray _ | JObject => false
  end.

(** The document streamed back: one page of size [[width, height]]
    carrying the raster of the painted canvas. *)
Record Document := mkDocument {
  pageWidth : Value;
  pageHeight : Value;
  raster : list CanvasOp
}.

(** What the handler answers, with the lines written by [console.error]
    while it ran: [res.status(status).json({ error })], or the PDF stream. *)
Inductive Response :=
| Json (status : nat) (error : jsstring) (log : list jsstring)
| Pdf (doc : Document) (log : list jsstring).

(** What [for (const el of elements)] runs over: the items of an array;
    the characters of a string, none of which has a [type], so that the loop
    paints nothing; [None] for a value that is not iterable, on which the
    loop throws a [TypeError]. *)
Definition iterated (elements : Value) : option Scene :=
  match elements with
  | JArray items => Some items
  | JString _ => Some []
  | _ => None
  end.

Section WithLoader.

(** [loadImage] of node-canvas: [inl] when the image loads, [inr] with
    the message of the error it rejects with otherwise. *)
Variable loadImage : ImageSource -> unit + jsstring.

(** [createCanvas(width, height)] of node-canvas, with the
    [getContext('2d')] that follows: [inl] when they return a canvas and its
    context, [inr] with what the error thrown prints as otherwise. *)
Variable createCanvas : Value -> Value -> unit + jsstring.

(** The calls of PDFKit and node-canvas that follow the drawing, for a
    page of size [[width, height]] and the canvas as painted
    ([new PDFDocument], [pipe], [addPage], [toBuffer], [image], [end]):
    [inl] when they all return, [inr] with what the error prints as when one
    of them throws. *)
Variable assemblePdf : Value -> Value -> list CanvasOp -> unit + jsstring.

(** One turn of the [for (const el of elements)] loop. *)
Definition drawElement (el : CanvasElement) (s : Surface) : Surface :=
  match el with
  | Rect x y w h color =>
      emit [SetFillStyle color; FillRect x y w h] s
  | Circle x y r color =>
      emit [BeginPath; Arc x y r; SetFillStyle color; Fill] s
  | Text x y text fontSize color =>
      emit [SetFont fontSize; SetFillStyle color; FillText text x y] s
  | Path points color strokeWidth =>
      match points with
      | start :: ((_ :: _) as rest) =>
          emit ([BeginPath; SetLineWidth (num_or strokeWidth 2);
                 SetStrokeStyle color; SetLineCapRound;
                 MoveTo (px start) (py start)]
                ++ map (fun p => LineTo (px p) (py p)) rest
                ++ [Stroke]) s
      | _ => s
      end
  | Image x y w h src =>
      let imageSource := imageSourceOf src in
      match loadImage imageSource with
      | inl _ => emit [DrawImage imageSource x y w h] s
      | inr message =>
          logError (js "Failed to load image: " ++ message) s
      end
  end.

(** [drawElements] *)
Definition drawElements (elements : Scene) (s : Surface) : Surface :=
  fold_left (fun acc el => drawElement el acc) elements s.

(** The [catch] block of the handler: the error is logged, after the
    lines already written, and the answer is status 500. *)
Definition serverError (log : list jsstring) (err : jsstring) : Response :=
  Json 500 (js "Failed to generate PDF") (log ++ [js "PDF Export Error: " ++ err]).

(** The [try] block of the handler.  [createCanvas] may throw, the loop of
    [drawElements] throws on a value that is not iterable, and the calls that
    assemble the document may throw: each error ends in the [catch] block.
    The calls made on the context while drawing are taken to return. *)
Definition render (w h els : Value) : Response :=
  match createCanvas w h with
  | inr err => serverError [] err
  | inl _ =>
      match iterated els with
      | None => serverError [] (js "TypeError: elements is not iterable")
      | Some scene =>
          let s := drawElements scene blank in
          match assemblePdf w h (ops s) with
          | inl _ => Pdf (mkDocument w h (ops s)) (console s)
          | inr err => serverError (console s) err
          end
      end
  end.

(** [app.post('/export/pdf', ...)] *)
Definition exportPdf (req : ExportRequest) : Response :=
  if falsy (width req) || falsy (height req) || falsy (elements req)
  then Json 400 (js "Missing required fields: width, height, elements") []
  else render (width req) (height req) (elements req).

End WithLoader.
End Server.

(* ================================================================== *)
(** * The redraw effect of the raw canvas *)
(* ================================================================== *)

Module RawView.
Local Open Scope Q_scope.

Section WithImages.

(** [img.complete], read right after [img.src = el.src]. *)
Variable complete : jsstring -> bool.

(** The [drawElement] helper of the effect, as the calls it makes on the
    context at once (an image that is not complete is drawn later, from its
    [onload]). *)
Definition drawElement (el : CanvasElement) : list Server.CanvasOp :=
  match el with
  | Rect x y w h color =>
      [Server.SetFillStyle color; Server.FillRect x y w h]
  | Circle x y r color =>
      [Server.BeginPath; Server.Arc x y r; Server.SetFillStyle color;
       Server.Fill]
  | Text x y text fontSize color =>
      [Server.SetFont fontSize; Server.SetFillStyle color;
       Server.FillText text x y]
  | Image x y w h src =>
      if complete src
      then [Server.DrawImage (Server.FromString src) x y w h]
      else []
  | Path points color strokeWidth =>
      match points with
      | p0 :: ((_ :: _) as rest) =>
          [Server.BeginPath; Server.SetLineWidth strokeWidth;
           Server.SetStrokeStyle color; Server.SetLineCapRound;
           Server.MoveTo (px p0) (py p0)]
          ++ map (fun p => Server.LineTo (px p) (py p)) rest
          ++ [Server.Stroke]
      | _ => []
      end
  end.

(** [elements.forEach(drawElement)] *)
Definition drawScene (els : Scene) : list Server.CanvasOp :=
  concat (map drawElement els).

End WithImages.

(** The bounding box stroked around the selected element, as
    [(x, y, w, h)]; nothing is drawn for a path. *)
Definition selectionBox (el : CanvasElement)
  : option (number * number * number * number) :=
  match el with
  | Path _ _ _ => None
  | Circle x y r _ => Some (x, y, r * 2, r * 2)
  | Rect x y w h _ | Image x y w h _ => Some (x, y, num_or w 0, num_or h 0)
  | Text x y _ fontSize _ => Some (x, y, 0, num_or fontSize 0)
  end.

(** The squares filled at the corners of that box, as [(left, top, side)];
    none for a text. *)
Definition drawnHandles (el : CanvasElement)
  : list (number * number * number) :=
  match el with
  | Text _ _ _ _ _ => []
  | _ =>
      match selectionBox el with
      | Some (x, y, w, h) =>
          let right := x + w in
          let bottom := y + h in
          map (fun a : number * number =>
                 (fst a - Raw.HANDLE_SIZE / 2, snd a - Raw.HANDLE_SIZE / 2,
                  Raw.HANDLE_SIZE))
              [(x, y); (right, y); (x, bottom); (right, bottom)]
      | None => []
      end
  end.

End RawView.

(* ================================================================== *)
(** * Vocabulary of the statements, and sample data *)
(* ================================================================== *)

(** States in which the scene shown is the snapshot under the cursor. *)
Definition synced (st : Page.PageState) : Prop :=
  Page.history st !! Page.historyIndex st = Some (Page.elements st).

(** Two sample elements. *)
Definition sample_red : jsstring := js "red".
Definition sample_rect : CanvasElement := Rect 10 10 100 100 sample_red.
Definition sample_circle : CanvasElement := Circle 200 200 50 sample_red.

(** A history after two undos: three snapshots, cursor on the first. *)
Definition undone_twice : Page.PageState :=
  Page.mkPage [] [[]; [sample_rect]; [sample_rect; sample_circle]] 0
              800 600 tool_select (js "#000000") 2.

(** The canvas state while element [i] is being dragged from [p0]. *)
Definition dragging (c : Raw.CanvasState) (i : nat) (p0 : Point)
           (el : CanvasElement) : Prop :=
  Raw.isDragging c = true
  /\ Raw.selectedIndex c = Some i
  /\ Raw.startPos c = Some p0
  /\ Raw.initialElementState c = Some el.

(** A stand-in for [Math.sqrt] in closed examples: the square root cut to
    three decimals. *)
Definition sqrt_milli (q : number) : number :=
  (Z.sqrt (Qfloor (q * 1000000)) # 1000)%Q.

(** A stand-in for [ctx.isPointInStroke] in closed examples: the points
    within half the line width of a segment of non-zero length, that is a
    stroke with round caps and round joins. *)
Definition round_stroke (lineWidth : number) (vertices : list Point)
           (p : Point) : bool :=
  existsb (Stroke.inSegmentStroke lineWidth p) (Stroke.segments vertices).

(** A page on which [sample_rect] has been added, with an idle canvas. *)
Definition one_rect_app : Raw.App :=
  Raw.mkApp (Page.handleAddElement sample_rect Page.initial) Raw.idle.

(** The preview shape built by a press at [p0] and moves through [ps]. *)
Definition drawnShape (Math_sqrt : number -> number) (pg : Page.PageState)
           (p0 : Point) (ps : list Point) : option CanvasElement :=
  match Page.activeTool pg with
  | tool_rect =>
      Some (match last ps with
            | Some p => Rect (px p0) (py p0) (px p - px p0) (py p - py p0)
                             (Page.currentColor pg)
            | None => Rect (px p0) (py p0) 0 0 (Page.currentColor pg)
            end)
  | tool_circle =>
      Some (match last ps with
            | Some p =>
                Circle (px p0) (py p0)
                       (Math_sqrt (pow2 (px p - px p0) + pow2 (py p - py p0))%Q)
                       (Page.currentColor pg)
            | None => Circle (px p0) (py p0) 0 (Page.currentColor pg)
            end)
  | tool_pencil =>
      Some (Path (p0 :: ps) (Page.currentColor pg) (Page.currentStrokeWidth pg))
  | _ => None
  end.

(** A fresh page with the given tool selected, under each canvas. *)
Definition konva_app (tool : Tool) : Konva.App :=
  Konva.mkApp (Page.setActiveTool tool Page.initial) Konva.idle.

Definition raw_app (tool : Tool) : Raw.App :=
  Raw.mkApp (Page.setActiveTool tool Page.initial) Raw.idle.

(** A circle of centre (100,100) and radius 50. *)
Definition big_circle : CanvasElement := Circle 100 100 50 sample_red.

(** [p] projects onto the segment [a b], a segment of non-zero length:
    the foot of the perpendicular from [p] lies between [a] and [b]. *)
Definition besideSegment (p a b : Point) : Prop :=
  let c := ((px p - px a) * (px b - px a) + (py p - py a) * (py b - py a))%Q in
  let len2 := ((px b - px a) * (px b - px a)
               + (py b - py a) * (py b - py a))%Q in
  (0 <= c)%Q /\ (c <= len2)%Q /\ (0 < len2)%Q.

(** [p] lies in the body of the segment [a b] stroked with half width [m]:
    it projects onto the segment and is within [m] of it. *)
Definition withinBody (m : number) (p a b : Point) : Prop :=
  besideSegment p a b /\ (Stroke.distSqToSegment p a b <= m * m)%Q.

(** What the stroke of a polyline contains whatever the caps and joins:
    the body of each of its segments, half the line width to either side. *)
Definition fillsSegmentBodies
           (inStroke : number -> list Point -> Point -> bool) : Prop :=
  forall (lineWidth : number) (vertices : list Point) (p a b : Point),
    (0 < lineWidth)%Q ->
    In (a, b) (Stroke.segments vertices) ->
    withinBody (lineWidth / 2) p a b ->
    inStroke lineWidth vertices p = true.

(** What the stroke of one straight segment, drawn as the hit loops draw it
    ([moveTo a; lineTo a; lineTo b]), leaves out whatever the caps: the
    points that project onto the segment farther than half the line width
    from it. *)
Definition straightStrokeIsThin
           (inStroke : number -> list Point -> Point -> bool) : Prop :=
  forall (lineWidth : number) (p a b : Point),
    (0 < lineWidth)%Q ->
    besideSegment p a b ->
    inStroke lineWidth [a; a; b] p = true ->
    (Stroke.distSqToSegment p a b <= lineWidth / 2 * (lineWidth / 2))%Q.

(** A horizontal stroke of width 2 from (0,0) to (10,0), and the polyline
    of the eraser scenario. *)
Definition flat_stroke : CanvasElement :=
  Path [mkPoint 0 0; mkPoint 10 0] sample_red 2.

Definition corner_stroke : CanvasElement :=
  Path [mkPoint 0 0; mkPoint 10 0; mkPoint 10 10] sample_red 2.

(** What one element adds to the canvas, and what it writes to the log. *)
Definition painted (loadImage : Server.ImageSource -> unit + jsstring)
           (el : CanvasElement) : list Server.CanvasOp :=
  Server.ops (Server.drawElement loadImage el Server.blank).

Definition reported (loadImage : Server.ImageSource -> unit + jsstring)
           (el : CanvasElement) : list jsstring :=
  Server.console (Server.drawElement loadImage el Server.blank).

(** A loader for closed examples: remote sources fail to resolve, decoded
    [data:] payloads load. *)
Definition offline_loader (source : Server.ImageSource) : unit + jsstring :=
  match source with
  | Server.FromString _ => inr (js "getaddrinfo ENOTFOUND")
  | Server.FromBuffer _ => inl tt
  end.

(** A stand-in for [createCanvas] in closed examples: a canvas for sizes
    that are positive numbers, an error for anything else. *)
Definition sized_canvas (w h : Server.Value) : unit + jsstring :=
  match w, h with
  | Server.JNumber a, Server.JNumber b =>
      if ((0 <? a) && (0 <? b))%js then inl tt
      else inr (js "Error: invalid canvas size")
  | _, _ => inr (js "Error: invalid canvas size")
  end.

(** A stand-in for the assembly of the document in closed examples: it
    always returns. *)
Definition plain_pdf (w h : Server.Value) (raster : list Server.CanvasOp)
  : unit + jsstring := inl tt.

(** The context calls the export is to make for one element, by kind: fill
    a rectangle, fill a full-circle arc, fill a text at its baseline, stroke
    a polyline of at least two points with round caps (line width 2 when the
    stroke width is zero), draw an image into its box when its source loads.
    The painting of [drawElements] is checked against this table. *)
Definition contextCalls (loadImage : Server.ImageSource -> unit + jsstring)
           (el : CanvasElement) : list Server.CanvasOp :=
  match el with
  | Rect x y w h color =>
      [Server.SetFillStyle color; Server.FillRect x y w h]
  | Circle x y r color =>
      [Server.BeginPath; Server.Arc x y r; Server.SetFillStyle color;
       Server.Fill]
  | Text x y text fontSize color =>
      [Server.SetFont fontSize; Server.SetFillStyle color;
       Server.FillText text x y]
  | Path (start :: next :: rest) color strokeWidth =>
      [Server.BeginPath;
       Server.SetLineWidth (if Qeq_bool strokeWidth 0 then 2%Q else strokeWidth);
       Server.SetStrokeStyle color; Server.SetLineCapRound;
       Server.MoveTo (px start) (py start); Server.LineTo (px next) (py next)]
      ++ map (fun p => Server.LineTo (px p) (py p)) rest
      ++ [Server.Stroke]
  | Path _ _ _ => []
  | Image x y w h src =>
      match loadImage (Server.imageSourceOf src) with
      | inl _ => [Server.DrawImage (Server.imageSourceOf src) x y w h]
      | inr _ => []
      end
  end.

(** A request with numeric page sizes and an array of elements. *)
Definition sceneRequest (w h : number) (els : Scene) : Server.ExportRequest :=
  Server.mkRequest (Server.JNumber w) (Server.JNumber h) (Server.JArray els).

(** The [error] string of the 400 answer. *)
Definition missing_fields_error : jsstring :=
  js "Missing required fields: width, height, elements".

(** An image element with a remote source. *)
Definition remote_image : CanvasElement :=
  Image 0 0 150 150 (js "https://via.placeholder.com/150").

(** A buffer that is empty or made of white space only. *)
Definition blank_text (s : jsstring) : bool := forallb isWhiteSpace s.

(** The content of the input at the end of a session: the last value typed,
    the empty string when nothing was. *)
Definition finalBuffer (typed : list jsstring) : jsstring :=
  default [] (last typed).

(** The shape the raw canvas commits after a press at [p0] and moves
    through [ps]; [currentPos] is the last position seen, [p0] without a
    move. *)
Definition rawDrawnShape (Math_sqrt : number -> number) (pg : Page.PageState)
           (p0 : Point) (ps : list Point) : option CanvasElement :=
  let cp := default p0 (last ps) in
  match Page.activeTool pg with
  | tool_pencil =>
      Some (Path (p0 :: ps) (Page.currentColor pg) (Page.currentStrokeWidth pg))
  | tool_rect =>
      Some (Rect (px p0) (py p0) (px cp - px p0) (py cp - py p0)
                 (Page.currentColor pg))
  | tool_circle =>
      Some (Circle (px p0) (py p0)
                   (Math_sqrt (pow2 (px cp - px p0) + pow2 (py cp - py p0))%Q)
                   (Page.currentColor pg))
  | _ => None
  end.

(** No drag and no resize is under way. *)
Definition pointerFree (c : Raw.CanvasState) : Prop :=
  Raw.isDragging c = false /\ Raw.isResizing c = None.

(** The canvas state while the selected element [el] at index [i] is being
    resized by [handle] from [p0]. *)
Definition resizing (c : Raw.CanvasState) (handle : Raw.Handle) (i : nat)
           (p0 : Point) (el : CanvasElement) : Prop :=
  Raw.isDragging c = false
  /\ Raw.isResizing c = Some handle
  /\ Raw.selectedIndex c = Some i
  /\ Raw.startPos c = Some p0
  /\ Raw.initialElementState c = Some el.

(** The selected index, if there is one, is the index of an element. *)
Definition selectionInside (app : Raw.App) : Prop :=
  match Raw.selectedIndex (Raw.canvas app) with
  | Some i => i < length (Page.elements (Raw.page app))
  | None => True
  end.

(** Elements both renderers treat alike: no image, and no path of stroke
    width zero. *)
Definition plainElement (el : CanvasElement) : bool :=
  match el with
  | Image _ _ _ _ _ => false
  | Path _ _ strokeWidth => negb (Qeq_bool strokeWidth 0)
  | _ => true
  end.

Definition hasImage (el : CanvasElement) : bool :=
  match el with Image _ _ _ _ _ => true | _ => false end.

(** An image element whose source [loadImage] rejects. *)
Definition failsToLoad (loadImage : Server.ImageSource -> unit + jsstring)
           (el : CanvasElement) : bool :=
  match el with
  | Image _ _ _ _ src =>
      match loadImage (Server.imageSourceOf src) with
      | inl _ => false
      | inr _ => true
      end
  | _ => false
  end.

(** The minimum sizes the Konva transformer leaves a shape with. *)
Definition atLeastMinimum (el : CanvasElement) : Prop :=
  match el with
  | Rect _ _ w h _ | Image _ _ w h _ => (5 <= w /\ 5 <= h)%Q
  | Circle _ _ r _ => (5 <= r)%Q
  | Text _ _ _ fontSize _ => (10 <= fontSize)%Q
  | Path _ _ _ => True
  end.

Definition boxAtLeastMinimum (b : Konva.Box) : Prop :=
  (5 <= Konva.box_width b /\ 5 <= Konva.box_height b)%Q.

(** A page with three elements. *)
Definition three_elements : Page.PageState :=
  Page.handleAddElement flat_stroke
    (Page.handleAddElement sample_circle
       (Page.handleAddElement sample_rect Page.initial)).

(* ================================================================== *)
(** * Comparisons on numbers *)
(* ================================================================== *)

Lemma num_le_iff (a b : number) : num_le a b = true <-> (a <= b)%Q.
Proof. apply Qle_bool_iff. Qed.

Lemma num_lt_iff (a b : number) : num_lt a b = true <-> (a < b)%Q.
Proof.
  unfold num_lt. rewrite negb_true_iff, <- not_true_iff_false, Qle_bool_iff.
  split; [apply Qnot_le_lt | apply Qlt_not_le].
Qed.

Lemma num_le_false_iff (a b : number) : num_le a b = false <-> (b < a)%Q.
Proof.
  unfold num_le. rewrite <- not_true_iff_false, Qle_bool_iff.
  split; [apply Qnot_le_lt | apply Qlt_not_le].
Qed.

Lemma num_lt_false_iff (a b : number) : num_lt a b = false <-> (b <= a)%Q.
Proof.
  unfold num_lt. rewrite negb_false_iff. apply Qle_bool_iff.
Qed.

(* ================================================================== *)
(** * History: commit, undo, redo *)
(* ================================================================== *)

Section HistoryFacts.
Import Page.

Lemma addToHistory_history (S : Scene) (st : PageState) :
  history (addToHistory S st) = take (historyIndex st + 1) (history st) ++ [S].
Proof. reflexivity. Qed.

Lemma addToHistory_index (S : Scene) (st : PageState) :
  historyIndex (addToHistory S st)
  = length (take (historyIndex st + 1) (history st)).
Proof.
  unfold addToHistory; cbn. rewrite length_app; cbn. lia.
Qed.

Lemma addToHistory_elements (S : Scene) (st : PageState) :
  elements (addToHistory S st) = S.
Proof. reflexivity. Qed.

(** The cursor and the scene agree after a commit. *)
Lemma addToHistory_current (S : Scene) (st : PageState) :
  history (addToHistory S st) !! historyIndex (addToHistory S st) = Some S.
Proof.
  rewrite addToHistory_index, addToHistory_history.
  rewrite lookup_app_r by lia.
  now rewrite Nat.sub_diag.
Qed.

Lemma addToHistory_wf (S : Scene) (st : PageState) : wf (addToHistory S st).
Proof.
  unfold wf. rewrite addToHistory_index, addToHistory_history.
  rewrite length_app; cbn. lia.
Qed.

(** Inside the array, [onElementUpdate] replaces one slot. *)
Lemma onElementUpdate_inside (index : nat) (newEl : CanvasElement)
      (st : PageState) :
  index < length (elements st) ->
  onElementUpdate index newEl st
  = Some (setElements (<[index := newEl]> (elements st)) st).
Proof.
  intros Hlt. unfold onElementUpdate, assignSlot.
  destruct (Nat.ltb_spec index (length (elements st))); [reflexivity | lia].
Qed.

(** Whatever the index, [onElementUpdate] leaves the history alone. *)
Lemma onElementUpdate_history (index : nat) (newEl : CanvasElement)
      (st st' : PageState) :
  onElementUpdate index newEl st = Some st' ->
  history st' = history st /\ historyIndex st' = historyIndex st
  /\ activeTool st' = activeTool st.
Proof.
  unfold onElementUpdate.
  destruct (assignSlot index newEl (elements st)); [| discriminate].
  intros [= <-]. auto.
Qed.

Lemma synced_wf (st : PageState) : synced st -> wf st.
Proof. unfold synced, wf. intros H. now apply lookup_lt_Some in H. Qed.

Lemma handleUndo_wf (st : PageState) :
  wf st ->
  exists st', handleUndo st = Some st'
              /\ history st' = history st
              /\ historyIndex st' <= historyIndex st
              /\ (st' = st \/ synced st').
Proof.
  unfold wf, handleUndo. intros Hwf.
  destruct (Nat.ltb_spec 0 (historyIndex st)) as [Hpos | Hzero].
  - destruct (lookup_lt_is_Some_2 (history st) (historyIndex st - 1))
      as [snap Hsnap]; [lia |].
    rewrite Hsnap. eexists; split; [reflexivity |]. cbn.
    repeat split; [lia |]. right. exact Hsnap.
  - exists st. repeat split; auto.
Qed.

Lemma handleRedo_wf (st : PageState) :
  wf st ->
  exists st', handleRedo st = Some st'
              /\ history st' = history st
              /\ wf st'
              /\ (st' = st \/ synced st').
Proof.
  unfold wf, handleRedo. intros Hwf.
  destruct (Nat.ltb_spec (historyIndex st) (length (history st) - 1))
    as [Hlt | Hge].
  - destruct (lookup_lt_is_Some_2 (history st) (historyIndex st + 1))
      as [snap Hsnap]; [lia |].
    rewrite Hsnap. eexists; split; [reflexivity |]. cbn.
    repeat split; [lia |]. right. exact Hsnap.
  - exists st. repeat split; auto.
Qed.

(** Undo and redo never touch the list of snapshots, keep the cursor
    inside it, and always show the snapshot under the cursor. *)
Lemma applyOps_synced (ops : list HistoryOp) (st : PageState) :
  synced st ->
  exists st', applyOps ops st = Some st'
              /\ history st' = history st
              /\ synced st'.
Proof.
  revert st. induction ops as [| op ops IH]; intros st Hs.
  - exists st. now repeat split.
  - assert (Hstep : exists st1, applyOp op st = Some st1
                                /\ history st1 = history st /\ synced st1).
    { destruct op; cbn.
      - destruct (handleUndo_wf st (synced_wf _ Hs))
          as (st1 & E & Hh & _ & [-> | Hsy]); eauto.
      - destruct (handleRedo_wf st (synced_wf _ Hs))
          as (st1 & E & Hh & _ & [-> | Hsy]); eauto. }
    destruct Hstep as (st1 & E & Hh & Hsy).
    destruct (IH st1 Hsy) as (st' & E' & Hh' & Hsy').
    exists st'. cbn. rewrite E. repeat split; auto. congruence.
Qed.

End HistoryFacts.

(** C2.  In a history whose cursor is not at the last index,
    [addToHistory newScene] keeps the snapshots up to the cursor, drops the
    ones after it, appends [newScene] and moves the cursor to the new last
    index.  Afterwards [canRedo] is false, and whatever sequence of undo and
    redo follows, the list of snapshots stays this truncated list and the
    scene shown is the snapshot at a cursor inside it: the dropped snapshots
    are never shown again. *)
Theorem commit_truncates_forward_history
        (st : Page.PageState) (newScene : Scene) :
  Page.historyIndex st < length (Page.history st) - 1 ->
  let st' := Page.addToHistory newScene st in
  let kept := take (Page.historyIndex st + 1) (Page.history st) in
  Page.history st' = kept ++ [newScene]
  /\ length kept = Page.historyIndex st + 1
  /\ Page.historyIndex st' = length (Page.history st') - 1
  /\ Page.elements st' = newScene
  /\ Page.canRedo st' = false
  /\ forall ops : list Page.HistoryOp,
      exists st'',
        Page.applyOps ops st' = Some st''
        /\ Page.history st'' = kept ++ [newScene]
        /\ Page.historyIndex st'' < length (kept ++ [newScene])
        /\ (kept ++ [newScene]) !! Page.historyIndex st''
           = Some (Page.elements st'').
Proof.
  intros Hcur st' kept.
  assert (Hlen : length kept = Page.historyIndex st + 1).
  { unfold kept. rewrite length_take. lia. }
  assert (Hidx : Page.historyIndex st' = length (Page.history st') - 1).
  { unfold st'. rewrite addToHistory_index, addToHistory_history.
    rewrite length_app; cbn. lia. }
  repeat split; auto.
  - unfold Page.canRedo. rewrite Hidx. apply Nat.ltb_irrefl.
  - intros ops.
    destruct (applyOps_synced ops st') as (st'' & E & Hh & Hsy).
    { apply addToHistory_current. }
    exists st''. unfold synced in Hsy. rewrite Hh in Hsy.
    change (Page.history st') with (kept ++ [newScene]) in *.
    repeat split; auto.
    now apply lookup_lt_Some in Hsy.
Qed.

(** C3.  Whatever the history, [addToHistory S] followed by undo and then
    redo ends in the state the commit produced, so the scene shown is [S];
    undo at cursor 0 and redo at the last index change nothing. *)
Theorem commit_undo_redo_roundtrip :
  (forall (st : Page.PageState) (S : Scene),
      exists st',
        Page.applyOps [Page.Undo; Page.Redo] (Page.addToHistory S st) = Some st'
        /\ Page.elements st' = S
        /\ st' = Page.addToHistory S st)
  /\ (forall st : Page.PageState,
         Page.historyIndex st = 0 -> Page.handleUndo st = Some st)
  /\ (forall st : Page.PageState,
         Page.historyIndex st = length (Page.history st) - 1 ->
         Page.handleRedo st = Some st).
Proof.
  split; [| split].
  - intros st S.
    exists (Page.addToHistory S st). split; [| split; reflexivity].
    pose proof (addToHistory_current S st) as Hcur.
    pose proof (addToHistory_wf S st) as Hwf. unfold Page.wf in Hwf.
    pose proof (addToHistory_elements S st) as Hel.
    assert (Hlast : Page.historyIndex (Page.addToHistory S st)
                    = length (Page.history (Page.addToHistory S st)) - 1).
    { rewrite addToHistory_index, addToHistory_history.
      rewrite length_app; cbn. lia. }
    generalize dependent (Page.addToHistory S st). intros st1 Hcur Hwf Hel Hlast.
    cbn [Page.applyOps Page.applyOp]. unfold Page.handleUndo.
    destruct (Nat.ltb_spec 0 (Page.historyIndex st1)) as [Hpos | Hzero].
    + destruct (lookup_lt_is_Some_2 (Page.history st1)
                                    (Page.historyIndex st1 - 1))
        as [snap Hsnap]; [lia |].
      rewrite Hsnap. unfold Page.handleRedo.
      cbn [Page.history Page.historyIndex Page.setElements Page.setHistoryIndex].
      destruct (Nat.ltb_spec (Page.historyIndex st1 - 1)
                             (length (Page.history st1) - 1)) as [_ | Hbad];
        [| lia].
      replace (Page.historyIndex st1 - 1 + 1) with (Page.historyIndex st1)
        by lia.
      rewrite Hcur. destruct st1; cbn in *. subst. reflexivity.
    + unfold Page.handleRedo.
      destruct (Nat.ltb_spec (Page.historyIndex st1)
                             (length (Page.history st1) - 1)) as [Hbad | _];
        [lia | reflexivity].
  - intros st H0. unfold Page.handleUndo. now rewrite H0.
  - intros st Hl. unfold Page.handleRedo. rewrite <- Hl.
    now rewrite Nat.ltb_irrefl.
Qed.

Lemma commit_truncates_forward_history_witness :
  Page.history (Page.addToHistory [sample_circle] undone_twice)
  = [[]; [sample_circle]]
  /\ Page.canRedo (Page.addToHistory [sample_circle] undone_twice) = false.
Proof.
  assert (H : Page.historyIndex undone_twice
              < length (Page.history undone_twice) - 1) by (cbn; lia).
  destruct (commit_truncates_forward_history undone_twice [sample_circle] H)
    as (Hh & _ & _ & _ & Hr & _).
  split; [exact Hh | exact Hr].
Defined.

Lemma commit_undo_redo_roundtrip_witness :
  Page.handleUndo undone_twice = Some undone_twice
  /\ Page.handleRedo (Page.addToHistory [sample_circle] undone_twice)
     = Some (Page.addToHistory [sample_circle] undone_twice).
Proof.
  destruct commit_undo_redo_roundtrip as (_ & Hundo & Hredo).
  split; [apply Hundo | apply Hredo]; reflexivity.
Defined.

(* ================================================================== *)
(** * Dragging with the select tool *)
(* ================================================================== *)

Section DragFacts.
Import Page.
Variable Math_sqrt : number -> number.
Variable isPointInStroke : number -> list Point -> Point -> bool.

Lemma topmostHit_Some hit (els : Scene) n i el :
  Raw.topmostHit hit els n = Some (i, el) ->
  els !! i = Some el /\ hit el = true /\ i < n.
Proof.
  induction n as [| n IH]; cbn; [discriminate |].
  destruct (els !! n) as [e |] eqn:E.
  - destruct (hit e) eqn:Hhit.
    + intros [= <- <-]. auto.
    + intros H. destruct (IH H) as (? & ? & ?). auto.
  - intros H. destruct (IH H) as (? & ? & ?). auto.
Qed.

Lemma handleMouseDown_starts_drag (app : Raw.App) (p0 : Point) i el :
  activeTool (Raw.page app) = tool_select ->
  Raw.grabbedHandle p0 app = None ->
  Raw.topmostHit (Raw.selectHit Math_sqrt isPointInStroke p0) (elements (Raw.page app))
                 (length (elements (Raw.page app))) = Some (i, el) ->
  Raw.page (Raw.handleMouseDown Math_sqrt isPointInStroke p0 None app) = Raw.page app
  /\ dragging (Raw.canvas (Raw.handleMouseDown Math_sqrt isPointInStroke p0 None app)) i p0 el.
Proof.
  intros Htool Hgrab Hhit. unfold Raw.handleMouseDown.
  rewrite Htool, Hgrab, Hhit. cbn. unfold dragging; cbn. auto.
Qed.

Lemma handleMouseMove_drag (app : Raw.App) (p : Point) i p0 el :
  activeTool (Raw.page app) = tool_select ->
  dragging (Raw.canvas app) i p0 el ->
  i < length (elements (Raw.page app)) ->
  Raw.handleMouseMove p app
  = Some (Raw.mkApp
            (setElements
               (<[i := Raw.dragged el (px p - px p0) (py p - py p0)]>
                  (elements (Raw.page app)))
               (Raw.page app))
            (Raw.canvas app)).
Proof.
  intros Htool (Hd & Hs & Hp & Hi) Hlt. unfold Raw.handleMouseMove.
  rewrite Hd, Hs, Hp, Hi, Htool. unfold Raw.update.
  now rewrite onElementUpdate_inside.
Qed.

(** During a drag every move rewrites slot [i] from the element as it was
    at the press; nothing else in the page changes. *)
Lemma moves_drag (ps : list Point) :
  forall (app : Raw.App) (els : Scene) i p0 el e,
    activeTool (Raw.page app) = tool_select ->
    dragging (Raw.canvas app) i p0 el ->
    i < length els ->
    elements (Raw.page app) = <[i := e]> els ->
    exists app',
      Raw.moves ps app = Some app'
      /\ Raw.canvas app' = Raw.canvas app
      /\ history (Raw.page app') = history (Raw.page app)
      /\ historyIndex (Raw.page app') = historyIndex (Raw.page app)
      /\ activeTool (Raw.page app') = tool_select
      /\ elements (Raw.page app')
         = <[i := match last ps with
                  | Some p => Raw.dragged el (px p - px p0) (py p - py p0)
                  | None => e
                  end]> els.
Proof.
  induction ps as [| p ps IH]; intros app els i p0 el e Htool Hdrag Hlt Hels.
  - exists app. cbn. auto 10.
  - cbn [Raw.moves].
    rewrite (handleMouseMove_drag app p i p0 el Htool Hdrag)
      by (rewrite Hels, length_insert; exact Hlt).
    rewrite Hels, list_insert_insert_eq.
    edestruct (IH (Raw.mkApp
                     (setElements
                        (<[i := Raw.dragged el (px p - px p0) (py p - py p0)]> els)
                        (Raw.page app))
                     (Raw.canvas app)) els i p0 el)
      as (app' & E & Hc & Hh & Hx & Ht & He); cbn; eauto.
    exists app'. repeat split; auto.
    rewrite He. destruct ps as [| q qs]; [reflexivity |].
    rewrite last_cons_cons.
    destruct (last (q :: qs)) eqn:El; [reflexivity |].
    apply last_None in El. discriminate.
Qed.

Lemma handleMouseUp_drag (app : Raw.App) i p0 el :
  dragging (Raw.canvas app) i p0 el ->
  Raw.page (Raw.handleMouseUp Math_sqrt app) = Raw.page app
  /\ Raw.isDragging (Raw.canvas (Raw.handleMouseUp Math_sqrt app)) = false
  /\ Raw.isResizing (Raw.canvas (Raw.handleMouseUp Math_sqrt app)) = None.
Proof.
  intros (Hd & _). unfold Raw.handleMouseUp. rewrite Hd. cbn. auto.
Qed.

End DragFacts.

(** C1 (amended).  With the select tool, a press that grabs no resize handle
    and whose topmost hit is the non-path element [el] at index [i], moves
    ending at [pn], and the release: the scene shown holds, at index [i],
    [el] with [x] and [y] shifted by the net pointer delta, every other
    field and every other element as before.  No snapshot is added, neither
    by a move nor by the release: history and cursor are those before the
    press. *)
Theorem drag_gesture_shifts_element
        (Math_sqrt : number -> number)
        (isPointInStroke : number -> list Point -> Point -> bool)
        (app : Raw.App)
        (p0 pn : Point) (ps : list Point) (i : nat) (el : CanvasElement) :
  Page.activeTool (Raw.page app) = tool_select ->
  Raw.grabbedHandle p0 app = None ->
  Raw.topmostHit (Raw.selectHit Math_sqrt isPointInStroke p0) (Page.elements (Raw.page app))
                 (length (Page.elements (Raw.page app))) = Some (i, el) ->
  isPath el = false ->
  exists (x y : number) (app' : Raw.App),
    elemX el = Some x /\ elemY el = Some y
    /\ Raw.gesture Math_sqrt isPointInStroke p0 (ps ++ [pn]) app = Some app'
    /\ Page.elements (Raw.page app')
       = <[i := withXY el (x + (px pn - px p0)) (y + (py pn - py p0))]>
           (Page.elements (Raw.page app))
    /\ Page.history (Raw.page app') = Page.history (Raw.page app)
    /\ Page.historyIndex (Raw.page app') = Page.historyIndex (Raw.page app)
    /\ Raw.isDragging (Raw.canvas app') = false
    /\ forall qs : list Point,
        exists mid,
          Raw.moves qs (Raw.handleMouseDown Math_sqrt isPointInStroke p0 None app) = Some mid
          /\ Page.history (Raw.page mid) = Page.history (Raw.page app)
          /\ Page.historyIndex (Raw.page mid) = Page.historyIndex (Raw.page app).
Proof.
  intros Htool Hgrab Hhit Hnp.
  destruct (topmostHit_Some _ _ _ _ _ Hhit) as (Hlook & _ & Hlt).
  destruct (handleMouseDown_starts_drag Math_sqrt isPointInStroke app p0 i el Htool Hgrab Hhit)
    as (Hpg & Hdrag).
  assert (Hxy : exists x y, elemX el = Some x /\ elemY el = Some y).
  { destruct el; cbn in Hnp; try discriminate; cbn; eauto. }
  destruct Hxy as (x & y & Hx & Hy).
  assert (Hmoves : forall qs,
             exists mid,
               Raw.moves qs (Raw.handleMouseDown Math_sqrt isPointInStroke p0 None app) = Some mid
               /\ Raw.canvas mid
                  = Raw.canvas (Raw.handleMouseDown Math_sqrt isPointInStroke p0 None app)
               /\ Page.history (Raw.page mid) = Page.history (Raw.page app)
               /\ Page.historyIndex (Raw.page mid)
                  = Page.historyIndex (Raw.page app)
               /\ Page.elements (Raw.page mid)
                  = <[i := match last qs with
                           | Some p => Raw.dragged el (px p - px p0) (py p - py p0)
                           | None => el
                           end]> (Page.elements (Raw.page app))).
  { intros qs.
    destruct (moves_drag qs (Raw.handleMouseDown Math_sqrt isPointInStroke p0 None app)
                         (Page.elements (Raw.page app)) i p0 el el)
      as (mid & E & Hc & Hh & Hi & _ & He); auto.
    - now rewrite Hpg.
    - rewrite Hpg. symmetry. now apply list_insert_id.
    - exists mid. rewrite Hpg in Hh, Hi. auto 10. }
  exists x, y.
  destruct (Hmoves (ps ++ [pn])) as (mid & E & Hc & Hh & Hi & He).
  exists (Raw.handleMouseUp Math_sqrt mid).
  assert (Hdrag' : dragging (Raw.canvas mid) i p0 el) by now rewrite Hc.
  destruct (handleMouseUp_drag Math_sqrt mid i p0 el Hdrag') as (Hup & Hnd & _).
  repeat split; auto.
  - unfold Raw.gesture. now rewrite E.
  - rewrite Hup, He, last_snoc. unfold Raw.dragged. now rewrite Hx, Hy.
  - now rewrite Hup.
  - now rewrite Hup.
  - intros qs. destruct (Hmoves qs) as (m & ? & _ & ? & ? & _). eauto.
Qed.

Lemma drag_gesture_shifts_element_witness :
  exists app',
    Raw.gesture sqrt_milli round_stroke (mkPoint 50 50) [mkPoint 60 48; mkPoint 70 45]
                one_rect_app = Some app'
    /\ Page.elements (Raw.page app')
       = <[0 := Rect (10 + (70 - 50)) (10 + (45 - 50)) 100 100 sample_red]>
           [sample_rect]
    /\ Page.history (Raw.page app') = [[]; [sample_rect]].
Proof.
  destruct (drag_gesture_shifts_element
              sqrt_milli round_stroke one_rect_app (mkPoint 50 50) (mkPoint 70 45)
              [mkPoint 60 48] 0 sample_rect)
    as (x & y & app' & Hx & Hy & Hg & He & Hh & _);
    try reflexivity.
  injection Hx as <-. injection Hy as <-.
  exists app'. split; [exact Hg | split; [exact He | exact Hh]].
Defined.

(** C1 as stated fails: after dragging the rectangle by (20, -5) the scene
    shown holds the moved rectangle, but the history is the one before the
    press and does not contain that scene. *)
Lemma drag_gesture_adds_no_snapshot :
  exists app',
    Raw.gesture sqrt_milli round_stroke (mkPoint 50 50) [mkPoint 60 48; mkPoint 70 45]
                one_rect_app = Some app'
    /\ Page.elements (Raw.page app') = [Rect 30 5 100 100 sample_red]
    /\ Page.history (Raw.page app') = Page.history (Raw.page one_rect_app)
    /\ Page.historyIndex (Raw.page app')
       = Page.historyIndex (Raw.page one_rect_app)
    /\ ~ In (Page.elements (Raw.page app')) (Page.history (Raw.page app')).
Proof.
  eexists. split; [vm_compute; reflexivity |]. cbn.
  repeat split; try reflexivity.
  intros [H | [H | []]]; discriminate H.
Qed.

(* ================================================================== *)
(** * Drawing shapes on the Konva canvas *)
(* ================================================================== *)

Section KonvaFacts.
Variable Math_sqrt : number -> number.

Lemma konva_moves_snoc (ps : list Point) (p : Point) (app : Konva.App) :
  Konva.moves Math_sqrt (ps ++ [p]) app
  = Konva.handleMouseMove Math_sqrt (Some p) (Konva.moves Math_sqrt ps app).
Proof.
  revert app. induction ps as [| q ps IH]; intros app; cbn; [reflexivity |].
  apply IH.
Qed.

(** Press and moves leave the page alone and build [drawnShape]. *)
Lemma konva_press_and_moves (app : Konva.App) (p0 : Point) (ps : list Point)
      (shape : CanvasElement) :
  drawnShape Math_sqrt (Konva.page app) p0 ps = Some shape ->
  let mid := Konva.moves Math_sqrt ps
               (Konva.handleMouseDown Konva.Stage (Some p0) None app) in
  Konva.page mid = Konva.page app
  /\ Konva.isDrawing (Konva.canvas mid) = true
  /\ Konva.startPos (Konva.canvas mid) = Some p0
  /\ Konva.newShape (Konva.canvas mid) = Some shape.
Proof.
  revert shape. induction ps as [| p ps IH] using rev_ind; intros shape Hs mid.
  - subst mid. unfold drawnShape in Hs. cbn in *.
    unfold Konva.handleMouseDown.
    destruct (Page.activeTool (Konva.page app)); try discriminate;
      injection Hs as <-; cbn; auto.
  - subst mid. rewrite konva_moves_snoc.
    unfold drawnShape in Hs. rewrite last_snoc in Hs.
    unfold drawnShape in IH.
    destruct (Page.activeTool (Konva.page app)) eqn:Htool; try discriminate;
      injection Hs as <-;
      edestruct IH as (Hpg & Hd & Hsp & Hns); try reflexivity;
      unfold Konva.handleMouseMove;
      rewrite Hd, Hsp, Hns, Hpg, Htool; cbn;
      rewrite ?Hpg, ?Hd, ?Hsp; repeat split; auto;
      destruct (last ps); reflexivity.
Qed.

Lemma konva_release (app : Konva.App) (shape : CanvasElement) :
  Konva.isDrawing (Konva.canvas app) = true ->
  Konva.newShape (Konva.canvas app) = Some shape ->
  Konva.page (Konva.handleMouseUp app)
  = if Konva.isValid shape
    then Page.handleAddElement shape (Konva.page app)
    else Konva.page app.
Proof.
  intros Hd Hn. unfold Konva.handleMouseUp. now rewrite Hd, Hn.
Qed.

End KonvaFacts.

(** C4 (amended).  On the Konva canvas, the release that ends the drawing
    of [shape] commits it when [isValid shape] holds (the scene becomes the
    old scene followed by [shape], through [handleAddElement]) and otherwise
    leaves the page as it was.  The check holds for a circle exactly when its
    radius exceeds 5 and for a path exactly when it has more than 2 points;
    a rectangle passes when both |width| and |height| exceed 5 and fails when
    |width| is at most 5. *)
Theorem konva_release_commits_checked_shape
        (Math_sqrt : number -> number) (app : Konva.App)
        (p0 : Point) (ps : list Point) (shape : CanvasElement) :
  drawnShape Math_sqrt (Konva.page app) p0 ps = Some shape ->
  let pg := Konva.page app in
  let pg' := Konva.page (Konva.gesture Math_sqrt p0 ps app) in
  (Konva.isValid shape = true ->
   pg' = Page.handleAddElement shape pg
   /\ Page.elements pg' = Page.elements pg ++ [shape])
  /\ (Konva.isValid shape = false -> pg' = pg)
  /\ match shape with
     | Rect _ _ w h _ =>
         ((5 < Qabs w)%Q -> (5 < Qabs h)%Q -> Konva.isValid shape = true)
         /\ ((Qabs w <= 5)%Q -> Konva.isValid shape = false)
     | Circle _ _ r _ => Konva.isValid shape = true <-> (5 < r)%Q
     | Path pts _ _ => Konva.isValid shape = true <-> 2 < length pts
     | _ => Konva.isValid shape = false
     end.
Proof.
  intros Hs pg pg'.
  destruct (konva_press_and_moves Math_sqrt app p0 ps shape Hs)
    as (Hpg & Hd & _ & Hn).
  assert (E : pg' = if Konva.isValid shape
                    then Page.handleAddElement shape pg else pg).
  { subst pg' pg. unfold Konva.gesture.
    rewrite (konva_release _ shape Hd Hn). now rewrite Hpg. }
  split; [| split].
  - intros Hv. rewrite Hv in E. now rewrite E.
  - intros Hv. now rewrite Hv in E.
  - destruct shape as [x y w h c | x y r c | | | pts c sw];
      unfold Konva.isValid, num_gt; auto.
    + split.
      * intros Hw _. now apply num_lt_iff.
      * intros Hw. now apply num_lt_false_iff.
    + apply num_lt_iff.
    + apply Nat.ltb_lt.
Qed.

Lemma konva_release_commits_checked_shape_witness :
  Page.elements
    (Konva.page (Konva.gesture sqrt_milli (mkPoint 0 0) [mkPoint 50 40]
                               (konva_app tool_rect)))
  = [] ++ [Rect 0 0 (50 - 0) (40 - 0) (js "#000000")].
Proof.
  destruct (konva_release_commits_checked_shape
              sqrt_milli (konva_app tool_rect) (mkPoint 0 0) [mkPoint 50 40]
              (Rect 0 0 (50 - 0) (40 - 0) (js "#000000")) eq_refl)
    as (Hok & _ & _).
  destruct (Hok eq_refl) as (_ & He). exact He.
Defined.

(** C4 as stated fails on the Konva canvas at the minimum itself: a
    rectangle drawn 5 wide and 5 high, and a pencil stroke of exactly two
    points, are both discarded. *)
Lemma konva_discards_shapes_at_the_minimum :
  Konva.newShape
    (Konva.canvas
       (Konva.moves sqrt_milli [mkPoint 5 5]
          (Konva.handleMouseDown Konva.Stage (Some (mkPoint 0 0)) None
                                 (konva_app tool_rect))))
  = Some (Rect 0 0 5 5 (js "#000000"))
  /\ Page.elements
       (Konva.page (Konva.gesture sqrt_milli (mkPoint 0 0) [mkPoint 5 5]
                                  (konva_app tool_rect))) = []
  /\ Konva.newShape
       (Konva.canvas
          (Konva.moves sqrt_milli [mkPoint 3 4]
             (Konva.handleMouseDown Konva.Stage (Some (mkPoint 0 0)) None
                                    (konva_app tool_pencil))))
     = Some (Path [mkPoint 0 0; mkPoint 3 4] (js "#000000") 2)
  /\ Page.elements
       (Konva.page (Konva.gesture sqrt_milli (mkPoint 0 0) [mkPoint 3 4]
                                  (konva_app tool_pencil))) = [].
Proof. repeat split; vm_compute; reflexivity. Qed.

(** The raw canvas has no such check: a 2 by 2 rectangle, and a pencil
    click that never moved, are both committed on release. *)
Example raw_release_commits_any_shape :
  (Page.elements <$>
     (Raw.page <$> Raw.gesture sqrt_milli round_stroke (mkPoint 10 10) [mkPoint 12 12]
                               (raw_app tool_rect)))
  = Some [Rect 10 10 2 2 (js "#000000")]
  /\ (Page.elements <$>
        (Raw.page <$> Raw.gesture sqrt_milli round_stroke (mkPoint 10 10) []
                                  (raw_app tool_pencil)))
     = Some [Path [mkPoint 10 10] (js "#000000") 2].
Proof. split; vm_compute; reflexivity. Qed.

(* ================================================================== *)
(** * Resize handles and box hit testing *)
(* ================================================================== *)

(** The anchor points the handle test uses for a circle: [x], [y] taken as
    the top-left corner of a box of side [2 * radius]. *)
Lemma circle_handles (x y r : number) (c : jsstring) :
  Raw.handlesOf (Circle x y r c)
  = Some [ (Raw.NW, (x, y)); (Raw.NE, ((x + r * 2)%Q, y));
           (Raw.SW, (x, (y + r * 2)%Q));
           (Raw.SE, ((x + r * 2)%Q, (y + r * 2)%Q)) ].
Proof. reflexivity. Qed.

(** C5.  The code at a circle of centre (100,100) and radius 50, whose
    bounding box has corners (50,50), (150,50), (50,150), (150,150): none of
    these corners is on a handle, while the centre is the ['nw'] handle and
    (200,200) the ['se'] one. *)
Theorem circle_handles_sit_off_the_bounding_box :
  Raw.getResizeHandle 50 50 big_circle = None
  /\ Raw.getResizeHandle 150 50 big_circle = None
  /\ Raw.getResizeHandle 50 150 big_circle = None
  /\ Raw.getResizeHandle 150 150 big_circle = None
  /\ Raw.getResizeHandle 100 100 big_circle = Some Raw.NW
  /\ Raw.getResizeHandle 200 100 big_circle = Some Raw.NE
  /\ Raw.getResizeHandle 100 200 big_circle = Some Raw.SW
  /\ Raw.getResizeHandle 200 200 big_circle = Some Raw.SE.
Proof. repeat split; vm_compute; reflexivity. Qed.

Ltac bool_to_Q :=
  repeat rewrite andb_true_iff;
  unfold num_ge;
  repeat rewrite num_le_iff.

(** The box test accepts exactly the points between the two [x] extremes
    and between the two [y] extremes of the box. *)
Lemma hitBox_spec (p : Point) (x y w h : number) :
  Raw.hitBox p x y w h = true
  <-> (Qmin x (x + w) <= px p /\ px p <= Qmax x (x + w)
       /\ Qmin y (y + h) <= py p /\ py p <= Qmax y (y + h))%Q.
Proof.
  unfold Raw.hitBox.
  destruct (Q.min_spec x (x + w)) as [[Hx Emin] | [Hx Emin]];
    destruct (Q.max_spec x (x + w)) as [[Hx' Emax] | [Hx' Emax]];
    destruct (Q.min_spec y (y + h)) as [[Hy Emin'] | [Hy Emin']];
    destruct (Q.max_spec y (y + h)) as [[Hy' Emax'] | [Hy' Emax']];
    rewrite Emin, Emax, Emin', Emax';
    destruct (num_lt w 0) eqn:Hw;
    destruct (num_lt h 0) eqn:Hh;
    try apply num_lt_iff in Hw; try apply num_lt_false_iff in Hw;
    try apply num_lt_iff in Hh; try apply num_lt_false_iff in Hh;
    bool_to_Q;
    pose proof (Qabs_pos w); pose proof (Qabs_neg w);
    pose proof (Qabs_pos h); pose proof (Qabs_neg h);
    repeat match goal with
           | H : (?a <= ?b)%Q -> _ |- _ =>
               first [ specialize (H ltac:(lra)) | clear H ]
           end;
    split; intros Hall; decompose [and] Hall; repeat split; lra.
Qed.

Lemma normalized_min (x w : number) :
  (Qmin (Qmin x (x + w)) (Qmin x (x + w) + Qabs w) == Qmin x (x + w))%Q.
Proof. apply Q.min_l. pose proof (Qabs_nonneg w). lra. Qed.

Lemma normalized_max (x w : number) :
  (Qmax (Qmin x (x + w)) (Qmin x (x + w) + Qabs w) == Qmax x (x + w))%Q.
Proof.
  rewrite Q.max_r by (pose proof (Qabs_nonneg w); lra).
  destruct (Q.min_spec x (x + w)) as [[Hx Emin] | [Hx Emin]];
    destruct (Q.max_spec x (x + w)) as [[Hx' Emax] | [Hx' Emax]];
    rewrite Emin, Emax;
    pose proof (Qabs_pos w) as Hp; pose proof (Qabs_neg w) as Hn;
    first [ specialize (Hp ltac:(lra)) | specialize (Hn ltac:(lra)) ]; lra.
Qed.

Lemma hitBox_normalized (p : Point) (x y w h : number) :
  Raw.hitBox p x y w h
  = Raw.hitBox p (Qmin x (x + w)) (Qmin y (y + h)) (Qabs w) (Qabs h).
Proof.
  apply eq_true_iff_eq.
  rewrite !hitBox_spec, !normalized_min, !normalized_max. reflexivity.
Qed.

(** C6.  In both hit loops (select and eraser), a rectangle or image with
    any signs of [width] and [height] is hit by exactly the points that hit
    the same box written with origin [(min(x, x+w), min(y, y+h))] and sizes
    [|w|], [|h|]. *)
Theorem hit_test_normalizes_negative_sizes
        (Math_sqrt : number -> number)
        (isPointInStroke : number -> list Point -> Point -> bool)
        (p : Point)
        (x y w h : number) (c : jsstring) :
  Raw.selectHit Math_sqrt isPointInStroke p (Rect x y w h c)
  = Raw.selectHit Math_sqrt isPointInStroke p
      (Rect (Qmin x (x + w)) (Qmin y (y + h)) (Qabs w) (Qabs h) c)
  /\ Raw.eraserHit Math_sqrt isPointInStroke p (Rect x y w h c)
     = Raw.eraserHit Math_sqrt isPointInStroke p
         (Rect (Qmin x (x + w)) (Qmin y (y + h)) (Qabs w) (Qabs h) c)
  /\ Raw.selectHit Math_sqrt isPointInStroke p (Image x y w h c)
     = Raw.selectHit Math_sqrt isPointInStroke p
         (Image (Qmin x (x + w)) (Qmin y (y + h)) (Qabs w) (Qabs h) c)
  /\ Raw.eraserHit Math_sqrt isPointInStroke p (Image x y w h c)
     = Raw.eraserHit Math_sqrt isPointInStroke p
         (Image (Qmin x (x + w)) (Qmin y (y + h)) (Qabs w) (Qabs h) c).
Proof.
  unfold Raw.selectHit, Raw.eraserHit, Raw.hitTest.
  repeat split; apply hitBox_normalized.
Qed.

(** A rectangle drawn right-to-left and bottom-to-top, from (110,110) back
    to (10,10), is hit where the rectangle at (10,10) of size 100 is. *)
Example hit_inside_box_drawn_backwards :
  Raw.selectHit sqrt_milli round_stroke (mkPoint 50 50) (Rect 110 110 (-100) (-100) sample_red)
  = true
  /\ Raw.selectHit sqrt_milli round_stroke (mkPoint 50 50) sample_rect = true
  /\ Raw.eraserHit sqrt_milli round_stroke (mkPoint 5 50) (Rect 110 110 (-100) (-100) sample_red)
     = false.
Proof. repeat split; vm_compute; reflexivity. Qed.

(* ================================================================== *)
(** * Path hit testing *)
(* ================================================================== *)

Section StrokeFacts.
Local Open Scope Q_scope.
Variable Math_sqrt : number -> number.
Variable isPointInStroke : number -> list Point -> Point -> bool.

Lemma samePoint_refl (a : Point) : Stroke.samePoint a a = true.
Proof.
  unfold Stroke.samePoint. rewrite andb_true_iff, !Qeq_bool_iff.
  split; reflexivity.
Qed.

(** A segment that a point lies beside has two distinct ends. *)
Lemma besideSegment_distinct (p a b : Point) :
  besideSegment p a b -> Stroke.samePoint a b = false.
Proof.
  unfold besideSegment, Stroke.samePoint. intros (_ & _ & Hlen).
  apply not_true_iff_false. rewrite andb_true_iff, !Qeq_bool_iff.
  intros (Hx & Hy).
  assert (E : (px b - px a) * (px b - px a) + (py b - py a) * (py b - py a)
              == 0) by (rewrite Hx, Hy; ring).
  rewrite E in Hlen. now apply Qlt_irrefl in Hlen.
Qed.

(** Both hit loops hand the path to the stroke query with their own line
    width. *)
Lemma hitTest_path (pad : number) (p : Point) (ps : list Point)
      (c : jsstring) (strokeWidth : number) :
  Raw.hitTest Math_sqrt isPointInStroke pad p (Path ps c strokeWidth)
  = match ps with
    | [] => false
    | p0 :: _ => isPointInStroke (strokeWidth + pad) (p0 :: ps) p
    end.
Proof. reflexivity. Qed.

(** The doubled first vertex takes no segment away. *)
Lemma segments_doubled (p0 : Point) (rest : list Point) (a b : Point) :
  In (a, b) (Stroke.segments (p0 :: rest)) ->
  In (a, b) (Stroke.segments (p0 :: p0 :: rest)).
Proof. intros Hin. right. exact Hin. Qed.

Lemma hitPath_body (pad : number) (p : Point) (ps : list Point)
      (strokeWidth : number) (a b : Point) :
  fillsSegmentBodies isPointInStroke ->
  0 < strokeWidth + pad ->
  In (a, b) (Stroke.segments ps) ->
  withinBody ((strokeWidth + pad) / 2) p a b ->
  Raw.hitPath isPointInStroke pad p ps strokeWidth = true.
Proof.
  intros Hfill Hw Hin Hbody.
  destruct ps as [| p0 rest]; [contradiction |].
  unfold Raw.hitPath.
  apply (Hfill _ _ p a b Hw); [now apply segments_doubled | exact Hbody].
Qed.

Lemma hitPath_straight (pad : number) (p a b : Point) (strokeWidth : number) :
  fillsSegmentBodies isPointInStroke ->
  straightStrokeIsThin isPointInStroke ->
  0 < strokeWidth + pad ->
  besideSegment p a b ->
  Raw.hitPath isPointInStroke pad p [a; b] strokeWidth = true
  <-> Stroke.distSqToSegment p a b
      <= (strokeWidth + pad) / 2 * ((strokeWidth + pad) / 2).
Proof.
  intros Hfill Hthin Hw Hbeside. split.
  - unfold Raw.hitPath. intros Hhit.
    exact (Hthin _ p a b Hw Hbeside Hhit).
  - intros Hd. apply (hitPath_body pad p [a; b] strokeWidth a b); auto.
    + left. reflexivity.
    + split; assumption.
Qed.

(** The stand-in stroke obeys both laws. *)
Lemma round_stroke_fills : fillsSegmentBodies round_stroke.
Proof.
  intros lineWidth vertices p a b _ Hin (Hbeside & Hd).
  unfold round_stroke. apply existsb_exists. exists (a, b).
  split; [exact Hin |].
  unfold Stroke.inSegmentStroke; cbn [fst snd].
  rewrite (besideSegment_distinct p a b Hbeside). cbn [negb andb].
  apply num_le_iff. exact Hd.
Qed.

Lemma round_stroke_thin : straightStrokeIsThin round_stroke.
Proof.
  intros lineWidth p a b _ Hbeside. unfold round_stroke.
  change (Stroke.segments [a; a; b]) with [(a, a); (a, b)].
  cbn [existsb]. unfold Stroke.inSegmentStroke at 1; cbn [fst snd].
  rewrite samePoint_refl. cbn [negb andb orb]. rewrite orb_false_r.
  unfold Stroke.inSegmentStroke; cbn [fst snd].
  rewrite andb_true_iff. intros (_ & Hd). now apply num_le_iff in Hd.
Qed.

(** On the flat stroke of width 2, beside its middle: the facts the two
    laws settle, for any stroke query that obeys them. *)
Lemma flat_stroke_hits :
  fillsSegmentBodies isPointInStroke ->
  straightStrokeIsThin isPointInStroke ->
  Raw.selectHit Math_sqrt isPointInStroke (mkPoint 5 5) flat_stroke = true
  /\ Raw.eraserHit Math_sqrt isPointInStroke (mkPoint 5 5) flat_stroke = false
  /\ Raw.selectHit Math_sqrt isPointInStroke (mkPoint 5 7) flat_stroke = false
  /\ Raw.eraserHit Math_sqrt isPointInStroke (mkPoint 5 4) flat_stroke = false.
Proof.
  intros Hfill Hthin.
  unfold Raw.selectHit, Raw.eraserHit, flat_stroke, Raw.hitTest.
  assert (Hb : forall y, besideSegment (mkPoint 5 y) (mkPoint 0 0) (mkPoint 10 0)).
  { intros y. unfold besideSegment; cbn. repeat split; lra. }
  assert (Hd : forall y,
             Stroke.distSqToSegment (mkPoint 5 y) (mkPoint 0 0) (mkPoint 10 0)
             == y * y).
  { intros y. unfold Stroke.distSqToSegment, Stroke.nearestParam; cbn.
    unfold Stroke.distSq, Stroke.pointAt, pow2; cbn.
    repeat match goal with
           | |- context [if ?b then _ else _] =>
               let E := fresh "E" in
               destruct b eqn:E; [apply num_le_iff in E; lra |]
           end.
    field. }
  assert (Hiff : forall pad y,
             0 < 2 + pad ->
             Raw.hitPath isPointInStroke pad (mkPoint 5 y)
                         [mkPoint 0 0; mkPoint 10 0] 2 = true
             <-> y * y <= (2 + pad) / 2 * ((2 + pad) / 2)).
  { intros pad y Hpad. rewrite <- Hd. now apply hitPath_straight. }
  repeat split.
  - apply Hiff; [reflexivity | vm_compute; discriminate].
  - apply not_true_iff_false. rewrite Hiff by reflexivity.
    apply Qlt_not_le. reflexivity.
  - apply not_true_iff_false. rewrite Hiff by reflexivity.
    apply Qlt_not_le. reflexivity.
  - apply not_true_iff_false. rewrite Hiff by reflexivity.
    apply Qlt_not_le. reflexivity.
Qed.

End StrokeFacts.

(** C7 (amended).  For a path of non-negative stroke width, each hit loop
    is the stroke query of the canvas on the polyline, with line width
    [strokeWidth + 10] in the select loop and [strokeWidth + 5] in the eraser
    loop; a path without points is never hit.  For every stroke query that
    fills the body of each segment and, on a single straight segment,
    nothing beside it beyond half the line width: a point that projects onto
    a segment of the path and lies within half the tool's line width of it is
    hit, and on a path of two points a point that projects onto the segment
    is hit exactly when its distance to it is at most half the tool's line
    width.  Nothing is said of the points off the ends of a segment, where
    the answer depends on the caps and joins of the context. *)
Theorem path_hit_is_half_width_proximity
        (Math_sqrt : number -> number)
        (isPointInStroke : number -> list Point -> Point -> bool)
        (p : Point) (ps : list Point)
        (c : jsstring) (strokeWidth : number) :
  fillsSegmentBodies isPointInStroke ->
  straightStrokeIsThin isPointInStroke ->
  (0 <= strokeWidth)%Q ->
  let select := Raw.selectHit Math_sqrt isPointInStroke p (Path ps c strokeWidth) in
  let eraser := Raw.eraserHit Math_sqrt isPointInStroke p (Path ps c strokeWidth) in
  select = match ps with
           | [] => false
           | p0 :: _ => isPointInStroke (strokeWidth + 10)%Q (p0 :: ps) p
           end
  /\ eraser = match ps with
              | [] => false
              | p0 :: _ => isPointInStroke (strokeWidth + 5)%Q (p0 :: ps) p
              end
  /\ (forall a b : Point,
         In (a, b) (Stroke.segments ps) ->
         (withinBody ((strokeWidth + 10) / 2) p a b -> select = true)
         /\ (withinBody ((strokeWidth + 5) / 2) p a b -> eraser = true))
  /\ (forall a b : Point,
         ps = [a; b] -> besideSegment p a b ->
         (select = true
          <-> (Stroke.distSqToSegment p a b
               <= (strokeWidth + 10) / 2 * ((strokeWidth + 10) / 2))%Q)
         /\ (eraser = true
             <-> (Stroke.distSqToSegment p a b
                  <= (strokeWidth + 5) / 2 * ((strokeWidth + 5) / 2))%Q)).
Proof.
  intros Hfill Hthin Hw select eraser.
  split; [reflexivity |]. split; [reflexivity |]. split.
  - intros a b Hin. split; intros Hbody.
    + apply (hitPath_body isPointInStroke 10 p ps strokeWidth a b); auto. lra.
    + apply (hitPath_body isPointInStroke 5 p ps strokeWidth a b); auto. lra.
  - intros a b -> Hbeside. split.
    + apply (hitPath_straight isPointInStroke 10 p a b strokeWidth); auto. lra.
    + apply (hitPath_straight isPointInStroke 5 p a b strokeWidth); auto. lra.
Qed.

Lemma path_hit_is_half_width_proximity_witness :
  Raw.eraserHit sqrt_milli round_stroke (mkPoint 10 3) corner_stroke = true
  /\ Raw.selectHit sqrt_milli round_stroke (mkPoint 4 6) corner_stroke = true.
Proof.
  assert (Hw : (0 <= 2)%Q) by (vm_compute; discriminate).
  split.
  - destruct (path_hit_is_half_width_proximity
                sqrt_milli round_stroke (mkPoint 10 3)
                [mkPoint 0 0; mkPoint 10 0; mkPoint 10 10] sample_red 2
                round_stroke_fills round_stroke_thin Hw)
      as (_ & _ & Hbody & _).
    apply (Hbody (mkPoint 10 0) (mkPoint 10 10)).
    + right. left. reflexivity.
    + split; [| vm_compute; discriminate].
      unfold besideSegment; cbn. repeat split; vm_compute; congruence.
  - destruct (path_hit_is_half_width_proximity
                sqrt_milli round_stroke (mkPoint 4 6)
                [mkPoint 0 0; mkPoint 10 0; mkPoint 10 10] sample_red 2
                round_stroke_fills round_stroke_thin Hw)
      as (_ & _ & Hbody & _).
    apply (Hbody (mkPoint 0 0) (mkPoint 10 0)).
    + left. reflexivity.
    + split; [| vm_compute; discriminate].
      unfold besideSegment; cbn. repeat split; vm_compute; congruence.
Defined.

(** C7 as stated fails.  On the stroke of width 2 from (0,0) to (10,0), the
    point (5,5) is hit by the select loop and missed by the eraser loop, so
    the two tools do not share one test; and neither margin is the stroke
    width plus the tool's constant: (5,7) is at distance 7 <= 2 + 10 yet
    missed by select, (5,4) at distance 4 <= 2 + 5 yet missed by the eraser.
    This is so with the stand-in stroke, and with every stroke query that
    obeys the two laws. *)
Lemma path_hit_differs_between_tools :
  (Raw.selectHit sqrt_milli round_stroke (mkPoint 5 5) flat_stroke = true
   /\ Raw.eraserHit sqrt_milli round_stroke (mkPoint 5 5) flat_stroke = false
   /\ Raw.selectHit sqrt_milli round_stroke (mkPoint 5 7) flat_stroke = false
   /\ Raw.eraserHit sqrt_milli round_stroke (mkPoint 5 4) flat_stroke = false)
  /\ (forall (Math_sqrt : number -> number)
             (isPointInStroke : number -> list Point -> Point -> bool),
         fillsSegmentBodies isPointInStroke ->
         straightStrokeIsThin isPointInStroke ->
         Raw.selectHit Math_sqrt isPointInStroke (mkPoint 5 5) flat_stroke = true
         /\ Raw.eraserHit Math_sqrt isPointInStroke (mkPoint 5 5) flat_stroke
            = false
         /\ Raw.selectHit Math_sqrt isPointInStroke (mkPoint 5 7) flat_stroke
            = false
         /\ Raw.eraserHit Math_sqrt isPointInStroke (mkPoint 5 4) flat_stroke
            = false).
Proof.
  split; [repeat split; vm_compute; reflexivity |].
  intros Math_sqrt isPointInStroke. apply flat_stroke_hits.
Qed.

(** The eraser scenario: one click at (10,0) removes the polyline, whatever
    the caps and joins of the stroke. *)
Example eraser_click_removes_path
        (Math_sqrt : number -> number)
        (isPointInStroke : number -> list Point -> Point -> bool) :
  fillsSegmentBodies isPointInStroke ->
  Page.elements
    (Raw.page
       (Raw.handleMouseDown Math_sqrt isPointInStroke (mkPoint 10 0) None
          (Raw.mkApp (Page.handleAddElement corner_stroke
                        (Page.setActiveTool tool_eraser Page.initial))
                     Raw.idle)))
  = [].
Proof.
  intros Hfill.
  assert (Hhit : Raw.eraserHit Math_sqrt isPointInStroke (mkPoint 10 0)
                               corner_stroke = true).
  { apply (hitPath_body isPointInStroke 5 (mkPoint 10 0) _ 2
                        (mkPoint 0 0) (mkPoint 10 0)); auto.
    - reflexivity.
    - left. reflexivity.
    - split; [| vm_compute; discriminate].
      unfold besideSegment; cbn. repeat split; vm_compute; congruence. }
  unfold Raw.handleMouseDown; cbn -[Raw.eraserHit]. rewrite Hhit. reflexivity.
Qed.

(* ================================================================== *)
(** * Export: validation and rendering *)
(* ================================================================== *)

Section ServerFacts.
Variable loadImage : Server.ImageSource -> unit + jsstring.
Variable createCanvas : Server.Value -> Server.Value -> unit + jsstring.
Variable assemblePdf : Server.Value -> Server.Value -> list Server.CanvasOp
                       -> unit + jsstring.

Lemma drawElement_appends (el : CanvasElement) (s : Server.Surface) :
  Server.drawElement loadImage el s
  = Server.mkSurface (Server.ops s ++ painted loadImage el)
                     (Server.console s ++ reported loadImage el).
Proof.
  unfold painted, reported.
  destruct s as [o l], el as [x y w h c | x y r c | x y t f c | x y w h src
                             | pts c sw]; cbn;
    unfold Server.emit, Server.logError; cbn;
    rewrite ?app_nil_r; try reflexivity.
  - destruct (loadImage (Server.imageSourceOf src)); cbn;
      now rewrite ?app_nil_r.
  - destruct pts as [| a [| b rest]]; cbn; now rewrite ?app_nil_r.
Qed.

(** The loop paints the elements one after the other, each on top of what
    the ones before it left. *)
Lemma drawElements_appends (els : Scene) (s : Server.Surface) :
  Server.drawElements loadImage els s
  = Server.mkSurface
      (Server.ops s ++ concat (map (painted loadImage) els))
      (Server.console s ++ concat (map (reported loadImage) els)).
Proof.
  unfold Server.drawElements. revert s.
  induction els as [| el els IH]; intros s; cbn.
  - rewrite !app_nil_r. now destruct s.
  - rewrite IH, drawElement_appends; cbn. now rewrite <- !app_assoc.
Qed.

(** One turn of the loop makes the calls of the table. *)
Lemma painted_calls (el : CanvasElement) :
  painted loadImage el = contextCalls loadImage el.
Proof.
  unfold painted.
  destruct el as [x y w h c | x y r c | x y t f c | x y w h src | pts c sw];
    cbn; try reflexivity.
  - now destruct (loadImage (Server.imageSourceOf src)).
  - destruct pts as [| a [| b rest]]; reflexivity.
Qed.

Lemma drawElements_calls (els : Scene) :
  Server.ops (Server.drawElements loadImage els Server.blank)
  = concat (map (contextCalls loadImage) els).
Proof.
  rewrite drawElements_appends; cbn. f_equal. apply map_ext.
  intros el. apply painted_calls.
Qed.

Lemma drawElements_console (els : Scene) :
  Server.console (Server.drawElements loadImage els Server.blank)
  = concat (map (reported loadImage) els).
Proof. now rewrite drawElements_appends. Qed.

(** With three truthy fields the handler goes on to the [try] block. *)
Lemma exportPdf_renders (w h els : Server.Value) :
  Server.falsy w = false -> Server.falsy h = false ->
  Server.falsy els = false ->
  Server.exportPdf loadImage createCanvas assemblePdf (Server.mkRequest w h els)
  = Server.render loadImage createCanvas assemblePdf w h els.
Proof.
  intros Hw Hh He. unfold Server.exportPdf; cbn. now rewrite Hw, Hh, He.
Qed.

(** A positive number is truthy. *)
Lemma positive_number_truthy (n : number) :
  (0 < n)%Q -> Server.falsy (Server.JNumber n) = false.
Proof.
  intros Hn. unfold Server.falsy, num_falsy.
  apply not_true_iff_false. rewrite Qeq_bool_iff. intros E.
  rewrite E in Hn. now apply Qlt_irrefl in Hn.
Qed.

(** The [try] block answers with the document of the requested size or
    with status 500. *)
Lemma render_answer (w h els : Server.Value) :
  match Server.render loadImage createCanvas assemblePdf w h els with
  | Server.Json status error _ =>
      status = 500 /\ error = js "Failed to generate PDF"
  | Server.Pdf doc _ => Server.pageWidth doc = w /\ Server.pageHeight doc = h
  end.
Proof.
  unfold Server.render, Server.serverError.
  destruct (createCanvas w h); [| auto].
  destruct (Server.iterated els); [| auto].
  destruct (assemblePdf w h _); cbn; auto.
Qed.

(** The [try] block on an array of elements, by what the platform does. *)
Lemma render_scene (w h : Server.Value) (els : Scene) :
  Server.render loadImage createCanvas assemblePdf w h (Server.JArray els)
  = match createCanvas w h with
    | inr err => Server.serverError [] err
    | inl _ =>
        match assemblePdf w h (concat (map (contextCalls loadImage) els)) with
        | inl _ =>
            Server.Pdf
              (Server.mkDocument w h (concat (map (contextCalls loadImage) els)))
              (concat (map (reported loadImage) els))
        | inr err =>
            Server.serverError (concat (map (reported loadImage) els)) err
        end
    end.
Proof.
  unfold Server.render; cbn [Server.iterated].
  now rewrite drawElements_calls, drawElements_console.
Qed.

Lemma failed_image_paints_nothing (x y w h : number) (src message : jsstring) :
  loadImage (Server.imageSourceOf src) = inr message ->
  contextCalls loadImage (Image x y w h src) = []
  /\ reported loadImage (Image x y w h src)
     = [js "Failed to load image: " ++ message].
Proof.
  intros Hfail. unfold reported; cbn. now rewrite Hfail.
Qed.

End ServerFacts.

(** C8.  A request in which [width], [height] or [elements] is missing is
    answered with status 400 and the body [{ error: ... }], not with a
    document.  A request carrying all three in the wire format (positive
    numbers for the sizes, an array of elements) goes on to the [try] block:
    its answer is never the 400 one; it is the document of the requested
    size, painted with the elements, when the canvas and the document can be
    made, and the 500 answer of the [catch] block otherwise.  In general the
    400 answer is given exactly when one of the three fields is falsy. *)
Theorem export_rejects_missing_fields
        (loadImage : Server.ImageSource -> unit + jsstring)
        (createCanvas : Server.Value -> Server.Value -> unit + jsstring)
        (assemblePdf : Server.Value -> Server.Value -> list Server.CanvasOp
                       -> unit + jsstring)
        (req : Server.ExportRequest) :
  let answer := Server.exportPdf loadImage createCanvas assemblePdf req in
  (Server.width req = Server.Undefined
   \/ Server.height req = Server.Undefined
   \/ Server.elements req = Server.Undefined ->
   answer = Server.Json 400 missing_fields_error [])
  /\ (forall (w h : number) (els : Scene),
         Server.width req = Server.JNumber w ->
         Server.height req = Server.JNumber h ->
         Server.elements req = Server.JArray els ->
         (0 < w)%Q -> (0 < h)%Q ->
         let raster := Server.ops (Server.drawElements loadImage els
                                                       Server.blank) in
         answer
         = Server.render loadImage createCanvas assemblePdf
                         (Server.JNumber w) (Server.JNumber h)
                         (Server.JArray els)
         /\ match answer with
            | Server.Json status error _ =>
                status = 500 /\ error = js "Failed to generate PDF"
            | Server.Pdf doc _ =>
                doc = Server.mkDocument (Server.JNumber w) (Server.JNumber h)
                                        raster
            end
         /\ (createCanvas (Server.JNumber w) (Server.JNumber h) = inl tt ->
             assemblePdf (Server.JNumber w) (Server.JNumber h) raster = inl tt ->
             exists log,
               answer
               = Server.Pdf
                   (Server.mkDocument (Server.JNumber w) (Server.JNumber h)
                                      raster)
                   log))
  /\ ((exists log, answer = Server.Json 400 missing_fields_error log)
      <-> Server.falsy (Server.width req) || Server.falsy (Server.height req)
          || Server.falsy (Server.elements req) = true).
Proof.
  intros answer. split; [| split].
  - intros Hmiss. unfold answer, Server.exportPdf.
    destruct Hmiss as [-> | [-> | ->]]; cbn [Server.falsy];
      rewrite ?orb_true_r; reflexivity.
  - intros w h els Hw Hh He Hwpos Hhpos raster.
    assert (E : answer
                = Server.render loadImage createCanvas assemblePdf
                    (Server.JNumber w) (Server.JNumber h) (Server.JArray els)).
    { unfold answer. destruct req as [rw rh rels]; cbn in Hw, Hh, He; subst.
      apply exportPdf_renders; auto using positive_number_truthy. }
    split; [exact E |]. rewrite E. clear E.
    unfold Server.render, Server.serverError; cbn [Server.iterated].
    fold raster.
    destruct (createCanvas (Server.JNumber w) (Server.JNumber h)) as [[] | e1].
    + destruct (assemblePdf (Server.JNumber w) (Server.JNumber h) raster)
        as [[] | e2].
      * split; [reflexivity | eauto].
      * split; [auto | discriminate].
    + split; [auto | discriminate].
  - unfold answer, Server.exportPdf.
    destruct (Server.falsy (Server.width req) || Server.falsy (Server.height req)
              || Server.falsy (Server.elements req)).
    + split; [reflexivity | eauto].
    + split; [| discriminate]. intros (log & E).
      pose proof (render_answer loadImage createCanvas assemblePdf
                                (Server.width req)
                                (Server.height req) (Server.elements req)) as Ha.
      rewrite E in Ha. destruct Ha as (Ha & _). discriminate Ha.
Qed.

Lemma export_rejects_missing_fields_witness :
  Server.exportPdf offline_loader sized_canvas plain_pdf
                   (Server.mkRequest (Server.JNumber 800) (Server.JNumber 600)
                                     Server.Undefined)
  = Server.Json 400 missing_fields_error []
  /\ exists log,
      Server.exportPdf offline_loader sized_canvas plain_pdf
                       (sceneRequest 800 600 [sample_rect])
      = Server.Pdf
          (Server.mkDocument
             (Server.JNumber 800) (Server.JNumber 600)
             (Server.ops (Server.drawElements offline_loader [sample_rect]
                                              Server.blank)))
          log.
Proof.
  split.
  - apply (export_rejects_missing_fields
             offline_loader sized_canvas plain_pdf
             (Server.mkRequest (Server.JNumber 800) (Server.JNumber 600)
                               Server.Undefined)).
    right. right. reflexivity.
  - destruct (export_rejects_missing_fields
                offline_loader sized_canvas plain_pdf
                (sceneRequest 800 600 [sample_rect]))
      as (_ & Hok & _).
    destruct (Hok 800%Q 600%Q [sample_rect]
                  eq_refl eq_refl eq_refl eq_refl eq_refl)
      as (_ & _ & Hpdf).
    apply Hpdf; reflexivity.
Defined.

(** Fields that are present but falsy are answered like missing ones: a
    width of 0 (what the page sends when the size input is cleared), and
    [null] for the elements. *)
Example export_rejects_falsy_fields :
  Server.exportPdf offline_loader sized_canvas plain_pdf (sceneRequest 0 600 [sample_rect])
  = Server.Json 400 missing_fields_error []
  /\ Server.exportPdf offline_loader sized_canvas plain_pdf
       (Server.mkRequest (Server.JNumber 800) (Server.JNumber 600) Server.JNull)
     = Server.Json 400 missing_fields_error [].
Proof. split; vm_compute; reflexivity. Qed.

(** A size on which no canvas can be created, elements that cannot be
    iterated, and a document that cannot be assembled, end in the [catch]
    block. *)
Example export_fails_in_the_try_block :
  Server.exportPdf offline_loader sized_canvas plain_pdf
                   (sceneRequest (-5) 600 [sample_rect])
  = Server.Json 500 (js "Failed to generate PDF")
                [js "PDF Export Error: Error: invalid canvas size"]
  /\ Server.exportPdf offline_loader sized_canvas plain_pdf
       (Server.mkRequest (Server.JNumber 800) (Server.JNumber 600)
                         Server.JObject)
     = Server.Json 500 (js "Failed to generate PDF")
                   [js "PDF Export Error: TypeError: elements is not iterable"]
  /\ Server.exportPdf offline_loader sized_canvas
       (fun _ _ _ => inr (js "Error: out of memory"))
       (sceneRequest 800 600 [remote_image])
     = Server.Json 500 (js "Failed to generate PDF")
         [js "Failed to load image: getaddrinfo ENOTFOUND";
          js "PDF Export Error: Error: out of memory"].
Proof. repeat split; vm_compute; reflexivity. Qed.

(** C9.  When the source of an image element fails to load, the calls made
    on the canvas are those of the elements before it followed by those of
    the elements after it, each making the calls of its kind: the failing
    element alone is skipped.  One line reporting the failure is logged, in
    its place among the reports.  A request for that scene gets a document
    exactly when the request for the scene without the element does; when
    the canvas and the document can be made the answer is the document
    carrying those calls, and its log holds the report. *)
Theorem failed_image_is_skipped_and_reported
        (loadImage : Server.ImageSource -> unit + jsstring)
        (createCanvas : Server.Value -> Server.Value -> unit + jsstring)
        (assemblePdf : Server.Value -> Server.Value -> list Server.CanvasOp
                       -> unit + jsstring)
        (before after : Scene) (x y w h : number) (src message : jsstring) :
  loadImage (Server.imageSourceOf src) = inr message ->
  let scene := before ++ Image x y w h src :: after in
  let report := js "Failed to load image: " ++ message in
  let others := concat (map (contextCalls loadImage) before)
                ++ concat (map (contextCalls loadImage) after) in
  let export := Server.exportPdf loadImage createCanvas assemblePdf in
  Server.ops (Server.drawElements loadImage scene Server.blank) = others
  /\ Server.ops (Server.drawElements loadImage (before ++ after) Server.blank)
     = others
  /\ Server.console (Server.drawElements loadImage scene Server.blank)
     = Server.console (Server.drawElements loadImage before Server.blank)
       ++ report
          :: Server.console (Server.drawElements loadImage after Server.blank)
  /\ forall pw ph : Server.Value,
      Server.falsy pw = false -> Server.falsy ph = false ->
      (createCanvas pw ph = inl tt -> assemblePdf pw ph others = inl tt ->
       exists log,
         export (Server.mkRequest pw ph (Server.JArray scene))
         = Server.Pdf (Server.mkDocument pw ph others) log
         /\ In report log)
      /\ ((exists doc log,
              export (Server.mkRequest pw ph (Server.JArray scene))
              = Server.Pdf doc log)
          <-> (exists doc log,
                  export (Server.mkRequest pw ph
                                           (Server.JArray (before ++ after)))
                  = Server.Pdf doc log)).
Proof.
  intros Hfail scene report others export.
  destruct (failed_image_paints_nothing loadImage x y w h src message Hfail)
    as (Hp & Hr).
  assert (Hcalls : concat (map (contextCalls loadImage) scene) = others).
  { unfold scene, others.
    rewrite map_app, concat_app; cbn [map concat]. now rewrite Hp. }
  assert (Hcalls' : concat (map (contextCalls loadImage) (before ++ after))
                    = others).
  { unfold others. now rewrite map_app, concat_app. }
  assert (Hlog : concat (map (reported loadImage) scene)
                 = concat (map (reported loadImage) before)
                   ++ report :: concat (map (reported loadImage) after)).
  { unfold scene. rewrite map_app, concat_app; cbn [map concat].
    now rewrite Hr. }
  split; [now rewrite drawElements_calls |].
  split; [now rewrite drawElements_calls |].
  split; [now rewrite !drawElements_console |].
  intros pw ph Hw Hh. unfold export.
  rewrite (exportPdf_renders loadImage createCanvas assemblePdf pw ph
             (Server.JArray scene) Hw Hh eq_refl).
  rewrite (exportPdf_renders loadImage createCanvas assemblePdf pw ph
             (Server.JArray (before ++ after)) Hw Hh eq_refl).
  rewrite !render_scene, Hcalls, Hcalls'. unfold Server.serverError.
  split.
  - intros Hc Ha. rewrite Hc, Ha. eexists; split; [reflexivity |].
    rewrite Hlog. apply in_or_app. right. left. reflexivity.
  - destruct (createCanvas pw ph) as [[] | e1].
    + destruct (assemblePdf pw ph others) as [[] | e2].
      * split; intros _; eauto.
      * split; intros (doc & log & E); discriminate E.
    + split; intros (doc & log & E); discriminate E.
Qed.

Lemma failed_image_is_skipped_and_reported_witness :
  Server.ops (Server.drawElements offline_loader
                [sample_rect; remote_image; sample_circle] Server.blank)
  = [Server.SetFillStyle sample_red; Server.FillRect 10 10 100 100]
    ++ [Server.BeginPath; Server.Arc 200 200 50;
        Server.SetFillStyle sample_red; Server.Fill].
Proof.
  destruct (failed_image_is_skipped_and_reported
              offline_loader sized_canvas plain_pdf
              [sample_rect] [sample_circle]
              0 0 150 150
              (js "https://via.placeholder.com/150")
              (js "getaddrinfo ENOTFOUND") eq_refl)
    as (Hops & _).
  exact Hops.
Defined.

(* ================================================================== *)
(** * Inline text editing *)
(* ================================================================== *)

Section TextFacts.
Variable Math_sqrt : number -> number.
Variable isPointInStroke : number -> list Point -> Point -> bool.

Lemma trimStart_keeps_blankness (s : jsstring) :
  blank_text (trimStart s) = blank_text s.
Proof.
  unfold blank_text.
  induction s as [| c s IH]; cbn; [reflexivity |].
  destruct (isWhiteSpace c) eqn:Hc; cbn; [exact IH | now rewrite Hc].
Qed.

Lemma trimStart_nil_iff (s : jsstring) :
  trimStart s = [] <-> blank_text s = true.
Proof.
  unfold blank_text.
  induction s as [| c s IH]; cbn; [tauto |].
  destruct (isWhiteSpace c); cbn; [exact IH |].
  split; discriminate.
Qed.

Lemma blank_text_rev (s : jsstring) : blank_text (rev s) = blank_text s.
Proof.
  unfold blank_text.
  induction s as [| c s IH]; cbn; [reflexivity |].
  rewrite forallb_app, IH; cbn. rewrite andb_true_r. apply andb_comm.
Qed.

Lemma trimEnd_nil_iff (s : jsstring) :
  trimEnd s = [] <-> blank_text s = true.
Proof.
  unfold trimEnd. rewrite <- blank_text_rev, <- trimStart_nil_iff.
  split; intros H.
  - apply (f_equal (@rev N)) in H. now rewrite rev_involutive in H.
  - now rewrite H.
Qed.

(** [value.trim()] is falsy exactly for a blank buffer. *)
Lemma trim_truthy (s : jsstring) :
  str_truthy (trim s) = negb (blank_text s).
Proof.
  unfold trim.
  pose proof (trimEnd_nil_iff (trimStart s)) as H.
  rewrite trimStart_keeps_blankness in H.
  destruct (blank_text s).
  - now rewrite (proj2 H eq_refl).
  - destruct (trimEnd (trimStart s)); [| reflexivity].
    destruct H as [H _]. now specialize (H eq_refl).
Qed.

Lemma onChange_fold (typed : list jsstring) :
  forall (app : Raw.App) (x y : number) (v : jsstring),
    Raw.editingText (Raw.canvas app) = Some (Raw.mkEditing x y v) ->
    Raw.page (fold_left (fun a s => Raw.onChange s a) typed app) = Raw.page app
    /\ Raw.editingText
         (Raw.canvas (fold_left (fun a s => Raw.onChange s a) typed app))
       = Some (Raw.mkEditing x y (default v (last typed))).
Proof.
  induction typed as [| s typed IH]; intros app x y v He; cbn [fold_left].
  - auto.
  - assert (Hstep : Raw.onChange s app
                    = Raw.mkApp (Raw.page app)
                        (Raw.setEditingText (Some (Raw.mkEditing x y s))
                                            (Raw.canvas app))).
    { unfold Raw.onChange. now rewrite He. }
    rewrite Hstep.
    destruct (IH (Raw.mkApp (Raw.page app)
                    (Raw.setEditingText (Some (Raw.mkEditing x y s))
                                        (Raw.canvas app))) x y s eq_refl)
      as (Hp & Hv).
    rewrite Hp, Hv. split; [reflexivity |].
    destruct typed as [| s' typed']; [reflexivity |].
    rewrite last_cons_cons.
    destruct (last (s' :: typed')) eqn:El; [reflexivity |].
    apply last_None in El. discriminate.
Qed.

Lemma endEdit_is_onBlur (e : Raw.EditEnd) (app : Raw.App) :
  Raw.endEdit e app = Raw.onBlur app.
Proof.
  destruct e; [reflexivity |]. unfold Raw.endEdit, Raw.onKeyDown.
  now rewrite bool_decide_eq_true_2.
Qed.

End TextFacts.

(** C10.  A text-tool click at [pos], any typing, and the end of the
    session by blur or Enter: with a buffer that is empty or all white space
    the page (scene, history, cursor) is what it was; otherwise the text
    element with the buffer as entered, font size 24, at [pos], in the
    current colour, is appended to the scene and that scene is committed as
    the new last snapshot.  Either way the editor is closed. *)
Theorem text_session_commits_only_nonblank_text
        (Math_sqrt : number -> number)
        (isPointInStroke : number -> list Point -> Point -> bool)
        (app : Raw.App) (pos : Point)
        (typed : list jsstring) (e : Raw.EditEnd) :
  Page.activeTool (Raw.page app) = tool_text ->
  let pg := Raw.page app in
  let value := finalBuffer typed in
  let el := Text (px pos) (py pos) value 24 (Page.currentColor pg) in
  let app' := Raw.textSession Math_sqrt isPointInStroke pos typed e app in
  Raw.editingText (Raw.canvas app') = None
  /\ (blank_text value = true -> Raw.page app' = pg)
  /\ (blank_text value = false ->
      Raw.page app' = Page.handleAddElement el pg
      /\ Page.elements (Raw.page app') = Page.elements pg ++ [el]
      /\ Page.history (Raw.page app')
         = take (Page.historyIndex pg + 1) (Page.history pg)
           ++ [Page.elements pg ++ [el]]
      /\ Page.historyIndex (Raw.page app')
         = length (Page.history (Raw.page app')) - 1).
Proof.
  intros Htool pg value el app'.
  assert (Hdown : Raw.page (Raw.handleMouseDown Math_sqrt isPointInStroke pos None app) = pg
                  /\ Raw.editingText
                       (Raw.canvas (Raw.handleMouseDown Math_sqrt isPointInStroke pos None app))
                     = Some (Raw.mkEditing (px pos) (py pos) [])).
  { unfold Raw.handleMouseDown. rewrite Htool. cbn. auto. }
  destruct Hdown as (Hpg & Hed).
  destruct (onChange_fold typed _ _ _ _ Hed) as (Hpg' & Hed').
  rewrite Hpg in Hpg'.
  assert (Hpage : Raw.page app'
                  = if blank_text value then pg else Page.handleAddElement el pg).
  { unfold app', Raw.textSession. rewrite endEdit_is_onBlur.
    unfold Raw.onBlur. rewrite Hed'.
    cbn [Raw.et_value Raw.et_x Raw.et_y Raw.page Raw.canvas].
    rewrite Hpg', trim_truthy.
    subst value el. unfold finalBuffer.
    now destruct (blank_text (default [] (last typed))). }
  split; [| split].
  - unfold app', Raw.textSession. rewrite endEdit_is_onBlur.
    unfold Raw.onBlur. now rewrite Hed'.
  - intros Hb. now rewrite Hpage, Hb.
  - intros Hb. rewrite Hpage, Hb.
    split; [reflexivity | split; [reflexivity | split; [reflexivity |]]].
    unfold Page.handleAddElement. rewrite addToHistory_index, addToHistory_history.
    rewrite length_app; cbn. lia.
Qed.

Lemma text_session_commits_only_nonblank_text_witness :
  Page.elements
    (Raw.page (Raw.textSession sqrt_milli round_stroke (mkPoint 40 60)
                               [js "H"; js "Hi"] Raw.Enter (raw_app tool_text)))
  = [] ++ [Text 40 60 (js "Hi") 24 (js "#000000")]
  /\ Raw.page (Raw.textSession sqrt_milli round_stroke (mkPoint 40 60)
                               [js "H"; js "  "] Raw.Blur (raw_app tool_text))
     = Raw.page (raw_app tool_text).
Proof.
  split.
  - destruct (text_session_commits_only_nonblank_text
                sqrt_milli round_stroke (raw_app tool_text) (mkPoint 40 60)
                [js "H"; js "Hi"] Raw.Enter eq_refl) as (_ & _ & Hcommit).
    destruct (Hcommit eq_refl) as (_ & Hels & _). exact Hels.
  - destruct (text_session_commits_only_nonblank_text
                sqrt_milli round_stroke (raw_app tool_text) (mkPoint 40 60)
                [js "H"; js "  "] Raw.Blur eq_refl) as (_ & Hblank & _).
    exact (Hblank eq_refl).
Defined.

(* ================================================================== *)
(** * End-to-end scenarios *)
(* ================================================================== *)

(** A rectangle and a text exported on a page of 800 by 600: one document of
    that size whose canvas carries the two elements in order, and nothing
    logged. *)
Example export_rectangle_and_text :
  Server.exportPdf offline_loader sized_canvas plain_pdf
    (sceneRequest 800 600
       [sample_rect; Text 50 50 (js "Hello") 24 (js "black")])
  = Server.Pdf
      (Server.mkDocument (Server.JNumber 800) (Server.JNumber 600)
         [Server.SetFillStyle sample_red; Server.FillRect 10 10 100 100;
          Server.SetFont 24; Server.SetFillStyle (js "black");
          Server.FillText (js "Hello") 50 50])
      [].
Proof. vm_compute. reflexivity. Qed.

(** The centre of a circle hits it, and so does a point of a rectangle next
    to its origin, while the point just outside that origin does not. *)
Example hits_at_centre_and_corner :
  Raw.selectHit sqrt_milli round_stroke (mkPoint 200 200) sample_circle = true
  /\ Raw.selectHit sqrt_milli round_stroke (mkPoint 11 11) sample_rect = true
  /\ Raw.selectHit sqrt_milli round_stroke (mkPoint 9 9) sample_rect = false.
Proof. repeat split; vm_compute; reflexivity. Qed.

(** After a drag, undo goes back to the snapshot before the last commit and
    redo brings the committed scene back: the dragged position is in neither. *)
Example undo_after_drag_skips_the_drag :
  (Raw.gesture sqrt_milli round_stroke (mkPoint 50 50) [mkPoint 70 45] one_rect_app
     ≫= fun app => Page.handleUndo (Raw.page app)
     ≫= fun pg => Some (Page.elements pg)) = Some []
  /\ (Raw.gesture sqrt_milli round_stroke (mkPoint 50 50) [mkPoint 70 45] one_rect_app
        ≫= fun app => Page.applyOps [Page.Undo; Page.Redo] (Raw.page app)
        ≫= fun pg => Some (Page.elements pg)) = Some [sample_rect].
Proof. split; vm_compute; reflexivity. Qed.

(* ================================================================== *)
(** * More on the page: invariants of the history *)
(* ================================================================== *)

Section PageFacts.
Import Page.

Lemma synced_addToHistory (S : Scene) (st : PageState) :
  synced (addToHistory S st).
Proof. apply addToHistory_current. Qed.

Lemma act_keeps_synced (a : Action) (st : PageState) :
  tracked a = true -> synced st ->
  exists st', act a st = Some st' /\ synced st'.
Proof.
  intros Ht Hs. destruct a; cbn in Ht; try discriminate; cbn [act].
  - eexists; split; [reflexivity | apply synced_addToHistory].
  - eexists; split; [reflexivity | apply synced_addToHistory].
  - eexists; split; [reflexivity | apply synced_addToHistory].
  - destruct (handleUndo_wf st (synced_wf _ Hs))
      as (st1 & E & _ & _ & [-> | Hsy]); eauto.
  - destruct (handleRedo_wf st (synced_wf _ Hs))
      as (st1 & E & _ & _ & [-> | Hsy]); eauto.
  - eexists; split; [reflexivity |]. unfold onImageUpload.
    destruct (scaleDown imgWidth imgHeight). apply synced_addToHistory.
Qed.

Lemma act_keeps_wf (a : Action) (st st' : PageState) :
  wf st -> act a st = Some st' -> wf st'.
Proof.
  intros Hwf. destruct a; cbn [act].
  - intros [= <-]. apply addToHistory_wf.
  - intros [= <-]. apply addToHistory_wf.
  - intros [= <-]. apply addToHistory_wf.
  - destruct (handleUndo_wf st Hwf) as (st1 & E & Hh & Hi & _).
    rewrite E. intros [= <-]. unfold wf in *. rewrite Hh. lia.
  - destruct (handleRedo_wf st Hwf) as (st1 & E & _ & Hw & _).
    rewrite E. now intros [= <-].
  - intros Hup. destruct (onElementUpdate_history _ _ _ _ Hup) as (Hh & Hi & _).
    unfold wf. now rewrite Hh, Hi.
  - intros [= <-]. unfold onImageUpload.
    destruct (scaleDown imgWidth imgHeight). apply addToHistory_wf.
Qed.

End PageFacts.

(** X1.  Whatever sequence of add, remove, clear, undo, redo and upload is
    applied to a page whose scene is the snapshot under the cursor, every
    step succeeds and the scene shown is again the snapshot under the
    cursor.  With element updates in the sequence as well, the cursor still
    stays a valid index whenever the sequence runs through. *)
Theorem page_actions_keep_history_consistent :
  (forall (actions : list Page.Action) (st : Page.PageState),
      forallb Page.tracked actions = true -> synced st ->
      exists st', Page.run actions st = Some st' /\ synced st')
  /\ (forall (actions : list Page.Action) (st st' : Page.PageState),
         Page.wf st -> Page.run actions st = Some st' -> Page.wf st').
Proof.
  split.
  - induction actions as [| a actions IH]; intros st Ht Hs; cbn in *.
    + eauto.
    + apply andb_true_iff in Ht as [Ha Ht].
      destruct (act_keeps_synced a st Ha Hs) as (st1 & E & Hs1).
      rewrite E. now apply IH.
  - induction actions as [| a actions IH]; intros st st' Hwf; cbn.
    + now intros [= <-].
    + destruct (Page.act a st) as [st1 |] eqn:E; [| discriminate].
      apply IH. eapply act_keeps_wf; eauto.
Qed.

Lemma page_actions_keep_history_consistent_witness :
  exists st',
    Page.run [Page.AddElement sample_rect; Page.AddElement sample_circle;
              Page.UndoAction; Page.RemoveElement 0; Page.RedoAction;
              Page.ClearCanvas; Page.UndoAction]
             Page.initial = Some st'
    /\ synced st'.
Proof.
  destruct page_actions_keep_history_consistent as (Hrun & _).
  apply Hrun; reflexivity.
Defined.

(** X2.  On a page whose scene is the snapshot under the cursor, one undo
    right after a commit (an added or removed element, a cleared canvas)
    shows the scene of before the commit again, with the cursor where it
    was; the committed scene stays in the history as the one redo target. *)
Theorem undo_reverts_the_last_commit
        (st : Page.PageState) (S : Scene) :
  synced st ->
  exists st',
    Page.handleUndo (Page.addToHistory S st) = Some st'
    /\ Page.elements st' = Page.elements st
    /\ Page.historyIndex st' = Page.historyIndex st
    /\ Page.history st'
       = take (Page.historyIndex st + 1) (Page.history st) ++ [S]
    /\ Page.canRedo st' = true.
Proof.
  intros Hs. pose proof (synced_wf _ Hs) as Hwf. unfold Page.wf in Hwf.
  unfold synced in Hs. unfold Page.handleUndo.
  rewrite addToHistory_index, addToHistory_history, length_take.
  replace ((Page.historyIndex st + 1) `min` length (Page.history st))
    with (Page.historyIndex st + 1) by lia.
  destruct (Nat.ltb_spec 0 (Page.historyIndex st + 1)) as [_ | Hbad]; [| lia].
  replace (Page.historyIndex st + 1 - 1) with (Page.historyIndex st) by lia.
  rewrite lookup_app_l by (rewrite length_take; lia).
  rewrite lookup_take_lt by lia. rewrite Hs.
  eexists; split; [reflexivity |]. cbn.
  repeat split.
  unfold Page.canRedo; cbn. rewrite length_app, length_take; cbn.
  apply Nat.ltb_lt. lia.
Qed.

Lemma undo_reverts_the_last_commit_witness :
  exists st',
    Page.handleUndo (Page.clearCanvas three_elements) = Some st'
    /\ Page.elements st' = [sample_rect; sample_circle; flat_stroke].
Proof.
  destruct (undo_reverts_the_last_commit three_elements []) as (st' & E & He & _).
  - reflexivity.
  - exists st'. split; [exact E | exact He].
Defined.

(** X3.  On a page whose scene is the snapshot under the cursor, undo and
    redo are inverse to each other: when undo is enabled, redo after undo
    gives the page back, and when redo is enabled, undo after redo does. *)
Theorem undo_and_redo_are_inverse (st : Page.PageState) :
  synced st ->
  (Page.canUndo st = true ->
   exists st1, Page.handleUndo st = Some st1 /\ Page.handleRedo st1 = Some st)
  /\ (Page.canRedo st = true ->
      exists st1, Page.handleRedo st = Some st1 /\ Page.handleUndo st1 = Some st).
Proof.
  intros Hs. pose proof (synced_wf _ Hs) as Hwf.
  unfold synced in Hs. unfold Page.wf in Hwf.
  unfold Page.canUndo, Page.canRedo, Page.handleUndo, Page.handleRedo.
  split; intros Hc; rewrite Hc; apply Nat.ltb_lt in Hc.
  - destruct (lookup_lt_is_Some_2 (Page.history st) (Page.historyIndex st - 1))
      as [snap Hsnap]; [lia |].
    rewrite Hsnap. eexists; split; [reflexivity |].
    cbn [Page.history Page.historyIndex Page.setElements Page.setHistoryIndex].
    destruct (Nat.ltb_spec (Page.historyIndex st - 1)
                           (length (Page.history st) - 1)) as [_ | Hbad];
      [| lia].
    replace (Page.historyIndex st - 1 + 1) with (Page.historyIndex st) by lia.
    rewrite Hs. now destruct st.
  - destruct (lookup_lt_is_Some_2 (Page.history st) (Page.historyIndex st + 1))
      as [snap Hsnap]; [lia |].
    rewrite Hsnap. eexists; split; [reflexivity |].
    cbn [Page.history Page.historyIndex Page.setElements Page.setHistoryIndex].
    destruct (Nat.ltb_spec 0 (Page.historyIndex st + 1)) as [_ | Hbad]; [| lia].
    replace (Page.historyIndex st + 1 - 1) with (Page.historyIndex st) by lia.
    rewrite Hs. now destruct st.
Qed.

Lemma undo_and_redo_are_inverse_witness :
  exists st1,
    Page.handleUndo three_elements = Some st1
    /\ Page.handleRedo st1 = Some three_elements.
Proof.
  destruct (undo_and_redo_are_inverse three_elements eq_refl) as (Hu & _).
  exact (Hu eq_refl).
Defined.

Lemma filterIndexNe_past (index k : nat) (l : Scene) :
  index < k -> Page.filterIndexNe index k l = l.
Proof.
  revert k. induction l as [| e l IH]; intros k Hk; cbn; [reflexivity |].
  destruct (Nat.eqb_spec k index); [lia |]. rewrite IH by lia. reflexivity.
Qed.

Lemma filterIndexNe_spec (index k : nat) (l : Scene) :
  k <= index ->
  Page.filterIndexNe index k l
  = take (index - k) l ++ drop (S (index - k)) l.
Proof.
  revert k. induction l as [| e l IH]; intros k Hk; cbn [Page.filterIndexNe].
  - now rewrite take_nil, drop_nil.
  - destruct (Nat.eqb_spec k index) as [-> | Hne].
    + rewrite Nat.sub_diag. cbn. apply filterIndexNe_past. lia.
    + rewrite IH by lia.
      replace (index - k) with (S (index - S k)) by lia. reflexivity.
Qed.

(** X4.  [handleRemoveElement index] shows the scene without its element
    number [index]: the elements before it keep their place, the ones after
    it move down by one, and the length drops by one.  For an index past the
    end the scene is the same.  In every case the resulting scene is
    committed as a new last snapshot. *)
Theorem remove_drops_exactly_one_element (st : Page.PageState) (index : nat) :
  let els := Page.elements st in
  let st' := Page.handleRemoveElement index st in
  Page.elements st' = take index els ++ drop (S index) els
  /\ (index < length els ->
      length (Page.elements st') = length els - 1
      /\ (forall j, j < index -> Page.elements st' !! j = els !! j)
      /\ (forall j, index <= j -> Page.elements st' !! j = els !! S j))
  /\ (length els <= index -> Page.elements st' = els)
  /\ Page.history st'
     = take (Page.historyIndex st + 1) (Page.history st) ++ [Page.elements st']
  /\ Page.historyIndex st' = length (Page.history st') - 1.
Proof.
  intros els st'.
  assert (E : Page.elements st' = take index els ++ drop (S index) els).
  { unfold st', Page.handleRemoveElement. rewrite addToHistory_elements.
    rewrite filterIndexNe_spec by lia. now rewrite Nat.sub_0_r. }
  split; [exact E |]. split; [| split; [| split]].
  - intros Hlt. rewrite E. repeat split.
    + rewrite length_app, length_take, length_drop. lia.
    + intros j Hj. rewrite lookup_app_l by (rewrite length_take; lia).
      now apply lookup_take_lt.
    + intros j Hj. rewrite lookup_app_r by (rewrite length_take; lia).
      rewrite length_take, lookup_drop. f_equal. lia.
  - intros Hge. rewrite E, take_ge, drop_ge by lia. apply app_nil_r.
  - reflexivity.
  - unfold st', Page.handleRemoveElement.
    rewrite addToHistory_index, addToHistory_history, length_app; cbn. lia.
Qed.

Lemma remove_drops_exactly_one_element_witness :
  length (Page.elements (Page.handleRemoveElement 1 three_elements)) = 3 - 1
  /\ Page.elements (Page.handleRemoveElement 7 three_elements)
     = Page.elements three_elements.
Proof.
  split.
  - destruct (remove_drops_exactly_one_element three_elements 1)
      as (_ & Hin & _).
    destruct Hin as (Hlen & _); [cbn; lia | exact Hlen].
  - destruct (remove_drops_exactly_one_element three_elements 7)
      as (_ & _ & Hout & _).
    apply Hout. cbn. lia.
Defined.

Section UploadFacts.
Local Open Scope Q_scope.

Lemma scaleDown_spec (w h : number) :
  fst (Page.scaleDown w h) <= 400
  /\ snd (Page.scaleDown w h) * w == h * fst (Page.scaleDown w h)
  /\ (w <= 400 -> Page.scaleDown w h = (w, h))
  /\ (400 < w -> fst (Page.scaleDown w h) = 400).
Proof.
  unfold Page.scaleDown, num_gt.
  destruct (num_lt 400 w) eqn:Hw.
  - apply num_lt_iff in Hw. cbn [fst snd]. repeat split; try lra.
    field. lra.
  - apply num_lt_false_iff in Hw. cbn [fst snd]. repeat split; try lra.
Qed.

End UploadFacts.

(** X5.  Choosing a file always puts the select tool back.  A JPEG that
    decodes is added as an image at (50,50) through [handleAddElement], never
    wider than 400 and with the proportions of the decoded image (an image
    at most 400 wide keeps its size); any other file, or none, leaves scene
    and history as they were. *)
Theorem file_choice_adds_scaled_jpeg
        (file : option Controls.File) (st : Page.PageState) :
  let st' := Controls.handleFileChange file st in
  Page.activeTool st' = tool_select
  /\ (forall (f : Controls.File) (src : jsstring) (w h : number),
         file = Some f -> Controls.isJpeg (Controls.fileType f) = true ->
         Controls.decoded f = Some (src, (w, h)) ->
         exists w' h',
           Page.elements st' = Page.elements st ++ [Image 50 50 w' h' src]
           /\ Page.history st'
              = take (Page.historyIndex st + 1) (Page.history st)
                ++ [Page.elements st']
           /\ (w' <= 400)%Q
           /\ (h' * w == h * w')%Q
           /\ ((w <= 400)%Q -> w' = w /\ h' = h))
  /\ ((forall f, file = Some f -> Controls.isJpeg (Controls.fileType f) = false) ->
      Page.elements st' = Page.elements st
      /\ Page.history st' = Page.history st
      /\ Page.historyIndex st' = Page.historyIndex st).
Proof.
  intros st'. split; [reflexivity |]. split.
  - intros f src w h -> Hj Hd. unfold st', Controls.handleFileChange.
    rewrite Hj, Hd. unfold Page.onImageUpload.
    destruct (scaleDown_spec w h) as (Hw & Hr & Hsmall & _).
    destruct (Page.scaleDown w h) as [w' h'] eqn:E; cbn [fst snd] in *.
    exists w', h'.
    split; [reflexivity |]. split; [reflexivity |].
    split; [exact Hw |]. split; [exact Hr |].
    intros Hle. specialize (Hsmall Hle). now injection Hsmall.
  - intros Hno. unfold st', Controls.handleFileChange.
    destruct file as [f |]; [rewrite (Hno f eq_refl) |]; now repeat split.
Qed.

Lemma file_choice_adds_scaled_jpeg_witness :
  exists w' h',
    Page.elements
      (Controls.handleFileChange
         (Some (Controls.mkFile (js "image/jpeg")
                                (Some (js "data:image/jpeg;base64,AAAA",
                                       (800%Q, 600%Q)))))
         Page.initial)
    = [] ++ [Image 50 50 w' h' (js "data:image/jpeg;base64,AAAA")]
    /\ (w' <= 400)%Q.
Proof.
  destruct (file_choice_adds_scaled_jpeg
              (Some (Controls.mkFile (js "image/jpeg")
                                     (Some (js "data:image/jpeg;base64,AAAA",
                                            (800%Q, 600%Q)))))
              Page.initial) as (_ & Hjpeg & _).
  destruct (Hjpeg _ _ _ _ eq_refl eq_refl eq_refl)
    as (w' & h' & He & _ & Hw & _).
  exists w', h'. split; [exact He | exact Hw].
Defined.

(* ================================================================== *)
(** * More on the raw canvas: picking, erasing, resizing, drawing *)
(* ================================================================== *)

Section PickFacts.

Lemma topmostHit_Some_iff hit (els : Scene) n i el :
  Raw.topmostHit hit els n = Some (i, el)
  <-> i < n /\ els !! i = Some el /\ hit el = true
      /\ forall j e, i < j -> j < n -> els !! j = Some e -> hit e = false.
Proof.
  induction n as [| n IH]; cbn [Raw.topmostHit].
  - split; [discriminate | intros (H & _); lia].
  - destruct (els !! n) as [e |] eqn:E.
    + destruct (hit e) eqn:Hhit.
      * split.
        -- intros [= <- <-]. repeat split; auto. intros; lia.
        -- intros (Hi & Hl & Hh & Habove).
           destruct (Nat.eq_dec i n) as [-> | Hne].
           ++ congruence.
           ++ assert (hit e = false) by (apply (Habove n e); auto; lia).
              congruence.
      * rewrite IH. split.
        -- intros (Hi & Hl & Hh & Habove). repeat split; auto.
           intros j e' Hij Hj Hje.
           destruct (Nat.eq_dec j n) as [-> | Hne]; [congruence |].
           apply (Habove j e'); auto; lia.
        -- intros (Hi & Hl & Hh & Habove).
           assert (i <> n) by congruence.
           repeat split; auto; [lia |].
           intros j e' Hij Hj. apply Habove; lia.
    + rewrite IH. split.
      * intros (Hi & Hl & Hh & Habove). repeat split; auto.
        intros j e' Hij Hj Hje.
        destruct (Nat.eq_dec j n) as [-> | Hne]; [congruence |].
        apply (Habove j e'); auto; lia.
      * intros (Hi & Hl & Hh & Habove).
        assert (i <> n) by congruence.
        repeat split; auto; [lia |].
        intros j e' Hij Hj. apply Habove; lia.
Qed.

Lemma topmostHit_None_iff hit (els : Scene) n :
  Raw.topmostHit hit els n = None
  <-> forall j e, j < n -> els !! j = Some e -> hit e = false.
Proof.
  induction n as [| n IH]; cbn [Raw.topmostHit].
  - split; [intros _ j e Hj; lia | reflexivity].
  - destruct (els !! n) as [e |] eqn:E.
    + destruct (hit e) eqn:Hhit.
      * split; [discriminate |]. intros H.
        specialize (H n e (Nat.lt_succ_diag_r n) E). congruence.
      * rewrite IH. split.
        -- intros H j e' Hj Hje.
           destruct (Nat.eq_dec j n) as [-> | Hne]; [congruence |].
           apply (H j e'); auto; lia.
        -- intros H j e' Hj. apply H. lia.
    + rewrite IH. split.
      * intros H j e' Hj Hje.
        destruct (Nat.eq_dec j n) as [-> | Hne]; [congruence |].
        apply (H j e'); auto; lia.
      * intros H j e' Hj. apply H. lia.
Qed.

End PickFacts.

(** X6.  The backwards loop of both hit tests finds the element on top:
    it returns index [i] exactly when element [i] is hit and no element
    after it in the scene is, and it finds nothing exactly when no element
    of the scene is hit. *)
Theorem topmost_hit_is_the_last_hit_element
        (hit : CanvasElement -> bool) (els : Scene) :
  (forall i el,
      Raw.topmostHit hit els (length els) = Some (i, el)
      <-> els !! i = Some el /\ hit el = true
          /\ forall j e, i < j -> els !! j = Some e -> hit e = false)
  /\ (Raw.topmostHit hit els (length els) = None
      <-> forall e, In e els -> hit e = false).
Proof.
  split.
  - intros i el. rewrite topmostHit_Some_iff. split.
    + intros (_ & Hl & Hh & Habove). repeat split; auto.
      intros j e Hij Hje. apply (Habove j e); auto.
      now apply lookup_lt_Some in Hje.
    + intros (Hl & Hh & Habove). repeat split; auto.
      * eapply lookup_lt_Some; eauto.
      * intros j e Hij _. now apply Habove.
  - rewrite topmostHit_None_iff. split.
    + intros H e Hin. apply list_elem_of_In, list_elem_of_lookup in Hin.
      destruct Hin as (j & Hj). apply (H j e); auto.
      now apply lookup_lt_Some in Hj.
    + intros H j e _ Hje. apply H.
      apply list_elem_of_In, list_elem_of_lookup. eauto.
Qed.

Lemma topmost_hit_is_the_last_hit_element_witness :
  [sample_rect; sample_circle; flat_stroke] !! 1 = Some sample_circle
  /\ Raw.selectHit sqrt_milli round_stroke (mkPoint 200 200) sample_circle = true.
Proof.
  destruct (topmost_hit_is_the_last_hit_element
              (Raw.selectHit sqrt_milli round_stroke (mkPoint 200 200))
              [sample_rect; sample_circle; flat_stroke]) as (Hsome & _).
  destruct (proj1 (Hsome 1 sample_circle)) as (Hl & Hh & _).
  - vm_compute. reflexivity.
  - split; [exact Hl | exact Hh].
Defined.

(** X7.  An eraser click removes the topmost element under the pointer and
    nothing else: the scene loses that one element, the new scene is
    committed, the canvas state is untouched.  A click that hits no element
    changes nothing at all. *)
Theorem eraser_click_removes_the_topmost_hit
        (Math_sqrt : number -> number)
        (isPointInStroke : number -> list Point -> Point -> bool)
        (app : Raw.App) (pos : Point)
        (reply : option jsstring) :
  Page.activeTool (Raw.page app) = tool_eraser ->
  let els := Page.elements (Raw.page app) in
  let app' := Raw.handleMouseDown Math_sqrt isPointInStroke pos reply app in
  (forall i el,
      els !! i = Some el -> Raw.eraserHit Math_sqrt isPointInStroke pos el = true ->
      (forall j e, i < j -> els !! j = Some e ->
                   Raw.eraserHit Math_sqrt isPointInStroke pos e = false) ->
      Raw.page app' = Page.handleRemoveElement i (Raw.page app)
      /\ Page.elements (Raw.page app') = take i els ++ drop (S i) els
      /\ length (Page.elements (Raw.page app')) = length els - 1
      /\ Raw.canvas app' = Raw.canvas app)
  /\ ((forall e, In e els -> Raw.eraserHit Math_sqrt isPointInStroke pos e = false) ->
      app' = app).
Proof.
  intros Htool els app'. split.
  - intros i el Hl Hh Habove.
    assert (Hpick : Raw.topmostHit (Raw.eraserHit Math_sqrt isPointInStroke pos) els (length els)
                    = Some (i, el)).
    { apply topmostHit_Some_iff. repeat split; auto.
      - now apply lookup_lt_Some in Hl.
      - intros j e Hij _. now apply Habove. }
    assert (E : app' = Raw.mkApp (Page.handleRemoveElement i (Raw.page app))
                                 (Raw.canvas app)).
    { unfold app', Raw.handleMouseDown. rewrite Htool. fold els.
      now rewrite Hpick. }
    rewrite E; cbn [Raw.page Raw.canvas].
    assert (Hels : Page.elements (Page.handleRemoveElement i (Raw.page app))
                   = take i els ++ drop (S i) els).
    { unfold Page.handleRemoveElement. rewrite addToHistory_elements.
      rewrite filterIndexNe_spec by lia. now rewrite Nat.sub_0_r. }
    repeat split; auto.
    rewrite Hels, length_app, length_take, length_drop.
    apply lookup_lt_Some in Hl. lia.
  - intros Hmiss.
    assert (Hpick : Raw.topmostHit (Raw.eraserHit Math_sqrt isPointInStroke pos) els (length els)
                    = None).
    { apply topmostHit_None_iff. intros j e _ Hje. apply Hmiss.
      apply list_elem_of_In, list_elem_of_lookup. eauto. }
    unfold app', Raw.handleMouseDown. rewrite Htool. fold els.
    now rewrite Hpick.
Qed.

Lemma eraser_click_removes_the_topmost_hit_witness :
  Page.elements
    (Raw.page
       (Raw.handleMouseDown sqrt_milli round_stroke (mkPoint 200 200) None
          (Raw.mkApp (Page.setActiveTool tool_eraser three_elements) Raw.idle)))
  = take 1 [sample_rect; sample_circle; flat_stroke]
    ++ drop 2 [sample_rect; sample_circle; flat_stroke].
Proof.
  destruct (eraser_click_removes_the_topmost_hit
              sqrt_milli round_stroke
              (Raw.mkApp (Page.setActiveTool tool_eraser three_elements) Raw.idle)
              (mkPoint 200 200) None eq_refl) as (Hhit & _).
  destruct (Hhit 1 sample_circle eq_refl) as (_ & He & _).
  - vm_compute. reflexivity.
  - intros j e Hj Hl. destruct j as [| [| [| j]]]; try lia.
    + injection Hl as <-. vm_compute. reflexivity.
    + discriminate Hl.
  - exact He.
Defined.

Section ResizeFacts.
Import Page.
Variable Math_sqrt : number -> number.
Variable isPointInStroke : number -> list Point -> Point -> bool.

Lemma grabbedHandle_Some (app : Raw.App) (p0 : Point) handle el :
  Raw.grabbedHandle p0 app = Some (handle, el) ->
  exists i,
    Raw.selectedIndex (Raw.canvas app) = Some i
    /\ elements (Raw.page app) !! i = Some el
    /\ Raw.getResizeHandle (px p0) (py p0) el = Some handle.
Proof.
  unfold Raw.grabbedHandle.
  destruct (Raw.selectedIndex (Raw.canvas app)) as [i |]; [| discriminate].
  destruct (elements (Raw.page app) !! i) as [e |] eqn:E; [| discriminate].
  destruct (Raw.getResizeHandle (px p0) (py p0) e) as [hd |] eqn:Eh;
    [| discriminate].
  intros [= <- <-]. eauto.
Qed.

(** Only rectangles, images and circles have handles, and those are the
    shapes the resize branch knows how to resize. *)
Lemma resized_defined x y el h0 handle dx dy :
  Raw.getResizeHandle x y el = Some h0 ->
  exists r, Raw.resized handle el dx dy = Some r.
Proof.
  destruct el as [ex ey w h c | ex ey r c | | ex ey w h c |]; cbn;
    try discriminate; intros _.
  - destruct (Raw.resizedBox handle ex ey w h dx dy) as [[[? ?] ?] ?]. eauto.
  - eauto.
  - destruct (Raw.resizedBox handle ex ey w h dx dy) as [[[? ?] ?] ?]. eauto.
Qed.

Lemma handleMouseMove_resize (app : Raw.App) (p : Point) handle i p0 el r :
  resizing (Raw.canvas app) handle i p0 el ->
  Raw.resized handle el (px p - px p0) (py p - py p0) = Some r ->
  i < length (elements (Raw.page app)) ->
  Raw.handleMouseMove p app
  = Some (Raw.mkApp (setElements (<[i := r]> (elements (Raw.page app)))
                                 (Raw.page app))
                    (Raw.canvas app)).
Proof.
  intros (Hd & Hr & Hs & Hp & Hi) Hres Hlt. unfold Raw.handleMouseMove.
  rewrite Hd, Hr, Hs, Hp, Hi, Hres. unfold Raw.update.
  now rewrite onElementUpdate_inside.
Qed.

Lemma moves_resize (ps : list Point) :
  forall (app : Raw.App) (els : Scene) handle i p0 el e h0,
    resizing (Raw.canvas app) handle i p0 el ->
    Raw.getResizeHandle (px p0) (py p0) el = Some h0 ->
    i < length els ->
    elements (Raw.page app) = <[i := e]> els ->
    exists app',
      Raw.moves ps app = Some app'
      /\ Raw.canvas app' = Raw.canvas app
      /\ history (Raw.page app') = history (Raw.page app)
      /\ historyIndex (Raw.page app') = historyIndex (Raw.page app)
      /\ elements (Raw.page app')
         = <[i := match last ps with
                  | Some p =>
                      default e (Raw.resized handle el (px p - px p0)
                                             (py p - py p0))
                  | None => e
                  end]> els.
Proof.
  induction ps as [| p ps IH];
    intros app els handle i p0 el e h0 Hres Hh Hlt Hels.
  - exists app. cbn. auto 10.
  - cbn [Raw.moves].
    destruct (resized_defined _ _ _ _ handle (px p - px p0) (py p - py p0) Hh)
      as (r & Hr).
    rewrite (handleMouseMove_resize app p handle i p0 el r Hres Hr)
      by (rewrite Hels, length_insert; exact Hlt).
    rewrite Hels, list_insert_insert_eq.
    edestruct (IH (Raw.mkApp (setElements (<[i := r]> els) (Raw.page app))
                             (Raw.canvas app)) els handle i p0 el r h0)
      as (app' & E & Hc & Hhist & Hx & He); cbn; eauto.
    exists app'. repeat split; auto.
    rewrite He.
    destruct ps as [| q qs]; [cbn; now rewrite Hr |].
    rewrite last_cons_cons.
    destruct (last (q :: qs)) as [q' |] eqn:El.
    + destruct (resized_defined _ _ _ _ handle (px q' - px p0) (py q' - py p0) Hh)
        as (r' & Hr').
      now rewrite Hr'.
    + apply last_None in El. discriminate.
Qed.

End ResizeFacts.

(** X8.  With the select tool and no drag under way, a press on a resize
    handle of the selected element, moves ending at [pn], and the release:
    the scene shown holds, at the index of the selection, the element as it
    was at the press resized by the net pointer delta, every other element
    as before; history and cursor are untouched and the canvas is neither
    resizing nor dragging afterwards.  For a rectangle the edges next to the
    grabbed corner move by the delta and the two opposite edges stay put;
    for a circle the centre stays and the radius grows by half of [dx]. *)
Theorem resize_gesture_moves_the_grabbed_corner
        (Math_sqrt : number -> number)
        (isPointInStroke : number -> list Point -> Point -> bool)
        (app : Raw.App)
        (p0 pn : Point) (ps : list Point) (handle : Raw.Handle) (i : nat)
        (el : CanvasElement) :
  Page.activeTool (Raw.page app) = tool_select ->
  Raw.isDragging (Raw.canvas app) = false ->
  Raw.selectedIndex (Raw.canvas app) = Some i ->
  Raw.grabbedHandle p0 app = Some (handle, el) ->
  let dx := (px pn - px p0)%Q in
  let dy := (py pn - py p0)%Q in
  exists (r : CanvasElement) (app' : Raw.App),
    Raw.resized handle el dx dy = Some r
    /\ Raw.gesture Math_sqrt isPointInStroke p0 (ps ++ [pn]) app = Some app'
    /\ Page.elements (Raw.page app') = <[i := r]> (Page.elements (Raw.page app))
    /\ Page.history (Raw.page app') = Page.history (Raw.page app)
    /\ Page.historyIndex (Raw.page app') = Page.historyIndex (Raw.page app)
    /\ Raw.isResizing (Raw.canvas app') = None
    /\ Raw.isDragging (Raw.canvas app') = false
    /\ match el, r with
       | Rect x y w h _, Rect x' y' w' h' _ =>
           match handle with
           | Raw.SE => x' == x /\ y' == y
                       /\ x' + w' == x + w + dx /\ y' + h' == y + h + dy
           | Raw.SW => x' == x + dx /\ y' == y
                       /\ x' + w' == x + w /\ y' + h' == y + h + dy
           | Raw.NW => x' == x + dx /\ y' == y + dy
                       /\ x' + w' == x + w /\ y' + h' == y + h
           | Raw.NE => x' == x /\ y' == y + dy
                       /\ x' + w' == x + w + dx /\ y' + h' == y + h
           end%Q
       | Circle x y radius _, Circle x' y' radius' _ =>
           (x' == x /\ y' == y /\ radius' == radius + dx / 2)%Q
       | _, _ => True
       end.
Proof.
  intros Htool Hnodrag Hsel Hgrab dx dy.
  destruct (grabbedHandle_Some app p0 handle el Hgrab) as (i' & Hsel' & Hl & Hh).
  assert (i' = i) by congruence. subst i'.
  pose proof (lookup_lt_Some _ _ _ Hl) as Hlt.
  assert (Hdown : Raw.page (Raw.handleMouseDown Math_sqrt isPointInStroke p0 None app)
                  = Raw.page app
                  /\ resizing (Raw.canvas (Raw.handleMouseDown Math_sqrt isPointInStroke p0 None app))
                              handle i p0 el).
  { unfold Raw.handleMouseDown. rewrite Htool, Hgrab. cbn.
    unfold resizing; cbn. auto 10. }
  destruct Hdown as (Hpg & Hres).
  destruct (resized_defined _ _ _ _ handle dx dy Hh) as (r & Hr).
  destruct (moves_resize (ps ++ [pn]) (Raw.handleMouseDown Math_sqrt isPointInStroke p0 None app)
                         (Page.elements (Raw.page app)) handle i p0 el el handle)
    as (mid & E & Hc & Hhist & Hidx & He); auto.
  { rewrite Hpg. symmetry. now apply list_insert_id. }
  rewrite last_snoc in He. fold dx dy in He. rewrite Hr in He; cbn in He.
  exists r, (Raw.handleMouseUp Math_sqrt mid).
  assert (Hup : Raw.handleMouseUp Math_sqrt mid
                = Raw.mkApp (Raw.page mid)
                    (Raw.setInitialElementState None
                       (Raw.setStartPos None
                          (Raw.setIsResizing None
                             (Raw.setIsDragging false (Raw.canvas mid)))))).
  { unfold Raw.handleMouseUp. rewrite Hc.
    destruct Hres as (Hd & Hrz & _). now rewrite Hd, Hrz. }
  rewrite Hup; cbn [Raw.page Raw.canvas].
  rewrite Hpg in Hhist, Hidx.
  split; [exact Hr |]. split; [unfold Raw.gesture; now rewrite E, Hup |].
  split; [exact He |]. split; [exact Hhist |]. split; [exact Hidx |].
  split; [reflexivity |]. split; [reflexivity |].
  destruct el as [x y w h c | x y rad c | | x y w h c |]; cbn in Hr;
    try discriminate Hr.
  - destruct handle; cbn in Hr; injection Hr as <-; cbv beta iota;
      repeat split; ring.
  - injection Hr as <-. cbv beta iota. repeat split; reflexivity.
  - destruct handle; cbn in Hr; injection Hr as <-; exact I.
Qed.

Lemma resize_gesture_moves_the_grabbed_corner_witness :
  exists app',
    Raw.gesture sqrt_milli round_stroke (mkPoint 110 110) [mkPoint 120 115; mkPoint 130 125]
      (Raw.mkApp (Page.handleAddElement sample_rect Page.initial)
                 (Raw.setSelectedIndex (Some 0) Raw.idle))
    = Some app'
    /\ Page.history (Raw.page app') = [[]; [sample_rect]].
Proof.
  destruct (resize_gesture_moves_the_grabbed_corner
              sqrt_milli round_stroke
              (Raw.mkApp (Page.handleAddElement sample_rect Page.initial)
                         (Raw.setSelectedIndex (Some 0) Raw.idle))
              (mkPoint 110 110) (mkPoint 130 125) [mkPoint 120 115]
              Raw.SE 0 sample_rect eq_refl eq_refl eq_refl)
    as (r & app' & _ & Hg & _ & Hh & _).
  - vm_compute. reflexivity.
  - exists app'. split; [exact Hg | exact Hh].
Defined.

Section RawDrawFacts.
Import Page.
Variable Math_sqrt : number -> number.
Variable isPointInStroke : number -> list Point -> Point -> bool.

(** The canvas state while a shape is being drawn from [p0]. *)
Lemma moves_drawing (ps : list Point) :
  forall (app : Raw.App) (p0 cp : Point) (path : list Point),
    pointerFree (Raw.canvas app) ->
    Raw.isDrawing (Raw.canvas app) = true ->
    Raw.startPos (Raw.canvas app) = Some p0 ->
    Raw.currentPos (Raw.canvas app) = Some cp ->
    Raw.currentPath (Raw.canvas app) = path ->
    exists app',
      Raw.moves ps app = Some app'
      /\ Raw.page app' = Raw.page app
      /\ pointerFree (Raw.canvas app')
      /\ Raw.isDrawing (Raw.canvas app') = true
      /\ Raw.startPos (Raw.canvas app') = Some p0
      /\ Raw.currentPos (Raw.canvas app') = Some (default cp (last ps))
      /\ Raw.currentPath (Raw.canvas app')
         = match activeTool (Raw.page app) with
           | tool_pencil => path ++ ps
           | _ => path
           end.
Proof.
  induction ps as [| p ps IH]; intros app p0 cp path Hfree Hd Hs Hc Hp.
  - exists app. cbn. rewrite app_nil_r.
    repeat split; auto; try apply Hfree.
    now destruct (activeTool (Raw.page app)).
  - cbn [Raw.moves]. destruct Hfree as (Hnd & Hnr).
    unfold Raw.handleMouseMove. rewrite Hnd, Hnr, Hd. cbn [negb].
    destruct (activeTool (Raw.page app)) eqn:Htool;
      (edestruct IH as (app' & E & Hpg & Hfree' & Hd' & Hs' & Hc' & Hp');
       [ | | | | | rewrite E; exists app'; cbn in *;
                   rewrite ?Htool in *;
                   repeat split; try apply Hfree'; eauto ];
       cbn; try split; eauto);
      try (rewrite Hc'; destruct ps as [| q qs]; [reflexivity |];
           rewrite last_cons_cons;
           destruct (last (q :: qs)) eqn:El; [reflexivity |];
           apply last_None in El; discriminate).
    rewrite Hp', Hp. now rewrite <- app_assoc.
Qed.

End RawDrawFacts.

(** X9.  On the raw canvas, with no drag or resize under way, a press,
    any moves and the release with the rectangle, circle or pencil tool
    always commit exactly one element through [handleAddElement]: the
    rectangle from the press point to the last position, the circle around
    the press point through the last position, or the path made of the
    press point followed by every position moved through.  The drawing
    state is cleared afterwards. *)
Theorem raw_drawing_gesture_commits_the_shape
        (Math_sqrt : number -> number)
        (isPointInStroke : number -> list Point -> Point -> bool)
        (app : Raw.App)
        (p0 : Point) (ps : list Point) (shape : CanvasElement) :
  pointerFree (Raw.canvas app) ->
  rawDrawnShape Math_sqrt (Raw.page app) p0 ps = Some shape ->
  exists app',
    Raw.gesture Math_sqrt isPointInStroke p0 ps app = Some app'
    /\ Raw.page app' = Page.handleAddElement shape (Raw.page app)
    /\ Page.elements (Raw.page app') = Page.elements (Raw.page app) ++ [shape]
    /\ Raw.isDrawing (Raw.canvas app') = false
    /\ Raw.startPos (Raw.canvas app') = None
    /\ Raw.currentPos (Raw.canvas app') = None.
Proof.
  intros Hfree Hshape.
  set (app1 := Raw.handleMouseDown Math_sqrt isPointInStroke p0 None app).
  assert (Hdown : Raw.page app1 = Raw.page app
                  /\ pointerFree (Raw.canvas app1)
                  /\ Raw.isDrawing (Raw.canvas app1) = true
                  /\ Raw.startPos (Raw.canvas app1) = Some p0
                  /\ Raw.currentPos (Raw.canvas app1) = Some p0
                  /\ (Page.activeTool (Raw.page app) = tool_pencil ->
                      Raw.currentPath (Raw.canvas app1) = [p0])).
  { unfold app1, Raw.handleMouseDown, rawDrawnShape in *.
    destruct Hfree as (Hnd & Hnr).
    destruct (Page.activeTool (Raw.page app)); try discriminate;
      cbn; unfold pointerFree; cbn; repeat split; auto; discriminate. }
  destruct Hdown as (Hpg & Hfree1 & Hd1 & Hs1 & Hc1 & Hp1).
  destruct (moves_drawing ps app1 p0 p0 (Raw.currentPath (Raw.canvas app1))
                          Hfree1 Hd1 Hs1 Hc1 eq_refl)
    as (mid & E & Hpgm & (Hnd & Hnr) & Hdm & Hsm & Hcm & Hpm).
  rewrite Hpg in Hpgm, Hpm.
  exists (Raw.handleMouseUp Math_sqrt mid).
  split; [unfold Raw.gesture; fold app1; now rewrite E |].
  unfold Raw.handleMouseUp. rewrite Hnd, Hnr, Hdm, Hsm, Hcm, Hpgm.
  cbn [orb negb]. rewrite bool_decide_eq_false_2 by auto.
  unfold rawDrawnShape in Hshape.
  destruct (Page.activeTool (Raw.page app)) eqn:Htool; try discriminate;
    injection Hshape as <-; cbn; rewrite ?Hpm, ?(Hp1 eq_refl);
    repeat split; reflexivity.
Qed.

Lemma raw_drawing_gesture_commits_the_shape_witness :
  exists app',
    Raw.gesture sqrt_milli round_stroke (mkPoint 0 0) [mkPoint 3 4; mkPoint 6 8]
                (raw_app tool_pencil) = Some app'
    /\ Page.elements (Raw.page app')
       = [] ++ [Path [mkPoint 0 0; mkPoint 3 4; mkPoint 6 8] (js "#000000") 2].
Proof.
  destruct (raw_drawing_gesture_commits_the_shape
              sqrt_milli round_stroke (raw_app tool_pencil) (mkPoint 0 0)
              [mkPoint 3 4; mkPoint 6 8]
              (Path [mkPoint 0 0; mkPoint 3 4; mkPoint 6 8] (js "#000000") 2))
    as (app' & Hg & _ & He & _).
  - split; reflexivity.
  - reflexivity.
  - exists app'. split; [exact Hg | exact He].
Defined.

Section HandleFacts.
Local Open Scope Q_scope.

Lemma firstHandle_hit (x y : number) (hs : list (Raw.Handle * (number * number)))
      (id : Raw.Handle) (hx hy : number) :
  In (id, (hx, hy)) hs -> Raw.onHandle x y hx hy = true ->
  exists handle, Raw.firstHandle x y hs = Some handle.
Proof.
  induction hs as [| [id' [hx' hy']] hs IH]; cbn; [tauto |].
  intros [Heq | Hin] Hon.
  - injection Heq as -> -> ->. rewrite Hon. eauto.
  - destruct (Raw.onHandle x y hx' hy'); eauto.
Qed.

Lemma onHandle_drawn_square (x y hx hy : number) :
  hx - Raw.HANDLE_SIZE / 2 <= x -> x <= hx - Raw.HANDLE_SIZE / 2 + Raw.HANDLE_SIZE ->
  hy - Raw.HANDLE_SIZE / 2 <= y -> y <= hy - Raw.HANDLE_SIZE / 2 + Raw.HANDLE_SIZE ->
  Raw.onHandle x y hx hy = true.
Proof.
  assert (E : Raw.HANDLE_SIZE / 2 == 4) by reflexivity.
  rewrite !E. unfold Raw.onHandle, Raw.HANDLE_SIZE. intros.
  bool_to_Q. repeat split; lra.
Qed.

End HandleFacts.

(** X10.  Every point of a handle square that the redraw effect paints
    around the selected element is a point at which a press grabs a resize
    handle of that element; and an element for which no square is painted
    (a text, a path) has no handle anywhere. *)
Theorem drawn_handles_are_grabbable
        (el : CanvasElement) (l t s x y : number) :
  (In (l, t, s) (RawView.drawnHandles el) ->
   (l <= x)%Q -> (x <= l + s)%Q -> (t <= y)%Q -> (y <= t + s)%Q ->
   exists handle, Raw.getResizeHandle x y el = Some handle)
  /\ (RawView.drawnHandles el = [] -> Raw.getResizeHandle x y el = None).
Proof.
  split.
  - intros Hin Hl Hr Ht Hb. unfold Raw.getResizeHandle.
    destruct el as [ex ey w h c | ex ey r c | ex ey tx f c | ex ey w h c
                   | pts c sw];
      cbn in Hin; try tauto; cbn [Raw.handlesOf];
      destruct Hin as [H | [H | [H | [H | []]]]]; injection H as <- <- <-;
      ( eapply firstHandle_hit;
        [ | apply onHandle_drawn_square; eassumption ];
        cbn; tauto ).
  - destruct el; cbn; try discriminate; reflexivity.
Qed.

Lemma drawn_handles_are_grabbable_witness :
  exists handle, Raw.getResizeHandle 108 113 sample_rect = Some handle.
Proof.
  destruct (drawn_handles_are_grabbable
              sample_rect (110 - 8 / 2) (110 - 8 / 2) 8 108 113) as (Hgrab & _).
  apply Hgrab.
  - cbn. right. right. right. left. reflexivity.
  - vm_compute. discriminate.
  - vm_compute. discriminate.
  - vm_compute. discriminate.
  - vm_compute. discriminate.
Defined.

(* ================================================================== *)
(** * More on rendering and export *)
(* ================================================================== *)

Section RenderFacts.
Variable complete : jsstring -> bool.
Variable loadImage : Server.ImageSource -> unit + jsstring.

Lemma plainElement_painted_alike (el : CanvasElement) :
  plainElement el = true ->
  RawView.drawElement complete el = painted loadImage el
  /\ reported loadImage el = [].
Proof.
  unfold painted, reported.
  destruct el as [x y w h c | x y r c | x y t f c | x y w h src | pts c sw];
    cbn; try discriminate; auto.
  intros Hsw. apply negb_true_iff in Hsw.
  destruct pts as [| a [| b rest]]; cbn; auto.
  unfold num_or. rewrite Hsw. auto.
Qed.

Lemma reported_length (el : CanvasElement) :
  length (reported loadImage el)
  = match el with
    | Image _ _ _ _ src =>
        match loadImage (Server.imageSourceOf src) with
        | inl _ => 0
        | inr _ => 1
        end
    | _ => 0
    end.
Proof.
  unfold reported.
  destruct el as [x y w h c | x y r c | x y t f c | x y w h src | pts c sw];
    cbn; auto.
  - now destruct (loadImage (Server.imageSourceOf src)).
  - now destruct pts as [| a [| b rest]].
Qed.

End RenderFacts.

Lemma failing_images_count
      (loadImage : Server.ImageSource -> unit + jsstring) (els : Scene) :
  length (concat (map (reported loadImage) els))
  = length (List.filter (failsToLoad loadImage) els).
Proof.
  induction els as [| el els IH]; [reflexivity |].
  cbn [map concat]. rewrite length_app, IH, reported_length.
  destruct el as [x y w h c | x y r c | x y t f c | x y w h src | pts c sw];
    cbn; auto.
  destruct (loadImage (Server.imageSourceOf src)); reflexivity.
Qed.

(** X11.  For a scene without images and without paths of stroke width
    zero, the redraw effect of the raw canvas makes exactly the context
    calls [drawElements] makes on the server, in the same order, and the
    server logs nothing: what is exported is what is shown. *)
Theorem canvas_and_export_paint_alike
        (complete : jsstring -> bool)
        (loadImage : Server.ImageSource -> unit + jsstring) (els : Scene) :
  forallb plainElement els = true ->
  RawView.drawScene complete els
  = Server.ops (Server.drawElements loadImage els Server.blank)
  /\ Server.console (Server.drawElements loadImage els Server.blank) = [].
Proof.
  intros Hplain. rewrite drawElements_appends; cbn.
  unfold RawView.drawScene.
  induction els as [| el els IH]; [auto |].
  cbn in Hplain. apply andb_true_iff in Hplain as [Hel Hels].
  destruct (plainElement_painted_alike complete loadImage el Hel) as (Hp & Hr).
  destruct (IH Hels) as (IHp & IHr).
  cbn [map concat]. rewrite Hp, Hr, IHp, IHr. auto.
Qed.

Lemma canvas_and_export_paint_alike_witness :
  RawView.drawScene (fun _ => false) [sample_rect; sample_circle; flat_stroke]
  = Server.ops (Server.drawElements offline_loader
                  [sample_rect; sample_circle; flat_stroke] Server.blank).
Proof.
  destruct (canvas_and_export_paint_alike
              (fun _ => false) offline_loader
              [sample_rect; sample_circle; flat_stroke] eq_refl) as (Hsame & _).
  exact Hsame.
Defined.

Lemma no_images_no_failures
      (loadImage : Server.ImageSource -> unit + jsstring) (els : Scene) :
  forallb (fun el => negb (hasImage el)) els = true ->
  length (List.filter (failsToLoad loadImage) els) = 0.
Proof.
  induction els as [| el els IH]; [reflexivity |].
  intros Hno. cbn in Hno. apply andb_true_iff in Hno as [Hel Hels].
  destruct el; cbn in Hel; try discriminate; cbn; auto.
Qed.

(** X12.  An export with truthy page sizes and an array of elements: when
    the canvas and the document can be made the answer is one document of
    the requested size whose canvas carries, in scene order, the calls each
    element makes by its kind; the log has exactly one line per image whose
    source fails to load, so a scene without images is exported with an
    empty log.  When the canvas cannot be created, or the document cannot be
    assembled, the answer is status 500 and the error is logged, after the
    reports of the images in the second case. *)
Theorem export_paints_each_element_in_order
        (loadImage : Server.ImageSource -> unit + jsstring)
        (createCanvas : Server.Value -> Server.Value -> unit + jsstring)
        (assemblePdf : Server.Value -> Server.Value -> list Server.CanvasOp
                       -> unit + jsstring)
        (w h : Server.Value) (els : Scene) :
  Server.falsy w = false -> Server.falsy h = false ->
  let answer := Server.exportPdf loadImage createCanvas assemblePdf
                  (Server.mkRequest w h (Server.JArray els)) in
  let calls := concat (map (contextCalls loadImage) els) in
  (createCanvas w h = inl tt -> assemblePdf w h calls = inl tt ->
   exists log,
     answer = Server.Pdf (Server.mkDocument w h calls) log
     /\ length log = length (List.filter (failsToLoad loadImage) els)
     /\ (forallb (fun el => negb (hasImage el)) els = true -> log = []))
  /\ (forall err : jsstring,
         createCanvas w h = inr err ->
         answer = Server.Json 500 (js "Failed to generate PDF")
                              [js "PDF Export Error: " ++ err])
  /\ (forall err : jsstring,
         createCanvas w h = inl tt -> assemblePdf w h calls = inr err ->
         exists log,
           answer = Server.Json 500 (js "Failed to generate PDF")
                                (log ++ [js "PDF Export Error: " ++ err])
           /\ length log = length (List.filter (failsToLoad loadImage) els)).
Proof.
  intros Hw Hh answer calls. unfold answer.
  rewrite (exportPdf_renders loadImage createCanvas assemblePdf w h
             (Server.JArray els) Hw Hh eq_refl).
  rewrite render_scene. fold calls. unfold Server.serverError.
  split; [| split].
  - intros Hc Ha. rewrite Hc, Ha.
    exists (concat (map (reported loadImage) els)).
    split; [reflexivity |]. split.
    + apply failing_images_count.
    + intros Hno. apply length_zero_iff_nil.
      rewrite failing_images_count. now apply no_images_no_failures.
  - intros err Hc. now rewrite Hc.
  - intros err Hc Ha. rewrite Hc, Ha.
    exists (concat (map (reported loadImage) els)).
    split; [reflexivity | apply failing_images_count].
Qed.

Lemma export_paints_each_element_in_order_witness :
  exists log,
    Server.exportPdf offline_loader sized_canvas plain_pdf
      (sceneRequest 800 600 [remote_image; sample_rect; remote_image])
    = Server.Pdf
        (Server.mkDocument (Server.JNumber 800) (Server.JNumber 600)
           [Server.SetFillStyle sample_red; Server.FillRect 10 10 100 100])
        log
    /\ length log = 2.
Proof.
  destruct (export_paints_each_element_in_order
              offline_loader sized_canvas plain_pdf
              (Server.JNumber 800) (Server.JNumber 600)
              [remote_image; sample_rect; remote_image] eq_refl eq_refl)
    as (Hpdf & _).
  destruct (Hpdf eq_refl eq_refl) as (log & E & Hlen & _).
  exists log. split; [exact E | exact Hlen].
Defined.

Section DataUriFacts.

Lemma upToComma_no_comma (s : jsstring) :
  Forall (fun c => c <> 44%N) s -> Server.upToComma s = s.
Proof.
  induction 1 as [| c s Hc _ IH]; cbn; [reflexivity |].
  destruct (N.eqb_spec c 44); [contradiction |]. now rewrite IH.
Qed.

(** [upToComma] stops at the first comma. *)
Lemma upToComma_app (s rest : jsstring) :
  Forall (fun c => c <> 44%N) s -> Server.upToComma (s ++ 44%N :: rest) = s.
Proof.
  induction 1 as [| c s Hc _ IH]; cbn; [reflexivity |].
  destruct (N.eqb_spec c 44); [contradiction |]. now rewrite IH.
Qed.

Lemma afterFirstComma_app (meta rest : jsstring) :
  Forall (fun c => c <> 44%N) meta ->
  Server.afterFirstComma (meta ++ 44%N :: rest) = Some (Server.upToComma rest).
Proof.
  induction 1 as [| c s Hc _ IH]; cbn; [reflexivity |].
  destruct (N.eqb_spec c 44); [contradiction |]. exact IH.
Qed.

Lemma afterFirstComma_none (s : jsstring) :
  Forall (fun c => c <> 44%N) s -> Server.afterFirstComma s = None.
Proof.
  induction 1 as [| c s Hc _ IH]; cbn; [reflexivity |].
  destruct (N.eqb_spec c 44); [contradiction |]. exact IH.
Qed.

(** The source of a [data:] URI with at least one comma, given what lies
    between the first comma and the next one (or the end). *)
Lemma imageSourceOf_data (meta rest : jsstring) :
  Forall (fun c => c <> 44%N) meta ->
  Server.imageSourceOf (js "data:" ++ meta ++ 44%N :: rest)
  = if str_truthy (Server.upToComma rest)
    then Server.FromBuffer (Server.upToComma rest)
    else Server.FromString (js "data:" ++ meta ++ 44%N :: rest).
Proof.
  intros Hmeta. unfold Server.imageSourceOf. cbn.
  now rewrite (afterFirstComma_app meta rest Hmeta).
Qed.

End DataUriFacts.

(** X13.  The source handed to [loadImage].  For a [data:] URI it is the
    buffer decoded from what lies between the first comma and the second
    one, or the end of the string when there is no second comma; whatever
    follows a second comma is dropped.  When nothing lies there, when the
    URI has no comma at all, and for every source that does not start with
    [data:], it is the string itself. *)
Theorem data_uri_payload_is_decoded (meta payload rest src : jsstring) :
  Forall (fun c => c <> 44%N) meta ->
  Forall (fun c => c <> 44%N) payload ->
  let short := js "data:" ++ meta ++ 44%N :: payload in
  let long := js "data:" ++ meta ++ 44%N :: payload ++ 44%N :: rest in
  (payload <> [] ->
   Server.imageSourceOf short = Server.FromBuffer payload
   /\ Server.imageSourceOf long = Server.FromBuffer payload)
  /\ (payload = [] ->
      Server.imageSourceOf short = Server.FromString short
      /\ Server.imageSourceOf long = Server.FromString long)
  /\ Server.imageSourceOf (js "data:" ++ meta)
     = Server.FromString (js "data:" ++ meta)
  /\ (startsWith (js "data:") src = false ->
      Server.imageSourceOf src = Server.FromString src).
Proof.
  intros Hmeta Hpay short long.
  assert (Hshort : Server.upToComma payload = payload)
    by now apply upToComma_no_comma.
  assert (Hlong : Server.upToComma (payload ++ 44%N :: rest) = payload)
    by now apply upToComma_app.
  unfold short, long. rewrite !(imageSourceOf_data meta _ Hmeta).
  rewrite Hshort, Hlong.
  split; [| split; [| split]].
  - intros Hne. destruct payload; [contradiction | auto].
  - intros ->. auto.
  - unfold Server.imageSourceOf. cbn.
    now rewrite (afterFirstComma_none meta Hmeta).
  - intros Hno. unfold Server.imageSourceOf. now rewrite Hno.
Qed.

Lemma data_uri_payload_is_decoded_witness :
  Server.imageSourceOf
    (js "data:" ++ js "image/png;base64" ++ 44%N :: js "iVBORw0KGgo=")
  = Server.FromBuffer (js "iVBORw0KGgo=")
  /\ Server.imageSourceOf
       (js "data:" ++ js "x" ++ 44%N :: js "AAAA" ++ 44%N :: js "BBBB")
     = Server.FromBuffer (js "AAAA").
Proof.
  split.
  - destruct (data_uri_payload_is_decoded
                (js "image/png;base64") (js "iVBORw0KGgo=") [] [])
      as (Hdec & _).
    + repeat constructor; discriminate.
    + repeat constructor; discriminate.
    + apply Hdec. discriminate.
  - destruct (data_uri_payload_is_decoded
                (js "x") (js "AAAA") (js "BBBB") []) as (Hdec & _).
    + repeat constructor; discriminate.
    + repeat constructor; discriminate.
    + apply Hdec. discriminate.
Defined.

(* ================================================================== *)
(** * More on the Konva canvas and on the image tool *)
(* ================================================================== *)

Lemma boundBoxFunc_keeps_minimum (oldBox newBox : Konva.Box) :
  boxAtLeastMinimum oldBox ->
  boxAtLeastMinimum (Konva.boundBoxFunc oldBox newBox).
Proof.
  intros Hold. unfold Konva.boundBoxFunc.
  destruct (num_lt (Konva.box_width newBox) 5) eqn:Hw; [exact Hold |].
  destruct (num_lt (Konva.box_height newBox) 5) eqn:Hh; [exact Hold |].
  apply num_lt_false_iff in Hw, Hh. cbn. split; assumption.
Qed.

(** X14.  The end of a Konva transform replaces the transformed element by
    one placed at the node's position whose sizes are at least the minimum
    (5 for width, height and radius, 10 for a font size), touches no other
    element and adds no snapshot; a path is left as it is.  While a handle
    is dragged, the box the transformer keeps never gets narrower or lower
    than 5 once it is at least that large. *)
Theorem transform_keeps_minimum_size :
  (forall (i : nat) (node : Konva.Node) (app : Konva.App)
          (shape : CanvasElement),
      Page.elements (Konva.page app) !! i = Some shape ->
      exists (r : CanvasElement) (app' : Konva.App),
        Konva.transformEnd i node app = Some app'
        /\ Page.elements (Konva.page app')
           = <[i := r]> (Page.elements (Konva.page app))
        /\ atLeastMinimum r
        /\ (if isPath shape then r = shape
            else elemX r = Some (Konva.node_x node)
                 /\ elemY r = Some (Konva.node_y node))
        /\ Page.history (Konva.page app') = Page.history (Konva.page app)
        /\ Page.historyIndex (Konva.page app')
           = Page.historyIndex (Konva.page app)
        /\ Konva.canvas app' = Konva.canvas app)
  /\ (forall (proposed : list Konva.Box) (box : Konva.Box),
         boxAtLeastMinimum box ->
         boxAtLeastMinimum (fold_left Konva.boundBoxFunc proposed box)).
Proof.
  split.
  - intros i node app shape Hl.
    pose proof (lookup_lt_Some _ _ _ Hl) as Hlt.
    unfold Konva.transformEnd. rewrite Hl.
    destruct shape as [x y w h c | x y r c | x y t f c | x y w h src
                      | pts c sw]; cbn [Konva.onTransformEnd];
      try (rewrite onElementUpdate_inside by exact Hlt;
           eexists; eexists; split; [reflexivity |]; cbn;
           repeat split; auto; apply Q.le_max_l).
    exists (Path pts c sw), app. repeat split; auto.
    symmetry. now apply list_insert_id.
  - induction proposed as [| b proposed IH]; intros box Hbox; cbn; auto.
    apply IH. now apply boundBoxFunc_keeps_minimum.
Qed.

Lemma transform_keeps_minimum_size_witness :
  exists r app',
    Konva.transformEnd 0 (Konva.mkNode 20 30 100 100 0 (1 # 100) 2)
      (Konva.mkApp (Page.handleAddElement sample_rect Page.initial) Konva.idle)
    = Some app'
    /\ Page.elements (Konva.page app') = <[0 := r]> [sample_rect]
    /\ atLeastMinimum r.
Proof.
  destruct transform_keeps_minimum_size as (Hend & _).
  destruct (Hend 0 (Konva.mkNode 20 30 100 100 0 (1 # 100) 2)
                 (Konva.mkApp (Page.handleAddElement sample_rect Page.initial)
                              Konva.idle)
                 sample_rect eq_refl)
    as (r & app' & E & He & Hmin & _).
  exists r, app'. split; [exact E | split; [exact He | exact Hmin]].
Defined.

(** X15.  On the Konva canvas a press with the text tool anywhere but on a
    shape adds the placeholder text of font size 24 at the pointer, in the
    current colour (black when the colour is empty), and commits it; the new
    element sits at the index [elements.length] that the handler hands to
    [onSelect].  A press on a shape changes nothing, whatever the tool: the
    page passes no [onSelect].  A click on the shape of index [i] removes
    that element with the eraser and changes nothing with any other tool. *)
Theorem konva_text_press_commits_placeholder
        (app : Konva.App) (target : Konva.Target) (p : Point)
        (reply : option jsstring) (i : nat) :
  let els := Page.elements (Konva.page app) in
  let app' := Konva.handleMouseDown target (Some p) reply app in
  (Page.activeTool (Konva.page app) = tool_text ->
   (forall index, target <> Konva.Shape index) ->
   exists color,
     color = (if str_truthy (Page.currentColor (Konva.page app))
              then Page.currentColor (Konva.page app) else js "#000000")
     /\ Konva.page app'
        = Page.handleAddElement
            (Text (px p) (py p) (js "Input Text Here") 24 color)
            (Konva.page app)
     /\ Page.elements (Konva.page app') !! length els
        = Some (Text (px p) (py p) (js "Input Text Here") 24 color)
     /\ length (Page.elements (Konva.page app')) = S (length els)
     /\ Konva.isDrawing (Konva.canvas app') = false)
  /\ (forall index, target = Konva.Shape index -> app' = app)
  /\ (Page.activeTool (Konva.page app) = tool_eraser ->
      Konva.page (Konva.shapeClick i app)
      = Page.handleRemoveElement i (Konva.page app)
      /\ Page.elements (Konva.page (Konva.shapeClick i app))
         = take i els ++ drop (S i) els)
  /\ (Page.activeTool (Konva.page app) <> tool_eraser ->
      Konva.shapeClick i app = app).
Proof.
  intros els app'. split; [| split; [| split]].
  - intros Htool Hns. eexists; split; [reflexivity |].
    set (txt := Text (px p) (py p) (js "Input Text Here") 24 _).
    assert (E : app'
                = Konva.mkApp (Page.handleAddElement txt (Konva.page app))
                    (Konva.setIsDrawing false (Konva.canvas app))).
    { unfold app', Konva.handleMouseDown.
      destruct target as [| index |]; [| now destruct (Hns index) |];
        now rewrite Htool. }
    rewrite E; cbn [Konva.page Konva.canvas].
    split; [reflexivity |].
    unfold Page.handleAddElement. rewrite addToHistory_elements. fold els.
    split; [| split; [| reflexivity]].
    + rewrite lookup_app_r by lia. now rewrite Nat.sub_diag.
    + rewrite length_app; cbn. lia.
  - intros index ->. reflexivity.
  - intros Htool. unfold Konva.shapeClick. rewrite Htool; cbn [Konva.page].
    split; [reflexivity |].
    unfold Page.handleRemoveElement. rewrite addToHistory_elements.
    rewrite filterIndexNe_spec by lia. now rewrite Nat.sub_0_r.
  - intros Htool. unfold Konva.shapeClick.
    now destruct (Page.activeTool (Konva.page app)).
Qed.

Lemma konva_text_press_commits_placeholder_witness :
  Page.elements
    (Konva.page
       (Konva.handleMouseDown Konva.Stage (Some (mkPoint 40 60)) None
                              (konva_app tool_text)))
  !! 0
  = Some (Text 40 60 (js "Input Text Here") 24 (js "#000000")).
Proof.
  destruct (konva_text_press_commits_placeholder
              (konva_app tool_text) Konva.Stage (mkPoint 40 60) None 0)
    as (Htext & _).
  destruct Htext as (color & Hc & _ & Hl & _).
  - reflexivity.
  - intros index. discriminate.
  - rewrite Hc in Hl. exact Hl.
Defined.

(** X16.  With the image tool on the raw canvas and no drag or resize under
    way, a press and its release add an image only when the prompt was
    answered with a non-empty string: then one image of 150 by 150 at the
    press point with that string as source is committed; a cancelled or
    empty answer leaves the page as it was.  The canvas is not drawing
    afterwards in either case. *)
Theorem image_tool_adds_only_on_an_answer
        (Math_sqrt : number -> number)
        (isPointInStroke : number -> list Point -> Point -> bool)
        (app : Raw.App) (pos : Point)
        (reply : option jsstring) :
  Page.activeTool (Raw.page app) = tool_image ->
  pointerFree (Raw.canvas app) ->
  let app' := Raw.handleMouseUp Math_sqrt
                (Raw.handleMouseDown Math_sqrt isPointInStroke pos reply app) in
  Raw.page app'
  = match reply with
    | Some (c :: url) =>
        Page.handleAddElement (Image (px pos) (py pos) 150 150 (c :: url))
                              (Raw.page app)
    | _ => Raw.page app
    end
  /\ Raw.isDrawing (Raw.canvas app') = false.
Proof.
  intros Htool (Hnd & Hnr) app'.
  unfold app', Raw.handleMouseDown, Raw.handleMouseUp. rewrite Htool.
  destruct reply as [[| c url] |]; cbn; rewrite Hnd, Hnr; cbn;
    rewrite ?Htool; cbn; auto.
Qed.

Lemma image_tool_adds_only_on_an_answer_witness :
  Page.elements
    (Raw.page (Raw.handleMouseUp sqrt_milli
                 (Raw.handleMouseDown sqrt_milli round_stroke (mkPoint 5 5) None
                                      (raw_app tool_image))))
  = [].
Proof.
  destruct (image_tool_adds_only_on_an_answer
              sqrt_milli round_stroke (raw_app tool_image) (mkPoint 5 5) None eq_refl)
    as (Hpage & _).
  - split; reflexivity.
  - rewrite Hpage. reflexivity.
Defined.

Section SelectFacts.
Variable Math_sqrt : number -> number.
Variable isPointInStroke : number -> list Point -> Point -> bool.

Lemma update_keeps_history (i : nat) (el : CanvasElement) (app app' : Raw.App) :
  Raw.update i el app = Some app' ->
  Page.history (Raw.page app') = Page.history (Raw.page app)
  /\ Page.historyIndex (Raw.page app') = Page.historyIndex (Raw.page app)
  /\ Page.activeTool (Raw.page app') = Page.activeTool (Raw.page app).
Proof.
  unfold Raw.update.
  destruct (Page.onElementUpdate i el (Raw.page app)) as [pg' |] eqn:E;
    [| discriminate].
  intros [= <-]. exact (onElementUpdate_history _ _ _ _ E).
Qed.

(** A pointer move never touches the history, whatever the state of the
    canvas. *)
Lemma handleMouseMove_keeps_history (p : Point) (app app' : Raw.App) :
  Raw.handleMouseMove p app = Some app' ->
  Page.history (Raw.page app') = Page.history (Raw.page app)
  /\ Page.historyIndex (Raw.page app') = Page.historyIndex (Raw.page app)
  /\ Page.activeTool (Raw.page app') = Page.activeTool (Raw.page app).
Proof.
  unfold Raw.handleMouseMove.
  repeat match goal with
         | |- context [match ?x with _ => _ end] => destruct x eqn:?
         end;
    try (intros [= <-]; cbn; auto; fail);
    intros Hup;
    destruct (update_keeps_history _ _ _ _ Hup) as (? & ? & ?);
    repeat split; congruence.
Qed.

Lemma moves_keep_history (ps : list Point) :
  forall app app',
    Raw.moves ps app = Some app' ->
    Page.history (Raw.page app') = Page.history (Raw.page app)
    /\ Page.historyIndex (Raw.page app') = Page.historyIndex (Raw.page app)
    /\ Page.activeTool (Raw.page app') = Page.activeTool (Raw.page app).
Proof.
  induction ps as [| p ps IH]; intros app app'; cbn.
  - intros [= <-]. auto.
  - destruct (Raw.handleMouseMove p app) as [app1 |] eqn:E; [| discriminate].
    intros Hrest.
    destruct (handleMouseMove_keeps_history p app app1 E) as (H1 & H2 & H3).
    destruct (IH app1 app' Hrest) as (G1 & G2 & G3).
    repeat split; congruence.
Qed.

(** With the selection inside the scene, an update of the selected slot
    goes through and keeps the length of the scene. *)
Lemma update_selected (i : nat) (el : CanvasElement) (app : Raw.App) :
  Raw.selectedIndex (Raw.canvas app) = Some i ->
  selectionInside app ->
  exists app',
    Raw.update i el app = Some app'
    /\ selectionInside app'
    /\ length (Page.elements (Raw.page app'))
       = length (Page.elements (Raw.page app)).
Proof.
  unfold selectionInside. intros Hsel Hin. rewrite Hsel in Hin.
  unfold Raw.update. rewrite onElementUpdate_inside by exact Hin.
  eexists; split; [reflexivity |]. cbn. rewrite Hsel, length_insert. auto.
Qed.

Lemma handleMouseMove_inside (p : Point) (app : Raw.App) :
  selectionInside app ->
  exists app',
    Raw.handleMouseMove p app = Some app'
    /\ selectionInside app'
    /\ length (Page.elements (Raw.page app'))
       = length (Page.elements (Raw.page app)).
Proof.
  intros Hin. unfold Raw.handleMouseMove.
  destruct (Raw.selectedIndex (Raw.canvas app)) as [si |] eqn:Hsel;
    repeat match goal with
           | |- context [match ?x with _ => _ end] => destruct x eqn:?
           end;
    first [ now apply update_selected
          | eexists; split; [reflexivity |]; split; [| reflexivity];
            unfold selectionInside in *; cbn; rewrite Hsel in *; exact Hin ].
Qed.

Lemma moves_inside (ps : list Point) :
  forall app,
    selectionInside app ->
    exists app',
      Raw.moves ps app = Some app'
      /\ selectionInside app'
      /\ length (Page.elements (Raw.page app'))
         = length (Page.elements (Raw.page app)).
Proof.
  induction ps as [| p ps IH]; intros app Hin; cbn [Raw.moves].
  - exists app. auto.
  - destruct (handleMouseMove_inside p app Hin) as (app1 & E & Hin1 & Hlen1).
    rewrite E. destruct (IH app1 Hin1) as (app' & E' & Hin' & Hlen').
    exists app'. repeat split; auto. congruence.
Qed.

(** A press with the select tool leaves the page alone, and the selection
    it leaves is inside the scene: the handle of an element that exists, the
    element that is hit, or none. *)
Lemma select_press (p0 : Point) (reply : option jsstring) (app : Raw.App) :
  Page.activeTool (Raw.page app) = tool_select ->
  Raw.page (Raw.handleMouseDown Math_sqrt isPointInStroke p0 reply app)
  = Raw.page app
  /\ selectionInside (Raw.handleMouseDown Math_sqrt isPointInStroke p0 reply app).
Proof.
  intros Htool. unfold Raw.handleMouseDown. rewrite Htool.
  destruct (Raw.grabbedHandle p0 app) as [[hd e] |] eqn:Eg.
  - split; [reflexivity |]. unfold selectionInside; cbn.
    destruct (grabbedHandle_Some app p0 hd e Eg) as (i & Hs & Hl & _).
    rewrite Hs. eapply lookup_lt_Some; eauto.
  - destruct (Raw.topmostHit _ _ _) as [[i e] |] eqn:Et;
      (split; [reflexivity |]); unfold selectionInside; cbn; [| exact I].
    now apply topmostHit_Some in Et as (_ & _ & Hlt).
Qed.

Lemma select_release (app : Raw.App) :
  Page.activeTool (Raw.page app) = tool_select ->
  Raw.page (Raw.handleMouseUp Math_sqrt app) = Raw.page app.
Proof.
  intros Htool. unfold Raw.handleMouseUp. rewrite Htool.
  destruct (Raw.isDragging (Raw.canvas app)
            || bool_decide (Raw.isResizing (Raw.canvas app) <> None));
    [reflexivity |].
  destruct (Raw.isDrawing (Raw.canvas app)); reflexivity.
Qed.

End SelectFacts.

(** X17.  With the select tool a press, moves and the release, started in
    any state of the canvas, always run through, and they never add or
    remove an element or change the history: the scene keeps its length and
    the snapshots and the cursor are those before the press.  Pointer moves
    alone, under every tool, never change the history or the cursor; they
    run through and keep the length of the scene whenever the selected
    index, if there is one, lies inside the scene. *)
Theorem select_gestures_never_touch_the_history
        (Math_sqrt : number -> number)
        (isPointInStroke : number -> list Point -> Point -> bool) :
  (forall (app : Raw.App) (p0 : Point) (ps : list Point),
      Page.activeTool (Raw.page app) = tool_select ->
      exists app',
        Raw.gesture Math_sqrt isPointInStroke p0 ps app = Some app'
        /\ Page.history (Raw.page app') = Page.history (Raw.page app)
        /\ Page.historyIndex (Raw.page app') = Page.historyIndex (Raw.page app)
        /\ length (Page.elements (Raw.page app'))
           = length (Page.elements (Raw.page app)))
  /\ (forall (app app' : Raw.App) (ps : list Point),
         Raw.moves ps app = Some app' ->
         Page.history (Raw.page app') = Page.history (Raw.page app)
         /\ Page.historyIndex (Raw.page app')
            = Page.historyIndex (Raw.page app))
  /\ (forall (app : Raw.App) (ps : list Point),
         selectionInside app ->
         exists app',
           Raw.moves ps app = Some app'
           /\ selectionInside app'
           /\ length (Page.elements (Raw.page app'))
              = length (Page.elements (Raw.page app))).
Proof.
  split; [| split].
  - intros app p0 ps Htool.
    destruct (select_press Math_sqrt isPointInStroke p0 None app Htool)
      as (Hdown & Hin).
    destruct (moves_inside ps _ Hin) as (mid & E & _ & Hlen).
    destruct (moves_keep_history ps _ _ E) as (H1 & H2 & H3).
    rewrite Hdown in H1, H2, H3, Hlen. rewrite Htool in H3.
    exists (Raw.handleMouseUp Math_sqrt mid).
    unfold Raw.gesture. rewrite E.
    rewrite (select_release Math_sqrt mid H3). auto.
  - intros app app' ps E.
    destruct (moves_keep_history ps _ _ E) as (H1 & H2 & _). auto.
  - intros app ps Hin. now apply moves_inside.
Qed.

Lemma select_gestures_never_touch_the_history_witness :
  exists app',
    Raw.gesture sqrt_milli round_stroke (mkPoint 300 300) [mkPoint 310 310]
                (Raw.mkApp three_elements Raw.idle) = Some app'
    /\ length (Page.elements (Raw.page app')) = 3.
Proof.
  destruct (select_gestures_never_touch_the_history sqrt_milli round_stroke)
    as (Hsel & _).
  destruct (Hsel (Raw.mkApp three_elements Raw.idle)
                 (mkPoint 300 300) [mkPoint 310 310] eq_refl)
    as (app' & Hg & _ & _ & Hlen).
  exists app'. split; [exact Hg | exact Hlen].
Defined.

(** A selected index left behind by a scene that has shrunk: while the
    canvas still holds a drag of index 1 and the scene has one element, a
    pointer move appends the dragged element instead of replacing one. *)
Example stale_drag_appends :
  Page.elements <$>
    (Raw.page <$>
       Raw.handleMouseMove (mkPoint 5 5)
         (Raw.mkApp (Page.handleAddElement sample_rect Page.initial)
            (Raw.mkCanvas false true None (Some (mkPoint 0 0)) None [] None
                          (Some 1) (Some sample_circle))))
  = Some [sample_rect; Circle 205 205 50 sample_red].
Proof. vm_compute. reflexivity. Qed.
